(** * SpMV benchmark host code (Ch8/SpMV/Spmv.c): a shallow embedding

    The host side of the sparse matrix-vector benchmark: the CPU reference
    product [spmvCpu], the result check [verifyResults], the ELLPACKR setup
    of [ellPackTest], the CSR driver [csrTest] and the top-level [RunTest].

    Conventions.
    - A C [float] is an IEEE-754 binary32 value and a C [double] a binary64
      value; both are [spec_float] of the Standard Library, with the
      arithmetic of [SpecFloat] at precision 24/128 and 53/1024 (round to
      nearest even, one NaN).
    - A C [int] is a [Z]; where the code computes with it the 32-bit
      wrap-around is written out ([wrap_int]).
    - An array is a list; an access out of its bounds is undefined in C and
      is the failure [None] here.
    - An OpenCL transfer is the event of the call: the runtime reads or
      writes the host array, and that the array holds what is transferred
      is a precondition of the theorems on the runs ([csrTest_pre],
      [ellPackTest_pre], [RunTest_pre]), as is that the sizes the source
      computes in [int] are within [int]. *)

From Stdlib Require Import String Ascii.
From Stdlib Require Import ZArith List Bool Lia.
From Stdlib Require Import SpecFloat DecimalString.
Import ListNotations.
Open Scope Z_scope.

Set Implicit Arguments.

(** ** Failure monad for undefined accesses *)

Definition obind {A B : Type} (m : option A) (k : A -> option B) : option B :=
  match m with
  | Some a => k a
  | None => None
  end.

Declare Scope opt_scope.
Delimit Scope opt_scope with opt.
Notation "x <- m ;; k" := (obind m (fun x => k))
  (at level 61, m at next level, right associativity) : opt_scope.
Open Scope opt_scope.

(** ** Arrays *)

Definition load {A : Type} (a : list A) (i : Z) : option A :=
  if i <? 0 then None else nth_error a (Z.to_nat i).

Fixpoint upd {A : Type} (n : nat) (v : A) (a : list A) : list A :=
  match a, n with
  | [], _ => []
  | _ :: t, O => v :: t
  | h :: t, S n' => h :: upd n' v t
  end.

Definition store {A : Type} (a : list A) (i : Z) (v : A) : option (list A) :=
  if (0 <=? i) && (i <? Z.of_nat (length a))
  then Some (upd (Z.to_nat i) v a)
  else None.

(** ** Counted loops

    [for (int i = lo; i < hi; i++) body] where [body] neither assigns [i]
    nor changes [hi]: the body runs for [i = lo, lo+1, ..., hi-1].  The
    counter stays below [hi], itself an [int], so [i++] never leaves the
    range of [int]. *)

Fixpoint for_iter {S : Type} (n : nat) (i : Z) (body : Z -> S -> option S)
  (s : S) : option S :=
  match n with
  | O => Some s
  | Datatypes.S n' =>
      match body i s with
      | Some s' => for_iter n' (i + 1) body s'
      | None => None
      end
  end.

Definition for_loop {S : Type} (lo hi : Z) (body : Z -> S -> option S)
  (s : S) : option S :=
  for_iter (Z.to_nat (hi - lo)) lo body s.

(** ** Floating point *)

Module F32.
Definition prec := 24.
Definition emax := 128.
Definition add := SFadd prec emax.
Definition sub := SFsub prec emax.
Definition mul := SFmul prec emax.
Definition zero := S754_zero false.
(** The [float] nearest to an integer (the literals of the examples). *)
Definition of_Z (z : Z) : spec_float := binary_normalize prec emax z 0 false.
End F32.

Module F64.
Definition prec := 53.
Definition emax := 1024.
Definition add := SFadd prec emax.
Definition mul := SFmul prec emax.
Definition div := SFdiv prec emax.
(** The conversion [(double) n] of an [int]. *)
Definition of_Z (z : Z) : spec_float := binary_normalize prec emax z 0 false.
(** [double fabs(double)] of <math.h>. *)
Definition fabs := SFabs.
(** [a > b] on doubles; false as soon as one side is a NaN. *)
Definition gt (a b : spec_float) : bool := SFltb b a.
(** The implicit conversion of a [float] operand to [double]: exact, the
    value is only brought to the canonical binary64 mantissa. *)
Definition of_float (x : spec_float) : spec_float :=
  match x with
  | S754_finite s m e => binary_round prec emax s m e
  | _ => x
  end.
End F64.

Definition float := spec_float.
Definition double := spec_float.

(** [#define MAX_RELATIVE_ERROR 1e-10]: the double nearest to 1e-10,
    0x1.b7cdfd9d7bdbbp-34. *)
Definition MAX_RELATIVE_ERROR : double :=
  S754_finite false 7737125245533627 (-86).

(** ** spmvCpu

<<
    for (int i=0; i<dim; i++) {
        float t = 0;
        for (int j=rowDelimiters[i]; j<rowDelimiters[i+1]; j++) {
            int col = cols[j];
            t += val[j] * vec[col];
        }
        out[i] = t;
    }
>>
    [rowDelimiters] is not written, so the bound [rowDelimiters[i+1]] read
    by every test of the inner loop is the one read by the first test.  The
    product and the sum are [float] operations, each rounded to binary32
    (no fused multiply-add). *)

Definition spmvCpu_row (val : list float) (cols : list Z) (vec : list float)
  (lo hi : Z) : option float :=
  for_loop lo hi
    (fun j t =>
       col <- load cols j ;;
       v <- load val j ;;
       x <- load vec col ;;
       Some (F32.add t (F32.mul v x)))
    F32.zero.

Definition spmvCpu (val : list float) (cols rowDelimiters : list Z)
  (vec : list float) (dim : Z) (out : list float) : option (list float) :=
  for_loop 0 dim
    (fun i out =>
       lo <- load rowDelimiters i ;;
       hi <- load rowDelimiters (i + 1) ;;
       t <- spmvCpu_row val cols vec lo hi ;;
       store out i t)
    out.

(** ** verifyResults

<<
    bool passed = 1;
    for (int i=0; i<size; i++)
        if (fabs(cpuResults[i] - gpuResults[i]) / cpuResults[i]
            > MAX_RELATIVE_ERROR)
            passed = 0;
    ... print ...
    return passed;
>>
    The difference is a [float] subtraction; [fabs] takes it as a [double],
    so the quotient and the comparison are in [double].  The divisor is the
    reference entry itself, with its sign. *)

Definition relative_error (cpu gpu : float) : double :=
  F64.div (F64.fabs (F64.of_float (F32.sub cpu gpu))) (F64.of_float cpu).

(** The test of the [if], with the macro's value as [tol]. *)
Definition exceeds (tol : double) (cpu gpu : float) : bool :=
  F64.gt (relative_error cpu gpu) tol.

Definition verifyResults_tol (tol : double) (cpuResults gpuResults : list float)
  (size : Z) (pass : Z) : option bool :=
  for_loop 0 size
    (fun i passed =>
       c <- load cpuResults i ;;
       g <- load gpuResults i ;;
       Some (if exceeds tol c g then false else passed))
    true.

Definition verifyResults : list float -> list float -> Z -> Z -> option bool :=
  verifyResults_tol MAX_RELATIVE_ERROR.

(** What [verifyResults] prints before it returns. *)
Definition verifyResults_message (passed : bool) : string :=
  (if passed then "Passed!" else "---FAILED---")%string.

(** ** The [int] type

    32-bit two's complement; a result out of range wraps. *)

Definition INT_MAX : Z := 2147483647.
Definition INT_MIN : Z := -2147483648.

Definition wrap_int (z : Z) : Z := (z + 2147483648) mod 4294967296 - 2147483648.

Definition int_add (a b : Z) : Z := wrap_int (a + b).
Definition int_sub (a b : Z) : Z := wrap_int (a - b).
Definition int_mul (a b : Z) : Z := wrap_int (a * b).
(** [a % b]: the remainder has the sign of [a]. *)
Definition int_rem (a b : Z) : Z := Z.rem a b.

(** ** The padded row count of RunTest

<<
    int paddedSize = numRows + (PAD_FACTOR - numRows % PAD_FACTOR);
>>
    [PAD_FACTOR] comes from Spmv.h, which is not among the sources: it is a
    parameter here. *)

Definition paddedSize (PAD_FACTOR numRows : Z) : Z :=
  int_add numRows (int_sub PAD_FACTOR (int_rem numRows PAD_FACTOR)).

(** The row count the specification gives for the padded matrix: padding
    only when [numRows] is not a multiple of the pad factor. *)
Definition toPadded_rows (padFactor numRows : Z) : Z :=
  if numRows mod padFactor =? 0 then numRows
  else numRows + (padFactor - numRows mod padFactor).

(** ** The ELLPACKR setup of ellPackTest

    [new T[n]] yields [n] cells without a value ([None]); a negative [n]
    does not yield an array. *)

Definition new_array {A : Type} (n : Z) : option (list (option A)) :=
  if n <? 0 then None else Some (repeat None (Z.to_nat n)).

(** The value of an array cell that has been written. *)
Definition load_init {A : Type} (a : list (option A)) (i : Z) : option A :=
  c <- load a i ;; c.

(**
<<
    int *h_rowLengths = new int[paddedSize];
    int maxrl = 0;
    for (int k=0; k<numRows; k++) {
        h_rowLengths[k] = h_rowDelimiters[k+1] - h_rowDelimiters[k];
        if (h_rowLengths[k] > maxrl) maxrl = h_rowLengths[k];
    }
    for (int p=numRows; p < paddedSize; p++) h_rowLengths[p] = 0;
>> *)
Definition ellPack_rowLengths (h_rowDelimiters : list Z)
  (numRows paddedSize : Z) : option (list (option Z) * Z) :=
  h_rowLengths <- new_array paddedSize ;;
  r <- for_loop 0 numRows
         (fun k '(h_rowLengths, maxrl) =>
            hi <- load h_rowDelimiters (k + 1) ;;
            lo <- load h_rowDelimiters k ;;
            h_rowLengths <- store h_rowLengths k (Some (int_sub hi lo)) ;;
            len <- load_init h_rowLengths k ;;
            Some (h_rowLengths, if len >? maxrl then len else maxrl))
         (h_rowLengths, 0) ;;
  h_rowLengths <- for_loop numRows paddedSize
                    (fun p h_rowLengths => store h_rowLengths p (Some 0))
                    (fst r) ;;
  Some (h_rowLengths, snd r).

Record ellpackr : Type := {
  h_rowLengths : list (option Z);
  maxrl : Z;
  cmSize : Z;
  h_valcm : list (option float);
  h_colscm : list (option Z)
}.

(** The type of [convertToColMajor(A, cols, dim, rowDelimiters, newA,
    newcols, rl, maxrl, padded)]; it fills [newA] and [newcols]. *)
Definition convertToColMajor_t : Type :=
  list float -> list Z -> Z -> list Z ->
  list (option float) -> list (option Z) -> list (option Z) -> Z -> bool ->
  option (list (option float) * list (option Z)).

(**
<<
    int cmSize = padded ? paddedSize : numRows;
    float *h_valcm = new float[maxrl * cmSize];
    int *h_colscm = new int[maxrl * cmSize];
    convertToColMajor(h_val, h_cols, numRows, h_rowDelimiters, h_valcm,
                      h_colscm, h_rowLengths, maxrl, padded);
>> *)
Definition ellPack_setup (convertToColMajor : convertToColMajor_t)
  (h_val : list float) (h_cols h_rowDelimiters : list Z)
  (numRows : Z) (padded : bool) (paddedSize : Z) : option ellpackr :=
  r <- ellPack_rowLengths h_rowDelimiters numRows paddedSize ;;
  let h_rowLengths := fst r in
  let maxrl := snd r in
  let cmSize := if padded then paddedSize else numRows in
  h_valcm <- new_array (int_mul maxrl cmSize) ;;
  h_colscm <- new_array (int_mul maxrl cmSize) ;;
  cm <- convertToColMajor h_val h_cols numRows h_rowDelimiters h_valcm
          h_colscm h_rowLengths maxrl padded ;;
  Some {| h_rowLengths := h_rowLengths; maxrl := maxrl; cmSize := cmSize;
          h_valcm := fst cm; h_colscm := snd cm |}.

(** [linearIndex(row, slot, numRowsPadded) = slot*numRowsPadded + row]. *)
Definition linearIndex (row slot numRowsPadded : Z) : Z :=
  slot * numRowsPadded + row.

(** Modelled from the spec: [convertToColMajor] is defined in Spmv.h, which
    is not among the sources; only its call in ellPackTest is.  The
    specification of toELLPACKR gives its effect: all slots are initialised
    to 0 value / 0 column index, and for each row the entries are copied
    into the slot positions 0..rowLength-1, the element (row r, slot k) at
    linear index k*numRowsPadded + r.  The row stride is the one the arrays
    were allocated for: the length of [rl] when [padded], [dim] otherwise. *)
Definition convertToColMajor : convertToColMajor_t :=
  fun A cols dim rowDelimiters newA newcols rl maxrl padded =>
  let stride := if padded then Z.of_nat (length rl) else dim in
  for_loop 0 dim
    (fun i cm =>
       len <- load_init rl i ;;
       lo <- load rowDelimiters i ;;
       for_loop 0 len
         (fun k cm =>
            v <- load A (lo + k) ;;
            c <- load cols (lo + k) ;;
            newA <- store (fst cm) (linearIndex i k stride) (Some v) ;;
            newcols <- store (snd cm) (linearIndex i k stride) (Some c) ;;
            Some (newA, newcols))
         cm)
    (map (fun _ => Some F32.zero) newA, map (fun _ => Some 0) newcols).

Close Scope opt_scope.

(** ** The device backend and the host state

    The OpenCL runtime, the kernels, the option parser and the result
    database are outside the program.  What the program gets back from them
    is read from a [backend], one answer per question asked ([now] counts
    the questions); what it sends to them is appended to the [log], most
    recent event first. *)

Inductive kernel_id : Type := CsrScalar | CsrVector | Ellpackr.

Definition kernel_name (k : kernel_id) : string :=
  match k with
  | CsrScalar => "spmv_csr_scalar_kernel"
  | CsrVector => "spmv_csr_vector_kernel"
  | Ellpackr => "spmv_ellpackr_kernel"
  end.

Inductive resource : Type :=
| Program
| Kernel (k : kernel_id)
| Buffer (var : string) (bytes : Z)
| Image2D (var : string) (width height : Z)
| HostArray (var : string) (elems : Z).

Inductive kernel_arg : Type :=
| ArgMem (var : string)
| ArgInt (v : Z).

Inductive event : Type :=
| EvPrint (s : string)
| EvAlloc (id : nat) (r : resource)
| EvFree (id : nat)
| EvBuild (flags : string) (err : Z)
| EvWrite (var : string) (bytes : Z)
| EvWriteImage (var : string) (width height : Z)
| EvSetArg (k : kernel_id) (index : Z) (a : kernel_arg)
| EvDispatch (k : kernel_id) (globalWorkSize localWorkSize : Z)
| EvRead (var : string) (bytes : Z)
(** [verifyResults(refOut, h_out, size, pass)] was called on the output of
    kernel [k], printed its verdict and returned [passed]. *)
| EvVerify (k : kernel_id) (size pass : Z) (passed : bool)
(** [resultDB.AddResult(name, atts, units, value)], called in pass [pass]
    of the loop that runs kernel [k]. *)
| EvAddResult (k : kernel_id) (pass : Z) (name atts units : string)
    (value : double).

Record backend : Type := {
  image_support : nat -> bool;
  image2d_max_width : nat -> Z;
  sampler_status : nat -> Z;
  image_check_status : nat -> Z;
  build_status : nat -> Z;
  elapsed : nat -> double;
  device_out : nat -> list float;
  max_work_group_size : nat -> Z;
  opt_passes : Z;
  opt_iterations : Z;
  (** what [sprintf(benchName, "%s_PCIe", benchName)] leaves in
      [benchName]: the copy is between overlapping objects, which C leaves
      undefined, and C libraries differ in the string they leave (the name
      followed by "_PCIe" with some, "_PCIe" alone with others).  The model
      takes the call to return and assumes nothing about the string. *)
  benchName_PCIe : string -> string
}.

Record world : Type := {
  log : list event;
  live : list (nat * resource);
  next_id : nat;
  now : nat;
  (** the host output vector [h_out], shared by the three tests *)
  h_out : list float
}.

(** The outcome of a piece of a [void] function: it falls through with a
    value, it executes [return], or its behaviour is undefined. *)
Inductive res (A : Type) : Type :=
| Val (a : A) (w : world)
| Ret (w : world)
| UB.
Arguments Val {A} a w.
Arguments Ret {A} w.
Arguments UB {A}.

Definition M (A : Type) : Type := world -> res A.

Definition ret {A : Type} (a : A) : M A := fun w => Val a w.

Definition bind {A B : Type} (m : M A) (k : A -> M B) : M B :=
  fun w =>
    match m w with
    | Val a w' => k a w'
    | Ret w' => Ret w'
    | UB => UB
    end.

(** The statement [return;]. *)
Definition Return {A : Type} : M A := fun w => Ret w.

Definition lift {A : Type} (o : option A) : M A :=
  fun w => match o with Some a => Val a w | None => UB end.

(** A call of a [void] function: its [return] ends the call only. *)
Definition call (m : M unit) : M unit :=
  fun w =>
    match m w with
    | Val _ w' => Val tt w'
    | Ret w' => Val tt w'
    | UB => UB
    end.

(** The world in which a call that starts in [w] ends. *)
Definition run (m : M unit) (w : world) : option world :=
  match m w with
  | Val _ w' => Some w'
  | Ret w' => Some w'
  | UB => None
  end.

Declare Scope io_scope.
Delimit Scope io_scope with io.
Notation "x <- m ;; k" := (bind m (fun x => k))
  (at level 61, m at next level, right associativity) : io_scope.
Notation "m ;;; k" := (bind m (fun _ => k))
  (at level 61, right associativity) : io_scope.
Open Scope io_scope.

Fixpoint forM_iter {S : Type} (n : nat) (i : Z) (body : Z -> S -> M S)
  (s : S) : M S :=
  match n with
  | O => ret s
  | Datatypes.S n' => s' <- body i s ;; forM_iter n' (i + 1) body s'
  end.

(** [for (int i = lo; i < hi; i++) body], the body with local state [S]. *)
Definition forM {S : Type} (lo hi : Z) (body : Z -> S -> M S) (s : S) : M S :=
  forM_iter (Z.to_nat (hi - lo)) lo body s.

Definition emit (e : event) : M unit :=
  fun w => Val tt {| log := e :: log w; live := live w; next_id := next_id w;
                     now := now w; h_out := h_out w |}.

Definition alloc (r : resource) : M nat :=
  fun w => Val (next_id w)
             {| log := EvAlloc (next_id w) r :: log w;
                live := (next_id w, r) :: live w;
                next_id := S (next_id w); now := now w; h_out := h_out w |}.

(** A release takes the object out of the live ones. *)
Definition release (id : nat) : M unit :=
  fun w =>
    Val tt {| log := EvFree id :: log w;
              live := filter (fun p => negb (Nat.eqb (fst p) id)) (live w);
              next_id := next_id w; now := now w; h_out := h_out w |}.

Definition query {A : Type} (f : nat -> A) : M A :=
  fun w => Val (f (now w))
             {| log := log w; live := live w; next_id := next_id w;
                now := S (now w); h_out := h_out w |}.

Definition set_h_out (a : list float) : M unit :=
  fun w => Val tt {| log := log w; live := live w; next_id := next_id w;
                     now := now w; h_out := a |}.

Definition get_h_out : M (list float) := fun w => Val (h_out w) w.

Definition CL_SUCCESS : Z := 0.
Definition sizeof_float : Z := 4.
Definition sizeof_int : Z := 4.

Definition cout (s : string) : M unit := emit (EvPrint s).

Definition dec (z : Z) : string :=
  DecimalString.NilZero.string_of_int (Z.to_int z).

Section Benchmark.

(** [PAD_FACTOR], [BLOCK_SIZE] and [VECTOR_SIZE] are constants of Spmv.h,
    which is not among the sources. *)
Variables PAD_FACTOR BLOCK_SIZE VECTOR_SIZE : Z.

(** The device, the timers and the options. *)
Variable B : backend.

(** [convertToColMajor] and [convertToPadded] are defined in Spmv.h; the
    second one returns the padded values, columns and row delimiters and
    the padded number of entries. *)
Variable toColMajor : convertToColMajor_t.
Variable convertToPadded :
  list float -> list Z -> Z -> list Z -> list float * list Z * list Z * Z.

Definition clCreateProgramWithSource : M nat := alloc Program.

Definition clBuildProgram (flags : string) : M Z :=
  err <- query (build_status B) ;;
  emit (EvBuild flags err) ;;;
  ret err.

Definition clCreateBuffer (var : string) (bytes : Z) : M nat :=
  alloc (Buffer var bytes).

Definition clCreateImage2D (var : string) (width height : Z) : M nat :=
  alloc (Image2D var width height).

Definition clCreateKernel (k : kernel_id) : M nat := alloc (Kernel k).

Definition clSetKernelArg (k : kernel_id) (index : Z) (a : kernel_arg)
  : M unit := emit (EvSetArg k index a).

(** [clEnqueueWriteBuffer(queue, var, true, 0, bytes, host, ...)]: the
    event of the transfer.  The call reads [bytes] bytes of the host array;
    that the array holds them is not looked at here, it is a precondition
    of the theorems on the runs ([csrTest_pre], [ellPackTest_pre],
    [RunTest_pre]). *)
Definition clEnqueueWriteBuffer (var : string) (bytes : Z) : M unit :=
  emit (EvWrite var bytes).

(** [clEnqueueWriteImage(queue, var, true, offset, size, 0, 0, h_vec, ...)]
    with [size = {width, height, 1}]: the event of the transfer.  The call
    reads [width * height] floats of [h_vec]; that [h_vec] holds them is a
    precondition of the theorems on the runs ([image_fits]). *)
Definition clEnqueueWriteImage (var : string) (width height : Z) : M unit :=
  emit (EvWriteImage var width height).

Definition clEnqueueNDRangeKernel (k : kernel_id)
  (globalWorkSize localWorkSize : Z) : M unit :=
  emit (EvDispatch k globalWorkSize localWorkSize).

(** The blocking wait; nothing of the host state changes. *)
Definition clFinish : M unit := ret tt.

(** [dst] after [n] elements of [src] were copied to its front. *)
Definition read_into (dst src : list float) (n : Z) : list float :=
  firstn (Z.to_nat n) src ++ skipn (Z.to_nat n) dst.

(** [clEnqueueReadBuffer(queue, d_out, true, 0, bytes, h_out, ...)].  The
    call writes [bytes] bytes to [h_out]; that [h_out] has room for them
    is a precondition of the theorems on the runs, under which
    [read_into] keeps the length of [h_out]. *)
Definition clEnqueueReadBuffer (var : string) (bytes : Z) : M unit :=
  emit (EvRead var bytes) ;;;
  data <- query (device_out B) ;;
  h <- get_h_out ;;
  set_h_out (read_into h data (bytes / sizeof_float)).

(** [Event::StartEndRuntime()], the time the backend measured; also the
    value of [double oTransferTime = outTransfer.FillTimingInfo()]. *)
Definition StartEndRuntime : M double := query (elapsed B).

Definition getMaxWorkGroupSize : M Z := query (max_work_group_size B).

Definition AddResult (k : kernel_id) (pass : Z) (name atts units : string)
  (value : double) : M unit := emit (EvAddResult k pass name atts units value).

(** The call [verifyResults(refOut, h_out, size, pass)]. *)
Definition verify (k : kernel_id) (refOut : list float) (size pass : Z)
  : M bool :=
  h <- get_h_out ;;
  passed <- lift (verifyResults refOut h size pass) ;;
  emit (EvVerify k size pass passed) ;;;
  ret passed.

(** [sprintf(texflags," -DUSE_TEXTURE -DMAX_IMG_WIDTH=%ld", maxImgWidth)]. *)
Definition texflags (maxImgWidth : Z) : string :=
  (" -DUSE_TEXTURE -DMAX_IMG_WIDTH=" ++ dec maxImgWidth)%string.

(** [sprintf(atts, "%d_elements_%d_rows", elements, rows)]. *)
Definition atts_of (elements rows : Z) : string :=
  (dec elements ++ "_elements_" ++ dec rows ++ "_rows")%string.

(** [imgHeight=(numRows+maxImgWidth-1)/maxImgWidth]. *)
Definition imgHeight_of (numRows maxImgWidth : Z) : option Z :=
  if maxImgWidth =? 0 then None
  else Some ((numRows + maxImgWidth - 1) / maxImgWidth).

(**
<<
    localWorkSize = VECTOR_SIZE;
    while (localWorkSize+VECTOR_SIZE <= maxLocal &&
        localWorkSize+VECTOR_SIZE <= BLOCK_SIZE)
       localWorkSize += VECTOR_SIZE;
>>
    [None] when the loop has not ended after [fuel] tests. *)
Fixpoint grow_localWorkSize (fuel : nat) (localWorkSize maxLocal : Z)
  : option Z :=
  match fuel with
  | O => None
  | S fuel' =>
      if (localWorkSize + VECTOR_SIZE <=? maxLocal)
         && (localWorkSize + VECTOR_SIZE <=? BLOCK_SIZE)
      then grow_localWorkSize fuel' (localWorkSize + VECTOR_SIZE) maxLocal
      else Some localWorkSize
  end.

(** The eight releases at the two regular ends of csrTest. *)
Definition csr_release (d_rowDelimiters d_vec d_out d_val d_cols csrScalar
  csrVector prog : nat) : M unit :=
  release d_rowDelimiters ;;;
  release d_vec ;;;
  release d_out ;;;
  release d_val ;;;
  release d_cols ;;;
  release csrScalar ;;;
  release csrVector ;;;
  release prog.

Definition csrTest (compileFlags : string) (h_val : list float)
  (h_cols h_rowDelimiters : list Z) (h_vec : list float)
  (numRows numNonZeroes : Z) (refOut : list float) (padded : bool)
  (maxImgWidth : Z) (devSupportsImages : bool) : M unit :=
  let compileFlags :=
    if devSupportsImages
    then (compileFlags ++ texflags maxImgWidth)%string
    else compileFlags in
  prog <- clCreateProgramWithSource ;;
  err <- clBuildProgram compileFlags ;;
  (if negb (err =? CL_SUCCESS)
   then cout "Retsize: " ;;; cout "Log: " ;;; Return
   else ret tt) ;;;
  d_val <- clCreateBuffer "d_val" (numNonZeroes * sizeof_float) ;;
  d_cols <- clCreateBuffer "d_cols" (numNonZeroes * sizeof_int) ;;
  imgHeight <- (if devSupportsImages
                then lift (imgHeight_of numRows maxImgWidth)
                else ret 0) ;;
  d_vec <- (if devSupportsImages
            then clCreateImage2D "d_vec" maxImgWidth imgHeight
            else clCreateBuffer "d_vec" (numRows * sizeof_float)) ;;
  d_out <- clCreateBuffer "d_out" (numRows * sizeof_float) ;;
  d_rowDelimiters <-
    clCreateBuffer "d_rowDelimiters" ((numRows + 1) * sizeof_int) ;;
  clEnqueueWriteBuffer "d_val" (numNonZeroes * sizeof_float) ;;;
  clEnqueueWriteBuffer "d_cols" (numNonZeroes * sizeof_int) ;;;
  (if devSupportsImages
   then clEnqueueWriteImage "d_vec" maxImgWidth imgHeight
   else clEnqueueWriteBuffer "d_vec" (numRows * sizeof_float)) ;;;
  clEnqueueWriteBuffer "d_rowDelimiters" ((numRows + 1) * sizeof_int) ;;;
  clFinish ;;;
  tVal <- StartEndRuntime ;;
  tCols <- StartEndRuntime ;;
  tVec <- StartEndRuntime ;;
  tRow <- StartEndRuntime ;;
  let iTransferTime := F64.add (F64.add (F64.add tVal tCols) tVec) tRow in
  let passes := opt_passes B in
  let iters := opt_iterations B in
  let atts := atts_of numNonZeroes numRows in
  let prefix := (if padded then "Padded_" else EmptyString)%string in
  let gflop := F64.mul (F64.of_Z 2) (F64.of_Z numNonZeroes) in
  cout "CSR Scalar Kernel" ;;;
  csrScalar <- clCreateKernel CsrScalar ;;
  clSetKernelArg CsrScalar 0 (ArgMem "d_val") ;;;
  clSetKernelArg CsrScalar 1 (ArgMem "d_vec") ;;;
  clSetKernelArg CsrScalar 2 (ArgMem "d_cols") ;;;
  clSetKernelArg CsrScalar 3 (ArgMem "d_rowDelimiters") ;;;
  clSetKernelArg CsrScalar 4 (ArgInt numRows) ;;;
  clSetKernelArg CsrScalar 5 (ArgMem "d_out") ;;;
  csrVector <- clCreateKernel CsrVector ;;
  clSetKernelArg CsrVector 0 (ArgMem "d_val") ;;;
  clSetKernelArg CsrVector 1 (ArgMem "d_vec") ;;;
  clSetKernelArg CsrVector 2 (ArgMem "d_cols") ;;;
  clSetKernelArg CsrVector 3 (ArgMem "d_rowDelimiters") ;;;
  clSetKernelArg CsrVector 4 (ArgInt numRows) ;;;
  clSetKernelArg CsrVector 5 (ArgMem "d_out") ;;;
  let suffix := "-SP"%string in
  let scalarGlobalWSize := numRows in
  let localWorkSize := BLOCK_SIZE in
  forM 0 passes
    (fun k _ =>
       scalarKernelTime <-
         forM 0 iters
           (fun j scalarKernelTime =>
              clEnqueueNDRangeKernel CsrScalar scalarGlobalWSize
                localWorkSize ;;;
              clFinish ;;;
              t <- StartEndRuntime ;;
              ret (F64.add scalarKernelTime t))
           (F64.of_Z 0) ;;
       clEnqueueReadBuffer "d_out" (numRows * sizeof_float) ;;;
       clFinish ;;;
       oTransferTime <- StartEndRuntime ;;
       passed <- verify CsrScalar refOut numRows k ;;
       (if negb passed then Return else ret tt) ;;;
       let scalarKernelTime :=
         F64.div scalarKernelTime (F64.of_Z iters) in
       let testName := (prefix ++ "CSR-Scalar" ++ suffix)%string in
       let totalTransfer := F64.add iTransferTime oTransferTime in
       AddResult CsrScalar k testName atts "Gflop/s"
         (F64.div gflop scalarKernelTime) ;;;
       AddResult CsrScalar k (testName ++ "_PCIe")%string atts "Gflop/s"
         (F64.div gflop (F64.add scalarKernelTime totalTransfer)))
    tt ;;;
  clEnqueueWriteBuffer "d_out" (numRows * sizeof_float) ;;;
  cout "CSR Vector Kernel" ;;;
  maxLocal <- getMaxWorkGroupSize ;;
  (if maxLocal <? 32
   then cout "Warning: CSRVector requires a work group size >= 32" ;;;
        cout "Skipping this kernel." ;;;
        csr_release d_rowDelimiters d_vec d_out d_val d_cols csrScalar
          csrVector prog ;;;
        Return
   else ret tt) ;;;
  localWorkSize <-
    lift (grow_localWorkSize (S (Z.to_nat BLOCK_SIZE)) VECTOR_SIZE maxLocal) ;;
  let vectorGlobalWSize := numRows * VECTOR_SIZE in
  forM 0 passes
    (fun k _ =>
       vectorKernelTime <-
         forM 0 iters
           (fun j vectorKernelTime =>
              clEnqueueNDRangeKernel CsrVector vectorGlobalWSize
                localWorkSize ;;;
              clFinish ;;;
              t <- StartEndRuntime ;;
              ret (F64.add vectorKernelTime t))
           (F64.of_Z 0) ;;
       clEnqueueReadBuffer "d_out" (numRows * sizeof_float) ;;;
       clFinish ;;;
       oTransferTime <- StartEndRuntime ;;
       passed <- verify CsrVector refOut numRows k ;;
       (if negb passed then Return else ret tt) ;;;
       let vectorKernelTime :=
         F64.div vectorKernelTime (F64.of_Z iters) in
       let testName := (prefix ++ "CSR-Vector" ++ suffix)%string in
       let totalTransfer := F64.add iTransferTime oTransferTime in
       AddResult CsrVector k testName atts "Gflop/s"
         (F64.div gflop vectorKernelTime) ;;;
       AddResult CsrVector k (testName ++ "_PCIe")%string atts "Gflop/s"
         (F64.div gflop (F64.add vectorKernelTime totalTransfer)))
    tt ;;;
  csr_release d_rowDelimiters d_vec d_out d_val d_cols csrScalar csrVector
    prog.

(** Modelled, not from the sources: [CL_CHECK_ERROR] is a macro of the
    support headers, which are not among the sources.  With [CL_SUCCESS]
    it does nothing.  What it does with another status is not known (the
    comment at the build in csrTest says that a failing check does not
    get to the build log); the message and the going on written here are
    an assumption.  Every OpenCL call of the model but [clBuildProgram]
    succeeds, so only the check after the build in ellPackTest can meet
    another status, and the theorems on ellPackTest and on RunTest take
    that build to succeed ([ellPackTest_pre], [RunTest_pre]): none of them
    rests on the assumption.  The same holds for the exit of ellPackTest
    at a failed build, which asks for 50000 bytes of log in [log[5000]]. *)
Definition CL_CHECK_ERROR (err : Z) : M unit :=
  if negb (err =? CL_SUCCESS) then cout ("OpenCL error " ++ dec err)
  else ret tt.

Definition ellPackTest (compileFlags : string) (h_val : list float)
  (h_cols h_rowDelimiters : list Z) (h_vec : list float)
  (numRows numNonZeroes : Z) (refOut : list float) (padded : bool)
  (paddedSize maxImgWidth : Z) (devSupportsImages : bool) : M unit :=
  let compileFlags :=
    if devSupportsImages
    then (compileFlags ++ texflags maxImgWidth)%string
    else compileFlags in
  prog <- clCreateProgramWithSource ;;
  err <- clBuildProgram compileFlags ;;
  CL_CHECK_ERROR err ;;;
  (if negb (err =? CL_SUCCESS)
   then cout "Retsize: " ;;; cout "Log: " ;;; Return
   else ret tt) ;;;
  h_rowLengths <- alloc (HostArray "h_rowLengths" paddedSize) ;;
  E <- lift (ellPack_setup toColMajor h_val h_cols h_rowDelimiters numRows
               padded paddedSize) ;;
  let maxrl := maxrl E in
  let cmSize := cmSize E in
  h_valcm <- alloc (HostArray "h_valcm" (int_mul maxrl cmSize)) ;;
  h_colscm <- alloc (HostArray "h_colscm" (int_mul maxrl cmSize)) ;;
  d_val <- clCreateBuffer "d_val" (int_mul maxrl cmSize * sizeof_float) ;;
  d_cols <- clCreateBuffer "d_cols" (int_mul maxrl cmSize * sizeof_int) ;;
  imgHeight <- (if devSupportsImages
                then lift (imgHeight_of numRows maxImgWidth)
                else ret 0) ;;
  d_vec <- (if devSupportsImages
            then clCreateImage2D "d_vec" maxImgWidth imgHeight
            else clCreateBuffer "d_vec" (numRows * sizeof_float)) ;;
  d_out <- clCreateBuffer "d_out" (paddedSize * sizeof_float) ;;
  d_rowLengths <- clCreateBuffer "d_rowLengths" (cmSize * sizeof_int) ;;
  clEnqueueWriteBuffer "d_val" (int_mul maxrl cmSize * sizeof_float) ;;;
  clEnqueueWriteBuffer "d_cols" (int_mul maxrl cmSize * sizeof_int) ;;;
  (if devSupportsImages
   then clEnqueueWriteImage "d_vec" maxImgWidth imgHeight
   else clEnqueueWriteBuffer "d_vec" (numRows * sizeof_float)) ;;;
  clEnqueueWriteBuffer "d_rowLengths" (cmSize * sizeof_int) ;;;
  clFinish ;;;
  tVal <- StartEndRuntime ;;
  tCols <- StartEndRuntime ;;
  tVec <- StartEndRuntime ;;
  tRow <- StartEndRuntime ;;
  let iTransferTime := F64.add (F64.add (F64.add tVal tCols) tVec) tRow in
  ellpackr <- clCreateKernel Ellpackr ;;
  clSetKernelArg Ellpackr 0 (ArgMem "d_val") ;;;
  clSetKernelArg Ellpackr 1 (ArgMem "d_vec") ;;;
  clSetKernelArg Ellpackr 2 (ArgMem "d_cols") ;;;
  clSetKernelArg Ellpackr 3 (ArgMem "d_rowLengths") ;;;
  clSetKernelArg Ellpackr 4 (ArgInt cmSize) ;;;
  clSetKernelArg Ellpackr 5 (ArgMem "d_out") ;;;
  let globalWorkSize := cmSize in
  let localWorkSize := BLOCK_SIZE in
  let passes := opt_passes B in
  let iters := opt_iterations B in
  forM 0 passes
    (fun k _ =>
       totalKernelTime <-
         forM 0 iters
           (fun j totalKernelTime =>
              clEnqueueNDRangeKernel Ellpackr globalWorkSize
                localWorkSize ;;;
              clFinish ;;;
              t <- StartEndRuntime ;;
              ret (F64.add totalKernelTime t))
           (F64.of_Z 0) ;;
       clEnqueueReadBuffer "d_out" (numRows * sizeof_float) ;;;
       clFinish ;;;
       oTransferTime <- StartEndRuntime ;;
       passed <- verify Ellpackr refOut numRows k ;;
       (if negb passed then Return else ret tt) ;;;
       let avgTime := F64.div totalKernelTime (F64.of_Z iters) in
       let atts := atts_of numNonZeroes cmSize in
       let gflop := F64.mul (F64.of_Z 2) (F64.of_Z numNonZeroes) in
       let prefix := (if padded then "Padded_" else EmptyString)%string in
       let benchName := (prefix ++ "ELLPACKR-" ++ "SP")%string in
       AddResult Ellpackr k benchName atts "Gflop/s"
         (F64.div gflop avgTime) ;;;
       (* [sprintf(benchName, "%s_PCIe", benchName)]: source and
           destination overlap; the name is the one the backend gives. *)
       AddResult Ellpackr k (benchName_PCIe B benchName) atts "Gflop/s"
         (F64.div gflop
            (F64.add (F64.add avgTime iTransferTime) oTransferTime)))
    tt ;;;
  release prog ;;;
  release ellpackr ;;;
  release d_rowLengths ;;;
  release d_vec ;;;
  release d_out ;;;
  release d_val ;;;
  release d_cols ;;;
  (* [delete[] h_rowLengths, h_valcm, h_colscm;]: the operand of
      [delete[]] is [h_rowLengths]; the comma operator then evaluates
      the two other pointers and drops them. *)
  release h_rowLengths.

(** RunTest, from the point where the matrix (from [initRandomMatrix] or
    [readMatrix]) and the vector (from [fill]) are there; these three
    functions are not among the sources and their results are the
    arguments.  [convertToPadded] hands back two arrays it has allocated,
    taken here to have [nItemsPadded] elements each.  The cells of [refOut] are all written by [spmvCpu] and
    the cells of [h_out] that [verifyResults] reads are written by the
    read-back before, so what they hold after [new] does not matter: it
    is zero here. *)
Definition RunTest (compileFlags : string) (h_val : list float)
  (h_cols h_rowDelimiters : list Z) (nItems numRows : Z)
  (h_vec : list float) : M unit :=
  deviceSupportsImages <- query (image_support B) ;;
  maxImgWidth <- query (image2d_max_width B) ;;
  samplerErr <- query (sampler_status B) ;;
  deviceSupportsImages <-
    (if negb (samplerErr =? CL_SUCCESS)
     then cout "Warning: Device does not support required sampler type" ;;;
          cout " falling back to global memory" ;;;
          ret false
     else ret deviceSupportsImages) ;;
  p_val <- alloc (HostArray "h_val" nItems) ;;
  p_cols <- alloc (HostArray "h_cols" nItems) ;;
  p_rowDelimiters <- alloc (HostArray "h_rowDelimiters" (numRows + 1)) ;;
  imgHeight <- lift (imgHeight_of numRows maxImgWidth) ;;
  imageErr <- query (image_check_status B) ;;
  deviceSupportsImages <-
    (if negb (imageErr =? CL_SUCCESS)
     then ret false
     else d_vec <- clCreateImage2D "d_vec" maxImgWidth imgHeight ;;
          release d_vec ;;;
          ret deviceSupportsImages) ;;
  p_vec <- alloc (HostArray "h_vec" numRows) ;;
  p_refOut <- alloc (HostArray "refOut" numRows) ;;
  p_rowDelimitersPad <- alloc (HostArray "h_rowDelimitersPad" (numRows + 1)) ;;
  let paddedSize := paddedSize PAD_FACTOR numRows in
  p_out <- alloc (HostArray "h_out" paddedSize) ;;
  set_h_out (repeat F32.zero (Z.to_nat paddedSize)) ;;;
  let pad := convertToPadded h_val h_cols numRows h_rowDelimiters in
  let h_valPad := fst (fst (fst pad)) in
  let h_colsPad := snd (fst (fst pad)) in
  let h_rowDelimitersPad := snd (fst pad) in
  let nItemsPadded := snd pad in
  p_valPad <- alloc (HostArray "h_valPad" nItemsPadded) ;;
  p_colsPad <- alloc (HostArray "h_colsPad" nItemsPadded) ;;
  refOut <- lift (spmvCpu h_val h_cols h_rowDelimiters h_vec numRows
                    (repeat F32.zero (Z.to_nat numRows))) ;;
  (if deviceSupportsImages
   then
     cout "CSR Test" ;;;
     call (csrTest compileFlags h_val h_cols h_rowDelimiters h_vec numRows
             nItems refOut false maxImgWidth true) ;;;
     cout "CSR Test -- Padded Data" ;;;
     call (csrTest compileFlags h_valPad h_colsPad h_rowDelimitersPad h_vec
             numRows nItemsPadded refOut true maxImgWidth true) ;;;
     cout "ELLPACKR Test" ;;;
     call (ellPackTest compileFlags h_val h_cols h_rowDelimiters h_vec
             numRows nItems refOut false paddedSize maxImgWidth true)
   else
     cout "CSR Test" ;;;
     call (csrTest compileFlags h_val h_cols h_rowDelimiters h_vec numRows
             nItems refOut false 0 false) ;;;
     cout "CSR Test -- Padded Data" ;;;
     call (csrTest compileFlags h_valPad h_colsPad h_rowDelimitersPad h_vec
             numRows nItemsPadded refOut true 0 false) ;;;
     cout "ELLPACKR Test" ;;;
     call (ellPackTest compileFlags h_val h_cols h_rowDelimiters h_vec
             numRows nItems refOut false paddedSize 0 false)) ;;;
  (* [delete[] h_val, h_cols, h_rowDelimiters, h_vec, h_out;] and
      [delete[] h_valPad, h_colsPad, h_rowDelimitersPad;]: each deletes
      its first operand. *)
  release p_val ;;;
  release p_valPad.

End Benchmark.

(** The state before the benchmark starts. *)
Definition world0 : world :=
  {| log := []; live := []; next_id := 0%nat; now := 0%nat; h_out := [] |}.

(** ** What the specification says, as definitions *)

Open Scope opt_scope.

(** The CSR invariant of the data model: [rowOffsets] has [numRows+1]
    entries, starts at 0, ends at the number of entries and does not
    decrease; every column index is below [numCols]. *)
Record csr_invariant (val : list float) (cols rowOffsets : list Z)
  (numRows numCols : Z) : Prop := {
  csr_rows : 0 <= numRows;
  csr_offsets_length : Z.of_nat (length rowOffsets) = numRows + 1;
  csr_cols_length : length cols = length val;
  csr_first : load rowOffsets 0 = Some 0;
  csr_last : load rowOffsets numRows = Some (Z.of_nat (length val));
  csr_mono : forall i a b, 0 <= i < numRows ->
    load rowOffsets i = Some a -> load rowOffsets (i + 1) = Some b -> a <= b;
  csr_cols_valid : forall c, In c cols -> 0 <= c < numCols
}.

(** [a[i]] for an index known to be in range. *)
Definition at_ (a : list Z) (i : Z) : Z := nth (Z.to_nat i) a 0.

(** [a[i]] for a vector of floats. *)
Definition fat (a : list float) (i : Z) : float := nth (Z.to_nat i) a F32.zero.

(** The sum over j in [lo, hi) of values[j] * vec[columnIndices[j]],
    accumulated from 0 in ascending order of j. *)
Definition row_sum (val : list float) (cols : list Z) (vec : list float)
  (lo hi : Z) : float :=
  fold_left
    (fun t j => F32.add t (F32.mul (nth j val F32.zero)
                             (nth (Z.to_nat (nth j cols 0)) vec F32.zero)))
    (seq (Z.to_nat lo) (Z.to_nat (hi - lo)))
    F32.zero.

(** The number of entries of row [i]. *)
Definition row_length (rowOffsets : list Z) (i : Z) : Z :=
  at_ rowOffsets (i + 1) - at_ rowOffsets i.

(** The slot [k] of row [r] of the two column-major arrays [cm], of row
    stride [stride], holds the value 0 and the column index 0. *)
Definition zero_slot (stride : Z)
  (cm : list (option float) * list (option Z)) (r k : Z) : Prop :=
  load (fst cm) (linearIndex r k stride) = Some (Some F32.zero) /\
  load (snd cm) (linearIndex r k stride) = Some (Some 0).

(** |reference - candidate| / |reference|. *)
Definition spec_relative_error (reference candidate : float) : double :=
  F64.div (F64.fabs (F64.of_float (F32.sub reference candidate)))
          (F64.fabs (F64.of_float reference)).

Definition spec_exceeds (tol : double) (reference candidate : float) : bool :=
  F64.gt (spec_relative_error reference candidate) tol.

(** The sign bit; a NaN has none here. *)
Definition sign_bit (x : spec_float) : bool :=
  match x with
  | S754_zero s | S754_infinity s | S754_finite s _ _ => s
  | S754_nan => false
  end.

Definition is_zero (x : spec_float) : bool :=
  match x with S754_zero _ => true | _ => false end.

Definition is_nan (x : spec_float) : bool :=
  match x with S754_nan => true | _ => false end.

(** ** Reasoning about runs

    [wp m Q R w]: started in [w], [m] has a defined behaviour, and it
    falls through into a world with [Q] or returns in a world with [R]. *)

Definition wp {A : Type} (m : M A) (Q : A -> world -> Prop)
  (R : world -> Prop) (w : world) : Prop :=
  match m w with
  | Val a w' => Q a w'
  | Ret w' => R w'
  | UB => False
  end.

(** No verification in [l] has failed. *)
Definition no_failed (l : list event) : Prop :=
  forall k size pass, ~ In (EvVerify k size pass false) l.

(** Every result in [l] of the loop of kernel [k] is of a pass below
    [b k]. *)
Definition results_below (b : kernel_id -> Z) (l : list event) : Prop :=
  forall k pass name atts units value,
    In (EvAddResult k pass name atts units value) l -> pass < b k.

(** The events [l] of a test function begin with the creation and the
    build of its program: the function was entered. *)
Definition started (l : list event) : Prop :=
  exists l' flags err id, l = l' ++ [EvBuild flags err; EvAlloc id Program].

(** Fail fast: a failed verification of pass [pass] of the loop of kernel
    [k] is the last event of the test function, and before it no result of
    that loop was recorded for the pass [pass] or a later one. *)
Definition fail_fast (l : list event) : Prop :=
  forall l2 k size pass l1,
    l = l2 ++ EvVerify k size pass false :: l1 ->
    l2 = [] /\
    forall pass' name atts units value,
      In (EvAddResult k pass' name atts units value) l1 -> pass' < pass.

(** The events of a test function while it runs. *)
Definition running (phi : event -> Prop) (b : kernel_id -> Z)
  (l : list event) : Prop :=
  no_failed l /\ Forall phi l /\ started l /\ results_below b l.

(** The events of a test function that has ended. *)
Definition ended (phi : event -> Prop) (l : list event) : Prop :=
  fail_fast l /\ Forall phi l /\ started l.

(** An event that is neither a failed verification nor a result. *)
Definition plain (e : event) : Prop :=
  match e with
  | EvVerify _ _ _ false => False
  | EvAddResult _ _ _ _ _ _ => False
  | _ => True
  end.

(** The world [w] is the world [w0] after the events [l] with [psi], and
    its output vector has [H]. *)
Definition after (w0 : world) (psi : list event -> Prop)
  (H : list float -> Prop) (w : world) : Prop :=
  exists l, log w = l ++ log w0 /\ psi l /\ H (h_out w).

(** The sizes csrTest uses, for a matrix of [numRows] rows and [nnz]
    entries: bytes of a buffer by the name of its variable. *)
Definition csr_buffer_bytes (numRows nnz : Z) (var : string) : Z :=
  if String.eqb var "d_val" then nnz * sizeof_float
  else if String.eqb var "d_cols" then nnz * sizeof_int
  else if String.eqb var "d_rowDelimiters" then (numRows + 1) * sizeof_int
  else numRows * sizeof_float.

Definition csr_sizes (VECTOR_SIZE numRows nnz : Z) (e : event) : Prop :=
  match e with
  | EvAlloc _ (Buffer var bytes) => bytes = csr_buffer_bytes numRows nnz var
  | EvWrite var bytes => bytes = csr_buffer_bytes numRows nnz var
  | EvSetArg _ _ (ArgInt n) => n = numRows
  | EvDispatch CsrScalar g _ => g = numRows
  | EvDispatch CsrVector g _ => g = numRows * VECTOR_SIZE
  | EvDispatch Ellpackr _ _ => False
  | EvRead var bytes => var = "d_out"%string /\ bytes = numRows * sizeof_float
  | EvVerify _ size _ _ => size = numRows
  | EvAddResult _ _ _ atts _ _ =>
      atts = (dec nnz ++ "_elements_" ++ dec numRows ++ "_rows")%string
  | _ => True
  end.

Definition kernel_eqb (a b : kernel_id) : bool :=
  match a, b with
  | CsrScalar, CsrScalar | CsrVector, CsrVector | Ellpackr, Ellpackr => true
  | _, _ => false
  end.

(** The bound [base] on the passes with a result, with [pass] for the
    loop of kernel [k0]. *)
Definition bound_at (k0 : kernel_id) (pass : Z) (base : kernel_id -> Z)
  (k : kernel_id) : Z :=
  if kernel_eqb k k0 then pass else base k.

(** The sizes ellPackTest uses for the read-back and the verification. *)
Definition ell_sizes (numRows : Z) (e : event) : Prop :=
  match e with
  | EvDispatch CsrScalar _ _ | EvDispatch CsrVector _ _ => False
  | EvRead var bytes => var = "d_out"%string /\ bytes = numRows * sizeof_float
  | EvVerify _ size _ _ => size = numRows
  | _ => True
  end.

(** The events of RunTest: what comes before the tests with [pre], the
    three tests, each behind the line that announces it, and what comes
    after them. *)
Definition run_shape (phi_csr phi_pad phi_ell : event -> Prop)
  (pre : list event -> Prop) (l : list event) : Prop :=
  exists l_post l_ell l_pad l_csr l_pre,
    l = l_post ++ l_ell ++ EvPrint "ELLPACKR Test" ::
        l_pad ++ EvPrint "CSR Test -- Padded Data" ::
        l_csr ++ EvPrint "CSR Test" :: l_pre /\
    ended phi_csr l_csr /\ ended phi_pad l_pad /\ ended phi_ell l_ell /\
    pre l_pre.

(** [h_rowDelimitersPad = new int[n]] is among the events. *)
Definition allocates_rowDelimitersPad (n : Z) (l : list event) : Prop :=
  exists id, In (EvAlloc id (HostArray "h_rowDelimitersPad" n)) l.

(** ** verifyResults: the entries it does not flag *)

Definition is_infinity (x : spec_float) : bool :=
  match x with S754_infinity _ => true | _ => false end.

(** The entries [verifyResults] can not flag: the reference is negative
    (its sign bit is set), infinite or a NaN, or the candidate is a NaN. *)
Definition unchecked (cpu gpu : float) : bool :=
  sign_bit cpu || is_nan cpu || is_infinity cpu || is_nan gpu.

(** ** The events of a loop of passes

    One pass of a loop of passes: the dispatches of the kernel, the
    read-back, the verification and, when it passed, the results; most
    recent event first. *)
Definition pass_events (k : kernel_id) (globalWorkSize localWorkSize : Z)
  (iters numRows pass : Z) (passed : bool) (results : list event)
  : list event :=
  (if passed then results else []) ++
  EvVerify k numRows pass passed ::
  EvRead "d_out" (numRows * sizeof_float) ::
  repeat (EvDispatch k globalWorkSize localWorkSize) (Z.to_nat iters).

(** The events of the passes [0], ..., [n-1], all verified, and then,
    when [failed] is set, of the pass [n] whose verification failed.
    [results pass t o] are the results of a pass whose dispatches took the
    time [t] and whose read-back took [o]; with no dispatch [t] is 0. *)
Inductive passes_trace (k : kernel_id) (globalWorkSize localWorkSize : Z)
  (iters numRows : Z) (results : Z -> double -> double -> list event)
  : Z -> bool -> list event -> Prop :=
| trace_start :
    passes_trace k globalWorkSize localWorkSize iters numRows results
      0 false []
| trace_pass (n : Z) (l : list event) (t o : double) :
    passes_trace k globalWorkSize localWorkSize iters numRows results
      n false l ->
    (iters <= 0 -> t = F64.of_Z 0) ->
    passes_trace k globalWorkSize localWorkSize iters numRows results
      (n + 1) false
      (pass_events k globalWorkSize localWorkSize iters numRows n true
         (results n t o) ++ l)
| trace_fail (n : Z) (l : list event) :
    passes_trace k globalWorkSize localWorkSize iters numRows results
      n false l ->
    passes_trace k globalWorkSize localWorkSize iters numRows results
      n true
      (pass_events k globalWorkSize localWorkSize iters numRows n false []
         ++ l).

(** The two results of a verified pass. *)
Definition pass_results (k : kernel_id) (name name' atts : string)
  (value value' : double -> double -> double) (pass : Z) (t o : double)
  : list event :=
  [EvAddResult k pass name' atts "Gflop/s" (value' t o);
   EvAddResult k pass name atts "Gflop/s" (value t o)].

(** The world [w'] is [w] after a loop of passes: the same objects, and
    the events of the loop on top of the log. *)
Definition loop_rel (iters numRows : Z) (k : kernel_id)
  (globalWorkSize localWorkSize : Z)
  (results : Z -> double -> double -> list event)
  (n : Z) (failed : bool) (w w' : world) : Prop :=
  live w' = live w /\ next_id w' = next_id w /\
  exists l,
    log w' = l ++ log w /\
    passes_trace k globalWorkSize localWorkSize iters numRows results
      n failed l.

(** Every live object of the world has an identifier below the next
    one. *)
Definition well_formed (w : world) : Prop :=
  forall p, In p (live w) -> (fst p < next_id w)%nat.

(** ** The ways csrTest ends *)

Section CsrEnd.

Variables BLOCK_SIZE VECTOR_SIZE : Z.
Variable B : backend.
Variables (compileFlags : string) (numRows numNonZeroes : Z) (padded : bool).
Variables (maxImgWidth : Z) (devSupportsImages : bool).

(** The flags the program is built with. *)
Definition test_flags : string :=
  if devSupportsImages
  then (compileFlags ++ texflags maxImgWidth)%string
  else compileFlags.

(** The device object that holds the vector. *)
Definition d_vec_object : resource :=
  if devSupportsImages
  then Image2D "d_vec" maxImgWidth
         ((numRows + maxImgWidth - 1) / maxImgWidth)
  else Buffer "d_vec" (numRows * sizeof_float).

Definition d_vec_write : event :=
  if devSupportsImages
  then EvWriteImage "d_vec" maxImgWidth
         ((numRows + maxImgWidth - 1) / maxImgWidth)
  else EvWrite "d_vec" (numRows * sizeof_float).

(** The eight objects csrTest creates, the first of them with the
    identifier [n]; most recent first. *)
Definition csr_objects (n : nat) : list (nat * resource) :=
  [((7 + n)%nat, Kernel CsrVector);
   ((6 + n)%nat, Kernel CsrScalar);
   ((5 + n)%nat, Buffer "d_rowDelimiters" ((numRows + 1) * sizeof_int));
   ((4 + n)%nat, Buffer "d_out" (numRows * sizeof_float));
   ((3 + n)%nat, d_vec_object);
   ((2 + n)%nat, Buffer "d_cols" (numNonZeroes * sizeof_int));
   ((1 + n)%nat, Buffer "d_val" (numNonZeroes * sizeof_float));
   (n, Program)].

Definition kernel_args (k : kernel_id) : list event :=
  [EvSetArg k 5 (ArgMem "d_out");
   EvSetArg k 4 (ArgInt numRows);
   EvSetArg k 3 (ArgMem "d_rowDelimiters");
   EvSetArg k 2 (ArgMem "d_cols");
   EvSetArg k 1 (ArgMem "d_vec");
   EvSetArg k 0 (ArgMem "d_val")].

(** The events of csrTest up to its first loop, the program built. *)
Definition csr_setup (n : nat) : list event :=
  kernel_args CsrVector ++
  EvAlloc (7 + n) (Kernel CsrVector) ::
  kernel_args CsrScalar ++
  [EvAlloc (6 + n) (Kernel CsrScalar);
   EvPrint "CSR Scalar Kernel";
   EvWrite "d_rowDelimiters" ((numRows + 1) * sizeof_int);
   d_vec_write;
   EvWrite "d_cols" (numNonZeroes * sizeof_int);
   EvWrite "d_val" (numNonZeroes * sizeof_float);
   EvAlloc (5 + n) (Buffer "d_rowDelimiters" ((numRows + 1) * sizeof_int));
   EvAlloc (4 + n) (Buffer "d_out" (numRows * sizeof_float));
   EvAlloc (3 + n) d_vec_object;
   EvAlloc (2 + n) (Buffer "d_cols" (numNonZeroes * sizeof_int));
   EvAlloc (1 + n) (Buffer "d_val" (numNonZeroes * sizeof_float));
   EvBuild test_flags CL_SUCCESS;
   EvAlloc n Program].

(** The events between the two loops. *)
Definition csr_between : list event :=
  [EvPrint "CSR Vector Kernel"; EvWrite "d_out" (numRows * sizeof_float)].

Definition csr_skip : list event :=
  [EvPrint "Skipping this kernel.";
   EvPrint "Warning: CSRVector requires a work group size >= 32"].

(** The eight releases. *)
Definition csr_frees (n : nat) : list event :=
  [EvFree n; EvFree (7 + n); EvFree (6 + n); EvFree (2 + n); EvFree (1 + n);
   EvFree (4 + n); EvFree (3 + n); EvFree (5 + n)].

(** The results of a verified pass of the loop of kernel [k]; [iT] is the
    time the transfers to the device took. *)
Definition csr_results (k : kernel_id) (iT : double)
  : Z -> double -> double -> list event :=
  let name :=
    ((if padded then "Padded_" else EmptyString) ++
     (match k with CsrVector => "CSR-Vector" | _ => "CSR-Scalar" end) ++
     "-SP")%string in
  let gflop := F64.mul (F64.of_Z 2) (F64.of_Z numNonZeroes) in
  pass_results k name (name ++ "_PCIe")%string
    (atts_of numNonZeroes numRows)
    (fun t o => F64.div gflop (F64.div t (F64.of_Z (opt_iterations B))))
    (fun t o =>
       F64.div gflop
         (F64.add (F64.div t (F64.of_Z (opt_iterations B)))
            (F64.add iT o))).

(** The local work size of the vector kernel. *)
Definition vector_localWorkSize (maxLocal : Z) : Z :=
  VECTOR_SIZE * Z.max 1 (Z.min maxLocal BLOCK_SIZE / VECTOR_SIZE).

Definition scalar_trace (iT : double) : Z -> bool -> list event -> Prop :=
  passes_trace CsrScalar numRows BLOCK_SIZE (opt_iterations B) numRows
    (csr_results CsrScalar iT).

Definition vector_trace (iT : double) (maxLocal : Z)
  : Z -> bool -> list event -> Prop :=
  passes_trace CsrVector (numRows * VECTOR_SIZE)
    (vector_localWorkSize maxLocal) (opt_iterations B) numRows
    (csr_results CsrVector iT).

(** The four ways in which csrTest ends once its program is built: at a
    failed verification of the scalar kernel, at a work group size below
    32, at a failed verification of the vector kernel, or at its end. *)
Inductive csr_end (w : world) : world -> Prop :=
| csr_scalar_failed (w' : world) (iT : double) (pass : Z) (l_s : list event) :
    0 <= pass < opt_passes B ->
    scalar_trace iT pass true l_s ->
    log w' = l_s ++ csr_setup (next_id w) ++ log w ->
    live w' = csr_objects (next_id w) ++ live w ->
    next_id w' = (8 + next_id w)%nat ->
    csr_end w w'
| csr_vector_skipped (w' : world) (iT : double) (maxLocal : Z)
    (l_s : list event) :
    scalar_trace iT (Z.max 0 (opt_passes B)) false l_s ->
    (exists t, maxLocal = max_work_group_size B t) ->
    maxLocal < 32 ->
    log w' = csr_frees (next_id w) ++ csr_skip ++ csr_between ++ l_s ++
             csr_setup (next_id w) ++ log w ->
    live w' = live w ->
    next_id w' = (8 + next_id w)%nat ->
    csr_end w w'
| csr_vector_failed (w' : world) (iT : double) (maxLocal pass : Z)
    (l_s l_v : list event) :
    scalar_trace iT (Z.max 0 (opt_passes B)) false l_s ->
    (exists t, maxLocal = max_work_group_size B t) ->
    32 <= maxLocal ->
    0 <= pass < opt_passes B ->
    vector_trace iT maxLocal pass true l_v ->
    log w' = l_v ++ csr_between ++ l_s ++ csr_setup (next_id w) ++ log w ->
    live w' = csr_objects (next_id w) ++ live w ->
    next_id w' = (8 + next_id w)%nat ->
    csr_end w w'
| csr_completed (w' : world) (iT : double) (maxLocal : Z)
    (l_s l_v : list event) :
    scalar_trace iT (Z.max 0 (opt_passes B)) false l_s ->
    (exists t, maxLocal = max_work_group_size B t) ->
    32 <= maxLocal ->
    vector_trace iT maxLocal (Z.max 0 (opt_passes B)) false l_v ->
    log w' = csr_frees (next_id w) ++ l_v ++ csr_between ++ l_s ++
             csr_setup (next_id w) ++ log w ->
    live w' = live w ->
    next_id w' = (8 + next_id w)%nat ->
    csr_end w w'.

End CsrEnd.

(** ** The ways ellPackTest ends *)

Section EllEnd.

Variable BLOCK_SIZE : Z.
Variable B : backend.
Variables (compileFlags : string) (numRows numNonZeroes : Z) (padded : bool).
Variables (paddedSize maxImgWidth : Z) (devSupportsImages : bool).
Variable E : ellpackr.

(** The number of elements of [h_valcm] and of [h_colscm]. *)
Definition cm_elems : Z := int_mul (maxrl E) (cmSize E).

(** The ten objects ellPackTest creates, the first of them with the
    identifier [n]; most recent first. *)
Definition ell_objects (n : nat) : list (nat * resource) :=
  [((9 + n)%nat, Kernel Ellpackr);
   ((8 + n)%nat, Buffer "d_rowLengths" (cmSize E * sizeof_int));
   ((7 + n)%nat, Buffer "d_out" (paddedSize * sizeof_float));
   ((6 + n)%nat, d_vec_object numRows maxImgWidth devSupportsImages);
   ((5 + n)%nat, Buffer "d_cols" (cm_elems * sizeof_int));
   ((4 + n)%nat, Buffer "d_val" (cm_elems * sizeof_float));
   ((3 + n)%nat, HostArray "h_colscm" cm_elems);
   ((2 + n)%nat, HostArray "h_valcm" cm_elems);
   ((1 + n)%nat, HostArray "h_rowLengths" paddedSize);
   (n, Program)].

(** The two host arrays that the [delete[]] at the end of ellPackTest
    does not reach. *)
Definition ell_leaked (n : nat) : list (nat * resource) :=
  [((3 + n)%nat, HostArray "h_colscm" cm_elems);
   ((2 + n)%nat, HostArray "h_valcm" cm_elems)].

(** The events of ellPackTest up to its loop, the program built. *)
Definition ell_setup (n : nat) : list event :=
  [EvSetArg Ellpackr 5 (ArgMem "d_out");
   EvSetArg Ellpackr 4 (ArgInt (cmSize E));
   EvSetArg Ellpackr 3 (ArgMem "d_rowLengths");
   EvSetArg Ellpackr 2 (ArgMem "d_cols");
   EvSetArg Ellpackr 1 (ArgMem "d_vec");
   EvSetArg Ellpackr 0 (ArgMem "d_val");
   EvAlloc (9 + n) (Kernel Ellpackr);
   EvWrite "d_rowLengths" (cmSize E * sizeof_int);
   d_vec_write numRows maxImgWidth devSupportsImages;
   EvWrite "d_cols" (cm_elems * sizeof_int);
   EvWrite "d_val" (cm_elems * sizeof_float);
   EvAlloc (8 + n) (Buffer "d_rowLengths" (cmSize E * sizeof_int));
   EvAlloc (7 + n) (Buffer "d_out" (paddedSize * sizeof_float));
   EvAlloc (6 + n) (d_vec_object numRows maxImgWidth devSupportsImages);
   EvAlloc (5 + n) (Buffer "d_cols" (cm_elems * sizeof_int));
   EvAlloc (4 + n) (Buffer "d_val" (cm_elems * sizeof_float));
   EvAlloc (3 + n) (HostArray "h_colscm" cm_elems);
   EvAlloc (2 + n) (HostArray "h_valcm" cm_elems);
   EvAlloc (1 + n) (HostArray "h_rowLengths" paddedSize);
   EvBuild (test_flags compileFlags maxImgWidth devSupportsImages) CL_SUCCESS;
   EvAlloc n Program].

(** The eight releases. *)
Definition ell_frees (n : nat) : list event :=
  [EvFree (1 + n); EvFree (5 + n); EvFree (4 + n); EvFree (7 + n);
   EvFree (6 + n); EvFree (8 + n); EvFree (9 + n); EvFree n].

Definition ell_result_name : string :=
  if padded then "Padded_ELLPACKR-SP" else "ELLPACKR-SP".

(** The results of a verified pass; [iT] is the time the transfers to
    the device took. *)
Definition ell_results (iT : double) : Z -> double -> double -> list event :=
  let name :=
    ((if padded then "Padded_" else EmptyString) ++ "ELLPACKR-" ++ "SP")%string
  in
  let gflop := F64.mul (F64.of_Z 2) (F64.of_Z numNonZeroes) in
  pass_results Ellpackr name (benchName_PCIe B name)
    (atts_of numNonZeroes (cmSize E))
    (fun t o => F64.div gflop (F64.div t (F64.of_Z (opt_iterations B))))
    (fun t o =>
       F64.div gflop
         (F64.add
            (F64.add (F64.div t (F64.of_Z (opt_iterations B))) iT) o)).

Definition ell_trace (iT : double) : Z -> bool -> list event -> Prop :=
  passes_trace Ellpackr (cmSize E) BLOCK_SIZE (opt_iterations B) numRows
    (ell_results iT).

(** The two ways in which ellPackTest ends once its program is built: at
    a failed verification, or at its end. *)
Inductive ell_end (w : world) : world -> Prop :=
| ell_failed (w' : world) (iT : double) (pass : Z) (l : list event) :
    0 <= pass < opt_passes B ->
    ell_trace iT pass true l ->
    log w' = l ++ ell_setup (next_id w) ++ log w ->
    live w' = ell_objects (next_id w) ++ live w ->
    next_id w' = (10 + next_id w)%nat ->
    ell_end w w'
| ell_completed (w' : world) (iT : double) (l : list event) :
    ell_trace iT (Z.max 0 (opt_passes B)) false l ->
    log w' = ell_frees (next_id w) ++ l ++ ell_setup (next_id w) ++ log w ->
    live w' = ell_leaked (next_id w) ++ live w ->
    next_id w' = (10 + next_id w)%nat ->
    ell_end w w'.

End EllEnd.

(** ** Counting events *)

Definition count_events (p : event -> bool) (l : list event) : nat :=
  length (filter p l).

Definition is_dispatch (k : kernel_id) (e : event) : bool :=
  match e with EvDispatch k' _ _ => kernel_eqb k' k | _ => false end.

Definition is_read (e : event) : bool :=
  match e with EvRead _ _ => true | _ => false end.

(** A verification of the output of kernel [k], whatever its verdict. *)
Definition is_verify (k : kernel_id) (e : event) : bool :=
  match e with EvVerify k' _ _ _ => kernel_eqb k' k | _ => false end.

(** A verification of the output of kernel [k] that passed. *)
Definition is_passed (k : kernel_id) (e : event) : bool :=
  match e with EvVerify k' _ _ true => kernel_eqb k' k | _ => false end.

Definition is_result (k : kernel_id) (e : event) : bool :=
  match e with EvAddResult k' _ _ _ _ _ => kernel_eqb k' k | _ => false end.

(** An event of the loops of passes: a dispatch, a read-back, a
    verification or a result. *)
Definition is_pass_event (e : event) : bool :=
  match e with
  | EvDispatch _ _ _ | EvRead _ _ | EvVerify _ _ _ _
  | EvAddResult _ _ _ _ _ _ => true
  | _ => false
  end.

(** ** The results csrTest records *)

(** The names under which csrTest records the results of kernel [k]. *)
Definition csr_result_name (padded : bool) (k : kernel_id) : string :=
  match k, padded with
  | CsrVector, true => "Padded_CSR-Vector-SP"
  | CsrVector, false => "CSR-Vector-SP"
  | _, true => "Padded_CSR-Scalar-SP"
  | _, false => "CSR-Scalar-SP"
  end.

(** Every result among the events [l] has a passed verification of its
    pass and its kernel before it. *)
Definition results_verified (numRows : Z) (l : list event) : Prop :=
  forall l2 k pass name atts units value l1,
    l = l2 ++ EvAddResult k pass name atts units value :: l1 ->
    In (EvVerify k numRows pass true) l1.

(** ** RunTest: what is kept across the calls of the tests *)

(** From [w] to [w'] no live object was released and the identifiers
    stayed fresh. *)
Definition keeps (w w' : world) : Prop :=
  well_formed w' /\
  (next_id w <= next_id w')%nat /\
  forall p, In p (live w) -> In p (live w').

(** An event of a test that was called with [images]: a build has the
    flags of the test, an image is written only with [images] set and the
    buffer [d_vec] only without it. *)
Definition image_use (flags : string) (images : bool) (e : event) : Prop :=
  match e with
  | EvBuild fl _ => fl = flags
  | EvWriteImage _ _ _ => images = true
  | EvWrite var _ => var = "d_vec"%string -> images = false
  | _ => True
  end.

(** Whether the three tests of RunTest use an image for the vector: the
    device supports images, the sampler could be created and so could the
    image.  These are the answers to the first, the third and the fourth
    query of RunTest. *)
Definition uses_images (B : backend) (w : world) : bool :=
  image_support B (now w)
  && (sampler_status B (S (S (now w))) =? CL_SUCCESS)
  && (image_check_status B (S (S (S (now w)))) =? CL_SUCCESS).

(** The host arrays RunTest allocates itself and never frees. *)
Definition RunTest_kept_arrays (PAD_FACTOR nItems numRows : Z)
  : list resource :=
  [HostArray "h_cols" nItems;
   HostArray "h_rowDelimiters" (numRows + 1);
   HostArray "h_vec" numRows;
   HostArray "refOut" numRows;
   HostArray "h_rowDelimitersPad" (numRows + 1);
   HostArray "h_out" (paddedSize PAD_FACTOR numRows)].

(** The events [l] are the events [base] with events that have [P] on
    top. *)
Definition extends (P : event -> Prop) (base l : list event) : Prop :=
  exists l0, l = l0 ++ base /\ Forall P l0.

(** What RunTest leaves, started in [w]: the six host arrays it keeps are
    allocated; its last two events free [h_valPad] and [h_val], which
    were allocated in the run and are allocated no more; and every event
    of the run uses images as [uses_images] says. *)
Definition RunTest_post (PAD_FACTOR : Z) (B : backend)
  (convertToPadded :
     list float -> list Z -> Z -> list Z -> list float * list Z * list Z * Z)
  (flags : string) (h_val : list float) (h_cols h_rowDelimiters : list Z)
  (nItems numRows : Z) (w w' : world) : Prop :=
  (forall r, In r (RunTest_kept_arrays PAD_FACTOR nItems numRows) ->
             exists id, In (id, r) (live w')) /\
  (exists id_val id_valPad l0,
     log w' = EvFree id_valPad :: EvFree id_val :: l0 /\
     In (EvAlloc id_val (HostArray "h_val" nItems)) l0 /\
     In (EvAlloc id_valPad
           (HostArray "h_valPad"
              (snd (convertToPadded h_val h_cols numRows h_rowDelimiters))))
        l0 /\
     (forall r, ~ In (id_val, r) (live w')) /\
     (forall r, ~ In (id_valPad, r) (live w'))) /\
  extends
    (image_use
       (test_flags flags (image2d_max_width B (S (now w))) (uses_images B w))
       (uses_images B w))
    (log w) (log w').

(** ** What a run needs of the host arrays

    The transfers of the model record their event and do not look at the
    host array of the call.  In the source a transfer that reads or
    writes more than the host array holds is undefined, and so is an
    [int] that overflows; the theorems on the runs of the tests and of
    RunTest take the preconditions below, which rule both out. *)

(** With images the vector goes to the device as an image of
    [maxImgWidth] by [imgHeight] floats, all of them read from [h_vec]. *)
Definition image_fits (numRows maxImgWidth : Z) (devSupportsImages : bool)
  (h_vec : list float) : Prop :=
  devSupportsImages = true ->
  0 < maxImgWidth /\
  maxImgWidth * ((numRows + maxImgWidth - 1) / maxImgWidth)
  <= Z.of_nat (length h_vec).

(** csrTest: [h_val] and [h_cols] hold the [numNonZeroes] entries and
    [h_rowDelimiters] the [numRows+1] delimiters that are written to the
    device; [h_vec] holds the [numRows] floats of its transfers, and the
    image with images; [h_out] has room for the [numRows] floats of a
    read-back; [numRows+1] and [numRows*VECTOR_SIZE], which the source
    computes in [int], are within [int]. *)
Definition csrTest_pre (VECTOR_SIZE : Z) (h_val : list float)
  (h_cols h_rowDelimiters : list Z) (h_vec : list float)
  (numRows numNonZeroes maxImgWidth : Z) (devSupportsImages : bool)
  (w : world) : Prop :=
  0 <= numNonZeroes <= INT_MAX /\
  numNonZeroes <= Z.of_nat (length h_val) /\
  numNonZeroes <= Z.of_nat (length h_cols) /\
  numRows + 1 <= Z.of_nat (length h_rowDelimiters) /\
  numRows <= Z.of_nat (length h_vec) /\
  image_fits numRows maxImgWidth devSupportsImages h_vec /\
  numRows <= Z.of_nat (length (h_out w)) /\
  numRows + 1 <= INT_MAX /\
  numRows * VECTOR_SIZE <= INT_MAX.

(** ellPackTest, with [E] what its setup gives: the program builds (the
    exit at a failed build is not covered, see [CL_CHECK_ERROR]);
    [h_rowLengths], of [paddedSize] cells, holds the [cmSize] lengths that
    are written to the device; [maxrl * cmSize], which the source computes
    in [int], is within [int]; [h_vec] holds the [numRows] floats of its
    transfer, and the image with images; [h_out] has room for the
    [numRows] floats of a read-back. *)
Definition ellPackTest_pre (B : backend) (h_vec : list float)
  (numRows paddedSize maxImgWidth : Z) (devSupportsImages : bool)
  (E : ellpackr) (w : world) : Prop :=
  build_status B (now w) = CL_SUCCESS /\
  numRows <= paddedSize <= INT_MAX /\
  maxrl E * cmSize E <= INT_MAX /\
  numRows <= Z.of_nat (length h_vec) /\
  image_fits numRows maxImgWidth devSupportsImages h_vec /\
  numRows <= Z.of_nat (length (h_out w)).

(** RunTest, started in [w]: every program builds; the image width the
    device reports is positive; the arrays of the matrix and the arrays
    [convertToPadded] hands back hold what the three tests write to the
    device, and [h_vec] the image where the tests use images; [h_out], of
    [paddedSize] floats, has room for [numRows]; the sizes the source
    computes in [int] are within [int]. *)
Definition RunTest_pre (PAD_FACTOR VECTOR_SIZE : Z) (B : backend)
  (toColMajor : convertToColMajor_t)
  (convertToPadded :
     list float -> list Z -> Z -> list Z -> list float * list Z * list Z * Z)
  (h_val : list float) (h_cols h_rowDelimiters : list Z)
  (nItems numRows : Z) (h_vec : list float) (w : world) : Prop :=
  let maxImgWidth := image2d_max_width B (S (now w)) in
  let pad := convertToPadded h_val h_cols numRows h_rowDelimiters in
  let h_valPad := fst (fst (fst pad)) in
  let h_colsPad := snd (fst (fst pad)) in
  let h_rowDelimitersPad := snd (fst pad) in
  let nItemsPadded := snd pad in
  (forall n, build_status B n = CL_SUCCESS) /\
  0 < maxImgWidth /\
  image_fits numRows maxImgWidth (uses_images B w) h_vec /\
  0 <= nItems <= INT_MAX /\
  nItems <= Z.of_nat (length h_val) /\
  nItems <= Z.of_nat (length h_cols) /\
  numRows + 1 <= Z.of_nat (length h_rowDelimiters) /\
  numRows <= Z.of_nat (length h_vec) /\
  0 <= nItemsPadded <= INT_MAX /\
  nItemsPadded <= Z.of_nat (length h_valPad) /\
  nItemsPadded <= Z.of_nat (length h_colsPad) /\
  numRows + 1 <= Z.of_nat (length h_rowDelimitersPad) /\
  numRows <= paddedSize PAD_FACTOR numRows /\
  (forall E,
     ellPack_setup toColMajor h_val h_cols h_rowDelimiters numRows false
       (paddedSize PAD_FACTOR numRows) = Some E ->
     maxrl E * cmSize E <= INT_MAX) /\
  numRows + 1 <= INT_MAX /\
  numRows * VECTOR_SIZE <= INT_MAX.

(** ** Example inputs

    A backend that builds every program, has images of width 8, times
    every command at one second and hands back [out] at every read-back;
    two passes of one iteration. *)
Definition example_backend (out : list float) (maxLocal : Z) : backend :=
  {| image_support := fun _ => false;
     image2d_max_width := fun _ => 8;
     sampler_status := fun _ => CL_SUCCESS;
     image_check_status := fun _ => CL_SUCCESS;
     build_status := fun _ => CL_SUCCESS;
     elapsed := fun _ => F64.of_Z 1;
     device_out := fun _ => out;
     max_work_group_size := fun _ => maxLocal;
     opt_passes := 2;
     opt_iterations := 1;
     benchName_PCIe := fun benchName => (benchName ++ "_PCIe")%string |}.

(** A [convertToPadded] for a matrix of one row with one entry: the row
    is padded to 16 entries. *)
Definition example_convertToPadded (val : list float) (cols : list Z)
  (dim : Z) (rowDelimiters : list Z) : list float * list Z * list Z * Z :=
  (val ++ repeat F32.zero 15, cols ++ repeat 0 15, [0; 16], 16).

(** The example backend with the number of iterations [iters]. *)
Definition example_backend_iterations (out : list float) (maxLocal iters : Z)
  : backend :=
  {| image_support := fun _ => false;
     image2d_max_width := fun _ => 8;
     sampler_status := fun _ => CL_SUCCESS;
     image_check_status := fun _ => CL_SUCCESS;
     build_status := fun _ => CL_SUCCESS;
     elapsed := fun _ => F64.of_Z 1;
     device_out := fun _ => out;
     max_work_group_size := fun _ => maxLocal;
     opt_passes := 2;
     opt_iterations := iters;
     benchName_PCIe := fun benchName => (benchName ++ "_PCIe")%string |}.

(** The example backend with a program that does not build. *)
Definition example_backend_no_build (status : Z) : backend :=
  {| image_support := fun _ => false;
     image2d_max_width := fun _ => 8;
     sampler_status := fun _ => CL_SUCCESS;
     image_check_status := fun _ => CL_SUCCESS;
     build_status := fun _ => status;
     elapsed := fun _ => F64.of_Z 1;
     device_out := fun _ => [];
     max_work_group_size := fun _ => 64;
     opt_passes := 2;
     opt_iterations := 1;
     benchName_PCIe := fun benchName => (benchName ++ "_PCIe")%string |}.

(** The example backend of a device that reports the image width
    [width]. *)
Definition example_backend_width (width : Z) : backend :=
  {| image_support := fun _ => false;
     image2d_max_width := fun _ => width;
     sampler_status := fun _ => CL_SUCCESS;
     image_check_status := fun _ => CL_SUCCESS;
     build_status := fun _ => CL_SUCCESS;
     elapsed := fun _ => F64.of_Z 1;
     device_out := fun _ => [F32.of_Z 1];
     max_work_group_size := fun _ => 64;
     opt_passes := 2;
     opt_iterations := 1;
     benchName_PCIe := fun benchName => (benchName ++ "_PCIe")%string |}.

(** The example backend of a device with images, of the width 1: the
    image of a vector of one float is the one float.  It hands back 2 at
    every read-back. *)
Definition example_backend_images : backend :=
  {| image_support := fun _ => true;
     image2d_max_width := fun _ => 1;
     sampler_status := fun _ => CL_SUCCESS;
     image_check_status := fun _ => CL_SUCCESS;
     build_status := fun _ => CL_SUCCESS;
     elapsed := fun _ => F64.of_Z 1;
     device_out := fun _ => [F32.of_Z 2];
     max_work_group_size := fun _ => 64;
     opt_passes := 2;
     opt_iterations := 1;
     benchName_PCIe := fun benchName => (benchName ++ "_PCIe")%string |}.

(** The state in which a test is called on its own: nothing is allocated
    but [h_out], which holds [h]. *)
Definition world_h_out (h : list float) : world :=
  {| log := []; live := []; next_id := 0%nat; now := 0%nat; h_out := h |}.

(** ** Arrays and loops: basic facts *)

Lemma load_Some_range {A : Type} (a : list A) (i : Z) (x : A) :
  load a i = Some x -> 0 <= i < Z.of_nat (length a).
Proof.
  unfold load. destruct (i <? 0) eqn:Hi; [discriminate|].
  intros H. apply Z.ltb_ge in Hi.
  assert (Hn : (Z.to_nat i < length a)%nat).
  { apply nth_error_Some. rewrite H. discriminate. }
  lia.
Qed.

Lemma load_nth {A : Type} (a : list A) (i : Z) (d : A) :
  0 <= i < Z.of_nat (length a) -> load a i = Some (nth (Z.to_nat i) a d).
Proof.
  intros Hi. unfold load.
  destruct (i <? 0) eqn:E; [apply Z.ltb_lt in E; lia|].
  apply nth_error_nth'. lia.
Qed.

Lemma load_nth_eq {A : Type} (a : list A) (i : Z) (x d : A) :
  load a i = Some x -> nth (Z.to_nat i) a d = x.
Proof.
  intros H. pose proof (load_Some_range _ _ H) as Hr.
  rewrite (load_nth a d Hr) in H. congruence.
Qed.

Lemma upd_length {A : Type} (n : nat) (v : A) (a : list A) :
  length (upd n v a) = length a.
Proof.
  revert n. induction a as [|h t IH]; intros [|n]; simpl; auto.
Qed.

Lemma nth_error_upd_same {A : Type} (n : nat) (v : A) (a : list A) :
  (n < length a)%nat -> nth_error (upd n v a) n = Some v.
Proof.
  revert n. induction a as [|h t IH]; intros [|n] H; simpl in *; try lia; auto.
  apply IH. lia.
Qed.

Lemma nth_error_upd_other {A : Type} (n m : nat) (v : A) (a : list A) :
  n <> m -> nth_error (upd n v a) m = nth_error a m.
Proof.
  revert n m. induction a as [|h t IH]; intros [|n] [|m] H; simpl; auto.
  congruence.
Qed.

Lemma store_Some {A : Type} (a : list A) (i : Z) (v : A) :
  0 <= i < Z.of_nat (length a) -> store a i v = Some (upd (Z.to_nat i) v a).
Proof.
  intros Hi. unfold store.
  replace (0 <=? i) with true by (symmetry; apply Z.leb_le; lia).
  replace (i <? Z.of_nat (length a)) with true by (symmetry; apply Z.ltb_lt; lia).
  reflexivity.
Qed.

Lemma store_inv {A : Type} (a a' : list A) (i : Z) (v : A) :
  store a i v = Some a' ->
  0 <= i < Z.of_nat (length a) /\ a' = upd (Z.to_nat i) v a.
Proof.
  unfold store. destruct (0 <=? i) eqn:E1; simpl; [|discriminate].
  destruct (i <? Z.of_nat (length a)) eqn:E2; [|discriminate].
  intros H. inversion H. apply Z.leb_le in E1. apply Z.ltb_lt in E2. auto.
Qed.

Lemma load_upd_same {A : Type} (a : list A) (i : Z) (v : A) :
  0 <= i < Z.of_nat (length a) -> load (upd (Z.to_nat i) v a) i = Some v.
Proof.
  intros Hi. unfold load.
  destruct (i <? 0) eqn:E; [apply Z.ltb_lt in E; lia|].
  apply nth_error_upd_same. lia.
Qed.

Lemma load_upd_other {A : Type} (a : list A) (i j : Z) (v : A) :
  0 <= i -> i <> j -> load (upd (Z.to_nat i) v a) j = load a j.
Proof.
  intros Hi Hij. unfold load.
  destruct (j <? 0) eqn:E; [reflexivity|]. apply Z.ltb_ge in E.
  apply nth_error_upd_other. lia.
Qed.

(** The invariant rule of the counted loop: a body that keeps [P] and does
    not fail makes the loop end in a state with [P]. *)
Lemma for_iter_inv {St : Type} (P : Z -> St -> Prop) (body : Z -> St -> option St) :
  forall (n : nat) (i : Z) (s : St),
    P i s ->
    (forall j t, i <= j < i + Z.of_nat n -> P j t ->
                 exists t', body j t = Some t' /\ P (j + 1) t') ->
    exists s', for_iter n i body s = Some s' /\ P (i + Z.of_nat n) s'.
Proof.
  induction n as [|n IH]; intros i s HP Hbody.
  - exists s. simpl. rewrite Z.add_0_r. auto.
  - destruct (Hbody i s ltac:(lia) HP) as (t' & Ht' & HP').
    destruct (IH (i + 1) t' HP') as (s' & Hs' & HP'').
    + intros j t Hj. apply Hbody. lia.
    + exists s'. split.
      * simpl for_iter. rewrite Ht'. exact Hs'.
      * replace (i + Z.of_nat (S n)) with (i + 1 + Z.of_nat n) by lia.
        exact HP''.
Qed.

Lemma for_loop_inv {St : Type} (P : Z -> St -> Prop) (body : Z -> St -> option St)
  (lo hi : Z) (s : St) :
  lo <= hi ->
  P lo s ->
  (forall j t, lo <= j < hi -> P j t ->
               exists t', body j t = Some t' /\ P (j + 1) t') ->
  exists s', for_loop lo hi body s = Some s' /\ P hi s'.
Proof.
  intros Hle HP Hbody. unfold for_loop.
  destruct (@for_iter_inv St P body (Z.to_nat (hi - lo)) lo s HP) as (s' & H1 & H2).
  - intros j t Hj. apply Hbody. lia.
  - exists s'. split; [exact H1|].
    replace (lo + Z.of_nat (Z.to_nat (hi - lo))) with hi in H2 by lia.
    exact H2.
Qed.

Lemma for_loop_empty {St : Type} (body : Z -> St -> option St) (lo hi : Z) (s : St) :
  hi <= lo -> for_loop lo hi body s = Some s.
Proof.
  intros H. unfold for_loop. replace (Z.to_nat (hi - lo)) with O by lia.
  reflexivity.
Qed.

(** ** spmvCpu *)

Section CSR.

Variables (val : list float) (cols rowOffsets : list Z).
Variables numRows numCols : Z.
Hypothesis Hcsr : csr_invariant val cols rowOffsets numRows numCols.

Lemma offsets_defined (i : Z) :
  0 <= i <= numRows -> load rowOffsets i = Some (at_ rowOffsets i).
Proof.
  intros Hi. apply load_nth. rewrite (csr_offsets_length Hcsr). lia.
Qed.

Lemma offsets_step (i : Z) :
  0 <= i < numRows -> at_ rowOffsets i <= at_ rowOffsets (i + 1).
Proof.
  intros Hi. apply (csr_mono Hcsr Hi); apply offsets_defined; lia.
Qed.

Lemma offsets_mono (n : nat) (i : Z) :
  0 <= i -> i + Z.of_nat n <= numRows ->
  at_ rowOffsets i <= at_ rowOffsets (i + Z.of_nat n).
Proof.
  induction n as [|n IH]; intros H0 H1.
  - rewrite Z.add_0_r. lia.
  - replace (i + Z.of_nat (S n)) with (i + Z.of_nat n + 1) by lia.
    pose proof (@offsets_step (i + Z.of_nat n) ltac:(lia)).
    pose proof (IH H0 ltac:(lia)). lia.
Qed.

Lemma offsets_bounds (i : Z) :
  0 <= i <= numRows ->
  0 <= at_ rowOffsets i <= Z.of_nat (length val).
Proof.
  intros Hi.
  assert (H0 : at_ rowOffsets 0 = 0).
  { apply load_nth_eq. exact (csr_first Hcsr). }
  assert (Hn : at_ rowOffsets numRows = Z.of_nat (length val)).
  { apply load_nth_eq. exact (csr_last Hcsr). }
  pose proof (@offsets_mono (Z.to_nat i) 0 ltac:(lia) ltac:(lia)) as Ha.
  pose proof (@offsets_mono (Z.to_nat (numRows - i)) i ltac:(lia) ltac:(lia)) as Hb.
  replace (0 + Z.of_nat (Z.to_nat i)) with i in Ha by lia.
  replace (i + Z.of_nat (Z.to_nat (numRows - i))) with numRows in Hb by lia.
  lia.
Qed.

Lemma cols_in_range (j : Z) :
  0 <= j < Z.of_nat (length val) ->
  0 <= nth (Z.to_nat j) cols 0 < numCols.
Proof.
  intros Hj. apply (csr_cols_valid Hcsr). apply nth_In.
  rewrite (csr_cols_length Hcsr). lia.
Qed.

Variable vec : list float.
Hypothesis Hvec : numCols <= Z.of_nat (length vec).

(** The inner loop, started at [j] with the partial sum [t]. *)
Lemma spmvCpu_row_iter (n : nat) :
  forall (j : Z) (t : float),
    0 <= j -> j + Z.of_nat n <= Z.of_nat (length val) ->
    for_iter n j
      (fun j t =>
         col <- load cols j ;;
         v <- load val j ;;
         x <- load vec col ;;
         Some (F32.add t (F32.mul v x))) t
    = Some (fold_left
              (fun t j => F32.add t (F32.mul (nth j val F32.zero)
                             (nth (Z.to_nat (nth j cols 0)) vec F32.zero)))
              (seq (Z.to_nat j) n) t).
Proof.
  induction n as [|n IH]; intros j t Hj Hn; [reflexivity|].
  cbn [for_iter seq fold_left].
  rewrite (load_nth cols 0) by (rewrite (csr_cols_length Hcsr); lia).
  cbn [obind].
  rewrite (load_nth val F32.zero) by lia. cbn [obind].
  rewrite (load_nth vec F32.zero)
    by (pose proof (@cols_in_range j ltac:(lia)); lia).
  cbn [obind].
  rewrite IH by lia.
  replace (Z.to_nat (j + 1)) with (S (Z.to_nat j)) by lia. reflexivity.
Qed.

Lemma spmvCpu_row_sum (lo hi : Z) :
  0 <= lo -> lo <= hi -> hi <= Z.of_nat (length val) ->
  spmvCpu_row val cols vec lo hi = Some (row_sum val cols vec lo hi).
Proof.
  intros H0 H1 H2. unfold spmvCpu_row, for_loop, row_sum.
  apply spmvCpu_row_iter; lia.
Qed.

End CSR.

(** What [spmvCpu] leaves in [out]. *)
Lemma spmvCpu_spec :
  forall (val : list float) (cols rowOffsets : list Z) (vec : list float)
         (dim : Z) (out : list float),
    csr_invariant val cols rowOffsets dim (Z.of_nat (length vec)) ->
    dim <= Z.of_nat (length out) ->
    exists out',
      spmvCpu val cols rowOffsets vec dim out = Some out' /\
      length out' = length out /\
      forall i, 0 <= i < dim ->
        load out' i =
        Some (row_sum val cols vec (at_ rowOffsets i) (at_ rowOffsets (i + 1))).
Proof.
  intros val cols rowOffsets vec dim out Hcsr Hout.
  pose proof (csr_rows Hcsr) as Hdim.
  set (P := fun (k : Z) (o : list float) =>
              length o = length out /\
              forall i, 0 <= i < k ->
                load o i = Some (row_sum val cols vec (at_ rowOffsets i)
                                   (at_ rowOffsets (i + 1)))).
  destruct (@for_loop_inv _ P
              (fun i out =>
                 lo <- load rowOffsets i ;;
                 hi <- load rowOffsets (i + 1) ;;
                 t <- spmvCpu_row val cols vec lo hi ;;
                 store out i t) 0 dim out Hdim) as (out' & Hrun & Hlen & Hall).
  - split; [reflexivity|]. intros i Hi. lia.
  - intros j o Hj [Hlen Hprev].
    rewrite (offsets_defined Hcsr) by lia. cbn [obind].
    rewrite (offsets_defined Hcsr) by lia. cbn [obind].
    pose proof (offsets_bounds Hcsr (i:=j) ltac:(lia)) as Hb1.
    pose proof (offsets_bounds Hcsr (i:=j+1) ltac:(lia)) as Hb2.
    pose proof (offsets_step Hcsr (i:=j) ltac:(lia)) as Hst.
    rewrite (spmvCpu_row_sum Hcsr vec (Z.le_refl _)) by lia. cbn [obind].
    rewrite store_Some by lia.
    eexists. split; [reflexivity|]. split.
    + rewrite upd_length. exact Hlen.
    + intros i Hi. destruct (Z.eq_dec i j) as [-> | Hne].
      * rewrite load_upd_same by lia. reflexivity.
      * rewrite load_upd_other by lia. apply Hprev. lia.
  - exists out'. auto.
Qed.

(** C1.  For a matrix with the CSR invariant and an output buffer of at
    least [dim] cells, [spmvCpu] returns, and for each row [i] in
    [0, dim) the cell [out[i]] holds the sum over [j] in
    [rowOffsets[i], rowOffsets[i+1]) of [values[j] * vec[columnIndices[j]]],
    accumulated from 0 in ascending order of [j]. *)
Theorem spmvCpu_row_sums :
  forall (val : list float) (cols rowOffsets : list Z) (vec : list float)
         (dim : Z) (out : list float),
    csr_invariant val cols rowOffsets dim (Z.of_nat (length vec)) ->
    dim <= Z.of_nat (length out) ->
    exists out',
      spmvCpu val cols rowOffsets vec dim out = Some out' /\
      length out' = length out /\
      forall i, 0 <= i < dim ->
        load out' i =
        Some (row_sum val cols vec (at_ rowOffsets i) (at_ rowOffsets (i + 1))).
Proof. exact spmvCpu_spec. Qed.

(** The 4x4 diagonal matrix of the first end-to-end scenario is a CSR
    matrix. *)
Lemma scenario1_csr :
  csr_invariant (map F32.of_Z [1; 2; 3; 4]) [0; 1; 2; 3] [0; 1; 2; 3; 4] 4
    (Z.of_nat (length (map F32.of_Z [1; 1; 1; 1]))).
Proof.
  constructor; try reflexivity; try (simpl; lia).
  intros i a b Hi Ha Hb.
  assert (Hc : i = 0 \/ i = 1 \/ i = 2 \/ i = 3) by lia.
  destruct Hc as [-> | [-> | [-> | ->]]]; vm_compute in Ha, Hb;
    inversion Ha; inversion Hb; lia.
Defined.

Lemma spmvCpu_row_sums_witness :
  exists out',
    spmvCpu (map F32.of_Z [1; 2; 3; 4]) [0; 1; 2; 3] [0; 1; 2; 3; 4]
      (map F32.of_Z [1; 1; 1; 1]) 4 (map F32.of_Z [0; 0; 0; 0]) = Some out' /\
    length out' = length (map F32.of_Z [0; 0; 0; 0]) /\
    forall i, 0 <= i < 4 ->
      load out' i =
      Some (row_sum (map F32.of_Z [1; 2; 3; 4]) [0; 1; 2; 3]
              (map F32.of_Z [1; 1; 1; 1])
              (at_ [0; 1; 2; 3; 4] i) (at_ [0; 1; 2; 3; 4] (i + 1))).
Proof.
  apply spmvCpu_row_sums; [exact scenario1_csr | simpl; lia].
Defined.

(** The first end-to-end scenario: the reference output is [1,2,3,4]. *)
Example spmvCpu_scenario1 :
  spmvCpu (map F32.of_Z [1; 2; 3; 4]) [0; 1; 2; 3] [0; 1; 2; 3; 4]
    (map F32.of_Z [1; 1; 1; 1]) 4 (map F32.of_Z [0; 0; 0; 0])
  = Some (map F32.of_Z [1; 2; 3; 4]).
Proof. vm_compute. reflexivity. Qed.

(** ** Conversion of a [float] to [double] *)

Lemma digits2_pos_iter_xO (m p : positive) :
  digits2_pos (Pos.iter xO m p) = (digits2_pos m + p)%positive.
Proof.
  induction p as [|p IH] using Pos.peano_ind.
  - simpl. lia.
  - rewrite Pos.iter_succ. simpl. rewrite IH. lia.
Qed.

Lemma shr_fexp_exact (prec emax : Z) (m : positive) (e : Z) :
  fexp prec emax (Zdigits2 (Zpos m) + e) = e ->
  shr_fexp prec emax (Zpos m) e loc_Exact =
  ({| shr_m := Zpos m; shr_r := false; shr_s := false |}, e).
Proof.
  intros H. unfold shr_fexp. rewrite H, Z.sub_diag. reflexivity.
Qed.

Lemma binary_round_aux_exact (prec emax : Z) (s : bool) (m : positive) (e : Z) :
  fexp prec emax (Zdigits2 (Zpos m) + e) = e ->
  e <= emax - prec ->
  binary_round_aux prec emax s (Zpos m) e loc_Exact = S754_finite s m e.
Proof.
  intros H Hle. unfold binary_round_aux.
  rewrite (shr_fexp_exact _ _ _ H).
  cbn [shr_m shr_r shr_s loc_of_shr_record round_nearest_even].
  rewrite (shr_fexp_exact _ _ _ H).
  cbn [shr_m]. apply Z.leb_le in Hle. rewrite Hle. reflexivity.
Qed.

(** A finite [float] is a finite [double] of the same sign. *)
Lemma of_float_finite (s : bool) (m : positive) (e : Z) :
  bounded F32.prec F32.emax m e = true ->
  exists m' e', F64.of_float (S754_finite s m e) = S754_finite s m' e'.
Proof.
  unfold bounded, canonical_mantissa, F32.prec, F32.emax, fexp, emin.
  intros H. apply andb_true_iff in H. destruct H as [Hc He].
  apply Z.eqb_eq in Hc. apply Z.leb_le in He.
  pose proof (Pos2Z.is_pos (digits2_pos m)) as Hd.
  unfold F64.of_float, binary_round, F64.prec, F64.emax.
  assert (Hf : fexp 53 1024 (Z.pos (digits2_pos m) + e)
               = Z.pos (digits2_pos m) + e - 53).
  { unfold fexp, emin. lia. }
  rewrite Hf. unfold shl_align.
  destruct (Z.pos (digits2_pos m) + e - 53 - e) as [|p|p] eqn:Hs; try lia.
  exists (Pos.iter xO m p), (Z.pos (digits2_pos m) + e - 53).
  apply binary_round_aux_exact.
  - unfold Zdigits2. rewrite digits2_pos_iter_xO. unfold fexp, emin. lia.
  - lia.
Qed.

Lemma fabs_binary_round_aux (prec emax mx ex : Z) (lx : location) :
  SFabs (binary_round_aux prec emax false mx ex lx)
  = binary_round_aux prec emax false mx ex lx.
Proof.
  unfold binary_round_aux.
  destruct (shr_fexp prec emax mx ex lx) as [mrs' e'].
  destruct (shr_fexp prec emax _ e' loc_Exact) as [mrs'' e''].
  destruct (shr_m mrs''); try reflexivity.
  destruct (e'' <=? emax - prec); reflexivity.
Qed.

(** [fabs] does nothing on a value whose sign bit is clear. *)
Lemma fabs_of_float_nonneg (x : float) :
  sign_bit x = false -> F64.fabs (F64.of_float x) = F64.of_float x.
Proof.
  destruct x as [s|s| |s m e]; simpl; intros Hs; subst; try reflexivity.
  unfold binary_round. destruct (shl_align m e _) as [mz ez].
  apply fabs_binary_round_aux.
Qed.

(** ** verifyResults *)

(** On a reference entry whose sign bit is clear the test of the code is
    the relative-error test of the specification. *)
Lemma exceeds_spec_nonneg (tol : double) (cpu gpu : float) :
  sign_bit cpu = false -> exceeds tol cpu gpu = spec_exceeds tol cpu gpu.
Proof.
  intros Hs. unfold exceeds, spec_exceeds, relative_error, spec_relative_error.
  rewrite (fabs_of_float_nonneg cpu Hs). reflexivity.
Qed.

Lemma gt_zero_tol (tol : double) (s : bool) :
  SFleb (S754_zero false) tol = true -> F64.gt (S754_zero s) tol = false.
Proof.
  unfold F64.gt, SFleb, SFltb.
  destruct tol as [t|t| |t m e]; simpl; try reflexivity; try discriminate;
    destruct t; simpl; try reflexivity; discriminate.
Qed.

Lemma gt_nan (tol : double) : F64.gt S754_nan tol = false.
Proof. destruct tol; reflexivity. Qed.

(** An entry compared with itself never exceeds a tolerance that is not
    negative: the quotient is a zero or a NaN. *)
Lemma exceeds_self (tol : double) (x : float) :
  SFleb (S754_zero false) tol = true -> exceeds tol x x = false.
Proof.
  intros Htol. unfold exceeds, relative_error.
  destruct x as [s|s| |s m e].
  - destruct s; apply gt_nan.
  - destruct s; apply gt_nan.
  - apply gt_nan.
  - assert (Hsub : F32.sub (S754_finite s m e) (S754_finite s m e)
                   = S754_zero false).
    { unfold F32.sub, SFsub. rewrite Z.sub_diag. reflexivity. }
    rewrite Hsub. cbn [F64.of_float F64.fabs SFabs].
    destruct (binary_round F64.prec F64.emax s m e) as [s'|s'| |s' m' e'];
      cbn [F64.div SFdiv]; try apply gt_nan; apply gt_zero_tol; exact Htol.
Qed.

(** The scan: [verifyResults] returns, and what it returns is [passed]
    exactly when the test of the [if] holds at no index below [size]. *)
Lemma verifyResults_tol_scan (tol : double) (cpuResults gpuResults : list float)
  (size pass : Z) :
  0 <= size ->
  size <= Z.of_nat (length cpuResults) ->
  size <= Z.of_nat (length gpuResults) ->
  exists passed,
    verifyResults_tol tol cpuResults gpuResults size pass = Some passed /\
    (passed = true <->
     forall i, 0 <= i < size ->
               exceeds tol (fat cpuResults i) (fat gpuResults i) = false).
Proof.
  intros H0 Hc Hg. unfold verifyResults_tol.
  apply (@for_loop_inv bool
           (fun k passed => passed = true <->
              forall i, 0 <= i < k ->
                exceeds tol (fat cpuResults i) (fat gpuResults i) = false)).
  - exact H0.
  - split; [intros _ i Hi; lia | reflexivity].
  - intros j passed Hj Hinv.
    rewrite (load_nth cpuResults F32.zero) by lia. cbn [obind].
    rewrite (load_nth gpuResults F32.zero) by lia. cbn [obind].
    eexists. split; [reflexivity|].
    fold (fat cpuResults j). fold (fat gpuResults j).
    destruct (exceeds tol (fat cpuResults j) (fat gpuResults j)) eqn:Ex.
    + split; [discriminate|]. intros Hall.
      rewrite (Hall j ltac:(lia)) in Ex. discriminate.
    + rewrite Hinv. split.
      * intros Hall i Hi. destruct (Z.eq_dec i j) as [-> | Hne]; [exact Ex|].
        apply Hall. lia.
      * intros Hall i Hi. apply Hall. lia.
Qed.

(** Where every reference entry has a clear sign bit, [verifyResults]
    passes exactly when no entry has a relative error, as the
    specification defines it, above 1e-10. *)
Lemma verifyResults_nonneg_reference (cpuResults gpuResults : list float)
  (size pass : Z) :
  0 <= size ->
  size <= Z.of_nat (length cpuResults) ->
  size <= Z.of_nat (length gpuResults) ->
  (forall i, 0 <= i < size -> sign_bit (fat cpuResults i) = false) ->
  exists passed,
    verifyResults cpuResults gpuResults size pass = Some passed /\
    (passed = true <->
     forall i, 0 <= i < size ->
       spec_exceeds MAX_RELATIVE_ERROR (fat cpuResults i) (fat gpuResults i)
       = false).
Proof.
  intros H0 Hc Hg Hs.
  destruct (verifyResults_tol_scan MAX_RELATIVE_ERROR cpuResults gpuResults
              pass H0 Hc Hg) as (passed & Hrun & Hiff).
  exists passed. split; [exact Hrun|]. rewrite Hiff.
  split; intros Hall i Hi.
  - rewrite <- exceeds_spec_nonneg by (apply Hs; exact Hi). apply Hall, Hi.
  - rewrite exceeds_spec_nonneg by (apply Hs; exact Hi). apply Hall, Hi.
Qed.

(** C2.  At the reference [-1] and the candidate [5] the relative error
    |reference - candidate| / |reference| is 6, above the tolerance 1e-10,
    and [verifyResults] passes all the same: it divides by the reference
    entry, not by its absolute value, so the quotient is negative. *)
Theorem verifyResults_negative_reference :
  spec_exceeds MAX_RELATIVE_ERROR (F32.of_Z (-1)) (F32.of_Z 5) = true /\
  relative_error (F32.of_Z (-1)) (F32.of_Z 5) = F64.of_Z (-6) /\
  verifyResults [F32.of_Z (-1)] [F32.of_Z 5] 1 0 = Some true.
Proof. repeat split; vm_compute; reflexivity. Qed.

(** C7, as stated, fails: the reference entry is +0 and the candidate is a
    NaN, which is not equal to it, and the entry is no mismatch: the
    quotient is a NaN and [NaN > 1e-10] is false. *)
Lemma zero_reference_nan_candidate :
  is_zero F32.zero = true /\
  SFeqb S754_nan F32.zero = false /\
  exceeds MAX_RELATIVE_ERROR F32.zero S754_nan = false /\
  verifyResults [F32.zero] [S754_nan] 1 0 = Some true.
Proof. repeat split; vm_compute; reflexivity. Qed.

(** C7, amended.  At a reference entry +0 and a candidate that is a
    [float] other than a NaN, the entry is a mismatch exactly when the
    candidate is not a zero: the quotient is +infinity for a candidate other
    than zero, and the NaN of 0/0, which compares false, for +0 and -0. *)
Theorem zero_reference_mismatch :
  forall gpu : float,
    valid_binary F32.prec F32.emax gpu = true ->
    is_nan gpu = false ->
    exceeds MAX_RELATIVE_ERROR (S754_zero false) gpu = negb (is_zero gpu).
Proof.
  intros gpu Hvalid Hnan.
  destruct gpu as [s|s| |s m e].
  - destruct s; reflexivity.
  - destruct s; reflexivity.
  - discriminate.
  - simpl in Hvalid.
    destruct (of_float_finite (negb s) m e Hvalid) as (m' & e' & Hconv).
    unfold exceeds, relative_error.
    change (F32.sub (S754_zero false) (S754_finite s m e))
      with (S754_finite (negb s) m e).
    rewrite Hconv. reflexivity.
Qed.

Lemma zero_reference_mismatch_witness :
  valid_binary F32.prec F32.emax (F32.of_Z 3) = true /\
  is_nan (F32.of_Z 3) = false /\
  exceeds MAX_RELATIVE_ERROR (S754_zero false) (F32.of_Z 3)
  = negb (is_zero (F32.of_Z 3)).
Proof.
  split; [reflexivity|]. split; [reflexivity|].
  apply (zero_reference_mismatch (F32.of_Z 3)); reflexivity.
Defined.

(** C8, as stated, fails: what [verifyResults] returns does not hold the
    lowest mismatching index.  With the reference [1,1], the candidate
    [2,1] mismatches at index 0 only and the candidate [1,2] at index 1
    only, and the two calls return the same. *)
Lemma verifyResults_no_mismatch_index :
  exceeds MAX_RELATIVE_ERROR (F32.of_Z 1) (F32.of_Z 2) = true /\
  exceeds MAX_RELATIVE_ERROR (F32.of_Z 1) (F32.of_Z 1) = false /\
  ~ exists firstMismatchIndex : option bool -> option Z,
      firstMismatchIndex
        (verifyResults [F32.of_Z 1; F32.of_Z 1] [F32.of_Z 2; F32.of_Z 1] 2 0)
      = Some 0 /\
      firstMismatchIndex
        (verifyResults [F32.of_Z 1; F32.of_Z 1] [F32.of_Z 1; F32.of_Z 2] 2 0)
      = Some 1.
Proof.
  split; [reflexivity|]. split; [reflexivity|].
  intros (f & H0 & H1).
  change (verifyResults [F32.of_Z 1; F32.of_Z 1] [F32.of_Z 2; F32.of_Z 1] 2 0)
    with (Some false) in H0.
  change (verifyResults [F32.of_Z 1; F32.of_Z 1] [F32.of_Z 1; F32.of_Z 2] 2 0)
    with (Some false) in H1.
  rewrite H0 in H1. discriminate.
Qed.

(** C8, amended.  [verifyResults] returns the passed flag alone.  Whenever
    an entry below [size] whose reference has a clear sign bit differs from
    it by a relative error above 1e-10, the flag returned is 0. *)
Theorem verifyResults_fails_on_mismatch :
  forall (reference candidate : list float) (size pass i : Z),
    size <= Z.of_nat (length reference) ->
    size <= Z.of_nat (length candidate) ->
    0 <= i < size ->
    sign_bit (fat reference i) = false ->
    spec_exceeds MAX_RELATIVE_ERROR (fat reference i) (fat candidate i) = true ->
    verifyResults reference candidate size pass = Some false.
Proof.
  intros reference candidate size pass i Hr Hc Hi Hs Hex.
  destruct (verifyResults_tol_scan MAX_RELATIVE_ERROR reference candidate pass
              (size:=size) ltac:(lia) Hr Hc) as (passed & Hrun & Hiff).
  unfold verifyResults. rewrite Hrun. f_equal.
  destruct passed; [|reflexivity].
  destruct Hiff as [Hall _]. specialize (Hall eq_refl i Hi).
  rewrite (exceeds_spec_nonneg _ _ _ Hs) in Hall. congruence.
Qed.

Lemma verifyResults_fails_on_mismatch_witness :
  verifyResults [F32.of_Z 1; F32.of_Z 1] [F32.of_Z 1; F32.of_Z 2] 2 0
  = Some false.
Proof.
  apply (verifyResults_fails_on_mismatch
           [F32.of_Z 1; F32.of_Z 1] [F32.of_Z 1; F32.of_Z 2] 0 (i:=1));
    try reflexivity; simpl; lia.
Defined.

(** C9.  A vector compared with itself passes, whatever the tolerance that
    is not negative, the zero entries included: there the quotient is the
    NaN of 0/0, which does not exceed the tolerance. *)
Theorem verifyResults_self_passes :
  forall (tol : double) (v : list float) (pass : Z),
    SFleb (S754_zero false) tol = true ->
    verifyResults_tol tol v v (Z.of_nat (length v)) pass = Some true.
Proof.
  intros tol v pass Htol.
  destruct (verifyResults_tol_scan tol v v pass (size:=Z.of_nat (length v))
              ltac:(lia) ltac:(lia) ltac:(lia)) as (passed & Hrun & Hiff).
  rewrite Hrun. f_equal. apply Hiff. intros i Hi. apply exceeds_self, Htol.
Qed.

Lemma verifyResults_self_passes_witness :
  SFleb (S754_zero false) MAX_RELATIVE_ERROR = true /\
  verifyResults [F32.of_Z 7; F32.zero; S754_nan; F32.of_Z (-2)]
                [F32.of_Z 7; F32.zero; S754_nan; F32.of_Z (-2)] 4 0
  = Some true.
Proof.
  split; [reflexivity|].
  apply (verifyResults_self_passes MAX_RELATIVE_ERROR
           [F32.of_Z 7; F32.zero; S754_nan; F32.of_Z (-2)] 0).
  reflexivity.
Defined.

(** ** The padded row count *)

Lemma wrap_int_id (z : Z) : INT_MIN <= z <= INT_MAX -> wrap_int z = z.
Proof.
  unfold INT_MIN, INT_MAX, wrap_int. intros H.
  rewrite Z.mod_small by lia. lia.
Qed.

Lemma paddedSize_value (PAD_FACTOR numRows : Z) :
  0 < numRows -> 0 < PAD_FACTOR -> numRows + PAD_FACTOR <= INT_MAX ->
  paddedSize PAD_FACTOR numRows
  = numRows + (PAD_FACTOR - numRows mod PAD_FACTOR).
Proof.
  intros Hn Hp Hmax. unfold paddedSize, int_add, int_sub, int_rem.
  rewrite Z.rem_mod_nonneg by lia.
  pose proof (Z.mod_pos_bound numRows PAD_FACTOR Hp) as Hm.
  unfold INT_MAX in Hmax.
  rewrite (@wrap_int_id (PAD_FACTOR - numRows mod PAD_FACTOR)) by (unfold INT_MIN, INT_MAX; lia).
  apply wrap_int_id. unfold INT_MIN, INT_MAX. lia.
Qed.

(** C4, as stated, fails: 32 rows with the pad factor 32 are a multiple of
    the pad factor and the padded row count is 64, not 32. *)
Lemma paddedSize_exact_multiple :
  32 mod 32 = 0 /\ paddedSize 32 32 = 64 /\
  paddedSize 32 32 <> toPadded_rows 32 32.
Proof. repeat split; vm_compute; discriminate. Qed.

(** C4, amended.  For positive [numRows] and pad factor (their sum an
    [int]) the padded row count is
    [numRows + (padFactor - numRows % padFactor)] in every case: what the
    specification gives when [numRows % padFactor != 0], and
    [numRows + padFactor], a whole block more, when it is 0.  With the pad
    factor 32 a matrix of 33 rows gets 64. *)
Theorem paddedSize_always_pads :
  forall PAD_FACTOR numRows : Z,
    0 < numRows -> 0 < PAD_FACTOR -> numRows + PAD_FACTOR <= INT_MAX ->
    paddedSize PAD_FACTOR numRows
    = numRows + (PAD_FACTOR - numRows mod PAD_FACTOR) /\
    (numRows mod PAD_FACTOR <> 0 ->
     paddedSize PAD_FACTOR numRows = toPadded_rows PAD_FACTOR numRows) /\
    (numRows mod PAD_FACTOR = 0 ->
     paddedSize PAD_FACTOR numRows = numRows + PAD_FACTOR) /\
    paddedSize 32 33 = 64.
Proof.
  intros PAD_FACTOR numRows Hn Hp Hmax.
  pose proof (paddedSize_value Hn Hp Hmax) as Hv.
  split; [exact Hv|]. split; [|split].
  - intros Hne. rewrite Hv. unfold toPadded_rows.
    destruct (numRows mod PAD_FACTOR =? 0) eqn:E; [|reflexivity].
    apply Z.eqb_eq in E. contradiction.
  - intros He. rewrite Hv, He. lia.
  - reflexivity.
Qed.

Lemma paddedSize_always_pads_witness :
  paddedSize 32 33 = 33 + (32 - 33 mod 32) /\
  (33 mod 32 <> 0 -> paddedSize 32 33 = toPadded_rows 32 33) /\
  (33 mod 32 = 0 -> paddedSize 32 33 = 33 + 32) /\
  paddedSize 32 33 = 64.
Proof.
  apply (@paddedSize_always_pads 32 33); unfold INT_MAX; lia.
Defined.

(** ** The ELLPACKR setup *)

Lemma new_array_Some {A : Type} (n : Z) :
  0 <= n ->
  @new_array A n = Some (repeat None (Z.to_nat n)).
Proof.
  intros H. unfold new_array.
  destruct (n <? 0) eqn:E; [apply Z.ltb_lt in E; lia | reflexivity].
Qed.

Lemma load_init_Some {A : Type} (a : list (option A)) (i : Z) (x : A) :
  load a i = Some (Some x) -> load_init a i = Some x.
Proof. intros H. unfold load_init. rewrite H. reflexivity. Qed.

Section EllPack.

Variables (val : list float) (cols rowOffsets : list Z).
Variables numRows numCols : Z.
Hypothesis Hcsr : csr_invariant val cols rowOffsets numRows numCols.
Hypothesis Hint : Z.of_nat (length val) <= INT_MAX.

Lemma row_length_bounds (i : Z) :
  0 <= i < numRows ->
  0 <= row_length rowOffsets i <= Z.of_nat (length val).
Proof.
  intros Hi. unfold row_length.
  pose proof (offsets_bounds Hcsr (i:=i) ltac:(lia)).
  pose proof (offsets_bounds Hcsr (i:=i+1) ltac:(lia)).
  pose proof (offsets_step Hcsr (i:=i) ltac:(lia)). lia.
Qed.

(** What the two loops over [h_rowLengths] leave. *)
Lemma ellPack_rowLengths_spec (paddedSize : Z) :
  numRows <= paddedSize ->
  exists rl m,
    ellPack_rowLengths rowOffsets numRows paddedSize = Some (rl, m) /\
    Z.of_nat (length rl) = paddedSize /\
    (forall i, 0 <= i < numRows ->
               load rl i = Some (Some (row_length rowOffsets i))) /\
    (forall i, numRows <= i < paddedSize -> load rl i = Some (Some 0)) /\
    0 <= m <= Z.of_nat (length val) /\
    (forall i, 0 <= i < numRows -> row_length rowOffsets i <= m) /\
    (m = 0 \/ exists i, 0 <= i < numRows /\ m = row_length rowOffsets i).
Proof.
  intros Hpad. pose proof (csr_rows Hcsr) as Hrows.
  unfold ellPack_rowLengths.
  rewrite new_array_Some by lia. cbn [obind].
  set (P := fun (k : Z) (st : list (option Z) * Z) =>
              Z.of_nat (length (fst st)) = paddedSize /\
              (forall i, 0 <= i < k ->
                 load (fst st) i = Some (Some (row_length rowOffsets i))) /\
              0 <= snd st <= Z.of_nat (length val) /\
              (forall i, 0 <= i < k -> row_length rowOffsets i <= snd st) /\
              (snd st = 0 \/
               exists i, 0 <= i < k /\ snd st = row_length rowOffsets i)).
  match goal with
  | |- context [for_loop 0 numRows ?body ?init] =>
      destruct (@for_loop_inv _ P body 0 numRows init Hrows)
        as ([rl m] & Hrun & Hlen & Hrows1 & Hm & Hmax & Hatt)
  end.
  - unfold P. cbn [fst snd]. rewrite repeat_length.
    repeat split; try lia; intros; lia.
  - intros k [rl m] Hk (Hlen & Hprev & Hm & Hmax & Hatt). cbn [fst snd] in *.
    rewrite (offsets_defined Hcsr) by lia. cbn [obind].
    rewrite (offsets_defined Hcsr) by lia. cbn [obind].
    pose proof (@row_length_bounds k ltac:(lia)) as Hb.
    unfold row_length in Hb.
    unfold int_sub. rewrite wrap_int_id by (unfold INT_MIN; lia).
    rewrite store_Some by lia. cbn [obind].
    rewrite (@load_init_Some _ _ k (at_ rowOffsets (k + 1) - at_ rowOffsets k))
      by (apply load_upd_same; lia).
    cbn [obind]. eexists. split; [reflexivity|].
    unfold P. cbn [fst snd]. rewrite upd_length.
    split; [exact Hlen|]. split; [|split; [|split]].
    + intros i Hi. destruct (Z.eq_dec i k) as [-> | Hne].
      * rewrite load_upd_same by lia. reflexivity.
      * rewrite load_upd_other by lia. apply Hprev. lia.
    + destruct (_ >? m) eqn:E; lia.
    + intros i Hi. destruct (Z.eq_dec i k) as [-> | Hne].
      * unfold row_length. destruct (_ >? m) eqn:E; lia.
      * pose proof (Hmax i ltac:(lia)). destruct (_ >? m) eqn:E; lia.
    + destruct (_ >? m) eqn:E.
      * right. exists k. unfold row_length. split; [lia | reflexivity].
      * destruct Hatt as [Hz | (i & Hi & Hmi)]; [left; exact Hz|].
        right. exists i. split; [lia | exact Hmi].
  - rewrite Hrun. cbn [obind fst snd].
    set (Q := fun (p : Z) (a : list (option Z)) =>
                Z.of_nat (length a) = paddedSize /\
                (forall i, 0 <= i < numRows ->
                   load a i = Some (Some (row_length rowOffsets i))) /\
                (forall i, numRows <= i < p -> load a i = Some (Some 0))).
    cbn [fst snd] in *.
    destruct (@for_loop_inv _ Q (fun p a => store a p (Some 0))
                numRows paddedSize rl Hpad) as (rl' & Hrun' & Hlen' & Hr' & Hp').
    + unfold Q. repeat split; auto. intros; lia.
    + intros p a Hp (Hl & Hr & Hz). rewrite store_Some by lia.
      eexists. split; [reflexivity|]. unfold Q. rewrite upd_length.
      split; [exact Hl|]. split.
      * intros i Hi. rewrite load_upd_other by lia. apply Hr, Hi.
      * intros i Hi. destruct (Z.eq_dec i p) as [-> | Hne].
        -- rewrite load_upd_same by lia. reflexivity.
        -- rewrite load_upd_other by lia. apply Hz. lia.
    + rewrite Hrun'. cbn [obind]. exists rl', m. repeat split; auto; lia.
Qed.

End EllPack.

Lemma linearIndex_inj (stride r1 k1 r2 k2 : Z) :
  0 <= r1 < stride -> 0 <= r2 < stride ->
  linearIndex r1 k1 stride = linearIndex r2 k2 stride -> r1 = r2 /\ k1 = k2.
Proof.
  unfold linearIndex. intros H1 H2 H. assert (k1 = k2) by nia. subst. lia.
Qed.

Lemma linearIndex_range (stride maxrl r k : Z) :
  0 <= r < stride -> 0 <= k < maxrl ->
  0 <= linearIndex r k stride < maxrl * stride.
Proof. unfold linearIndex. intros H1 H2. nia. Qed.

Lemma load_map_const {A B : Type} (c : B) (d : A) (a : list A) (i : Z) :
  0 <= i < Z.of_nat (length a) -> load (map (fun _ => c) a) i = Some c.
Proof.
  intros Hi. rewrite (load_nth (map (fun _ => c) a) c)
    by (rewrite length_map; exact Hi).
  f_equal. exact (map_nth (fun _ => c) a d (Z.to_nat i)).
Qed.

Section ColMajor.

Variables (val : list float) (cols rowOffsets : list Z).
Variables numRows numCols : Z.
Hypothesis Hcsr : csr_invariant val cols rowOffsets numRows numCols.

Variables (rl : list (option Z)) (maxrl stride : Z) (padded : bool).
Variables (newA : list (option float)) (newcols : list (option Z)).
Hypothesis Hrl : forall i, 0 <= i < numRows ->
  load rl i = Some (Some (row_length rowOffsets i)).
Hypothesis Hmax : forall i, 0 <= i < numRows ->
  row_length rowOffsets i <= maxrl.
Hypothesis Hstride :
  stride = if padded then Z.of_nat (length rl) else numRows.
Hypothesis Hdim : numRows <= stride.
Hypothesis HlenA : Z.of_nat (length newA) = maxrl * stride.
Hypothesis HlenC : Z.of_nat (length newcols) = maxrl * stride.

Lemma convertToColMajor_zero_fill :
  exists cm,
    convertToColMajor val cols numRows rowOffsets newA newcols rl maxrl
      padded = Some cm /\
    Z.of_nat (length (fst cm)) = maxrl * stride /\
    Z.of_nat (length (snd cm)) = maxrl * stride /\
    forall r k, 0 <= r < stride -> 0 <= k < maxrl ->
                (r < numRows -> row_length rowOffsets r <= k) ->
                zero_slot stride cm r k.
Proof.
  pose proof (csr_rows Hcsr) as Hrows.
  unfold convertToColMajor. rewrite <- Hstride.
  set (I := fun (i : Z) (cm : list (option float) * list (option Z)) =>
              Z.of_nat (length (fst cm)) = maxrl * stride /\
              Z.of_nat (length (snd cm)) = maxrl * stride /\
              forall r k, 0 <= r < stride -> 0 <= k < maxrl ->
                          (r < i -> row_length rowOffsets r <= k) ->
                          zero_slot stride cm r k).
  apply (@for_loop_inv _ I); [exact Hrows | |].
  - unfold I. cbn [fst snd]. rewrite !length_map.
    split; [exact HlenA|]. split; [exact HlenC|].
    intros r k Hr Hk _. unfold zero_slot. cbn [fst snd].
    pose proof (linearIndex_range Hr Hk) as Hidx.
    split; apply load_map_const; try exact None; lia.
  - intros i cm Hi (HA & HC & Hz).
    rewrite (load_init_Some _ _ (Hrl Hi)). cbn [obind].
    rewrite (offsets_defined Hcsr) by lia. cbn [obind].
    pose proof (offsets_bounds Hcsr (i:=i) ltac:(lia)) as Hlo.
    pose proof (offsets_bounds Hcsr (i:=i+1) ltac:(lia)) as Hhi.
    pose proof (offsets_step Hcsr (i:=i) ltac:(lia)) as Hst.
    pose proof (Hmax Hi) as Hlen.
    set (J := fun (k : Z) (cm : list (option float) * list (option Z)) =>
                Z.of_nat (length (fst cm)) = maxrl * stride /\
                Z.of_nat (length (snd cm)) = maxrl * stride /\
                forall r k', 0 <= r < stride -> 0 <= k' < maxrl ->
                             (r < i -> row_length rowOffsets r <= k') ->
                             (r = i -> k <= k') ->
                             zero_slot stride cm r k').
    match goal with
    | |- context [for_loop 0 ?n ?body cm] =>
        destruct (@for_loop_inv _ J body 0 n cm) as (cm' & Hrun & HA' & HC' & Hz')
    end.
    + unfold row_length. lia.
    + unfold J. split; [exact HA|]. split; [exact HC|].
      intros r k' Hr Hk' Hlt _. apply Hz; assumption.
    + intros k [A C] Hk (HAk & HCk & Hzk). cbn [fst snd] in *.
      unfold row_length in Hk, Hlen.
      rewrite (load_nth val F32.zero) by lia. cbn [obind].
      rewrite (load_nth cols 0) by (rewrite (csr_cols_length Hcsr); lia).
      cbn [obind].
      pose proof (@linearIndex_range stride maxrl i k ltac:(lia) ltac:(lia))
        as Hidx.
      rewrite store_Some by lia. cbn [obind].
      rewrite store_Some by lia. cbn [obind].
      eexists. split; [reflexivity|]. unfold J. cbn [fst snd].
      rewrite !upd_length. split; [exact HAk|]. split; [exact HCk|].
      intros r k' Hr Hk' Hlt Heq. unfold zero_slot. cbn [fst snd].
      assert (Hne : linearIndex i k stride <> linearIndex r k' stride).
      { intros Hsame.
        destruct (@linearIndex_inj stride i k r k' ltac:(lia) Hr Hsame)
          as [<- <-].
        specialize (Heq eq_refl). lia. }
      rewrite !load_upd_other by lia.
      apply (Hzk r k' Hr Hk' Hlt). intros ->. specialize (Heq eq_refl). lia.
    + exists cm'. split; [exact Hrun|]. unfold I.
      split; [exact HA'|]. split; [exact HC'|].
      intros r k Hr Hk Hlt. apply Hz'; try assumption.
      * intros Hri. apply Hlt. lia.
      * intros ->. apply Hlt. lia.
Qed.

End ColMajor.



(** The matrix of the third end-to-end scenario, rows of 1, 3, 0 and 2
    entries, is a CSR matrix. *)
Lemma scenario3_csr :
  csr_invariant (map F32.of_Z [1; 2; 3; 4; 5; 6]) [0; 0; 1; 2; 0; 3]
    [0; 1; 4; 4; 6] 4 4.
Proof.
  constructor; try reflexivity; try (simpl; lia).
  intros i a b Hi Ha Hb.
  assert (Hc : i = 0 \/ i = 1 \/ i = 2 \/ i = 3) by lia.
  destruct Hc as [-> | [-> | [-> | ->]]]; vm_compute in Ha, Hb;
    inversion Ha; inversion Hb; lia.
Defined.


(** The third end-to-end scenario: the longest row has 3 entries and the
    three slots of row 2 hold the padding. *)
Example ellPack_setup_scenario3 :
  option_map
    (fun E => (maxrl E,
               map (fun k => load (h_valcm E) (linearIndex 2 k (cmSize E)))
                 [0; 1; 2],
               map (fun k => load (h_colscm E) (linearIndex 2 k (cmSize E)))
                 [0; 1; 2]))
    (ellPack_setup convertToColMajor (map F32.of_Z [1; 2; 3; 4; 5; 6])
       [0; 0; 1; 2; 0; 3] [0; 1; 4; 4; 6] 4 false 6)
  = Some (3,
          [Some (Some F32.zero); Some (Some F32.zero); Some (Some F32.zero)],
          [Some (Some 0); Some (Some 0); Some (Some 0)]).
Proof. vm_compute. reflexivity. Qed.

(** ** Rules of [wp] *)

Lemma wp_bind {A B : Type} (m : M A) (k : A -> M B) Q R w :
  wp m (fun a => wp (k a) Q R) R w -> wp (bind m k) Q R w.
Proof. unfold wp, bind. destruct (m w); auto. Qed.

Lemma wp_ret {A : Type} (a : A) (Q : A -> world -> Prop) R w :
  Q a w -> wp (ret a) Q R w.
Proof. auto. Qed.

Lemma wp_Return {A : Type} (Q : A -> world -> Prop) (R : world -> Prop) w :
  R w -> wp Return Q R w.
Proof. auto. Qed.

Lemma wp_lift {A : Type} (o : option A) (a : A) (Q : A -> world -> Prop) R w :
  o = Some a -> Q a w -> wp (lift o) Q R w.
Proof. intros -> H. exact H. Qed.

Lemma wp_mono {A : Type} (m : M A) (Q Q' : A -> world -> Prop)
  (R R' : world -> Prop) w :
  wp m Q R w ->
  (forall a w', Q a w' -> Q' a w') ->
  (forall w', R w' -> R' w') ->
  wp m Q' R' w.
Proof. unfold wp. destruct (m w); auto. Qed.

Lemma wp_call (m : M unit) (Q : unit -> world -> Prop) R w :
  wp m (fun _ => Q tt) (Q tt) w -> wp (call m) Q R w.
Proof. unfold wp, call. destruct (m w); auto. Qed.

Lemma wp_run (m : M unit) (P : world -> Prop) w :
  wp m (fun _ => P) P w -> exists w', run m w = Some w' /\ P w'.
Proof.
  unfold wp, run. destruct (m w) as [a w'|w'|]; intros H;
    [exists w' | exists w' | contradiction]; auto.
Qed.

Lemma wp_forM_iter {St : Type} (body : Z -> St -> M St)
  (Inv : Z -> St -> world -> Prop) (R : world -> Prop) :
  forall (n : nat) (i : Z) (s : St) (w : world),
    Inv i s w ->
    (forall j t w', i <= j < i + Z.of_nat n -> Inv j t w' ->
       wp (body j t) (fun t' w'' => Inv (j + 1) t' w'') R w') ->
    wp (forM_iter n i body s) (fun s' w' => Inv (i + Z.of_nat n) s' w') R w.
Proof.
  induction n as [|n IH]; intros i s w Hinv Hbody.
  - cbn [forM_iter]. apply wp_ret. rewrite Z.add_0_r. exact Hinv.
  - cbn [forM_iter]. apply wp_bind.
    eapply wp_mono; [exact (Hbody i s w ltac:(lia) Hinv) | | auto].
    intros t w' Ht. cbv beta.
    replace (i + Z.of_nat (S n)) with (i + 1 + Z.of_nat n) by lia.
    apply IH; [exact Ht|]. intros j t' w'' Hj. apply Hbody. lia.
Qed.

(** The invariant rule of [forM]; the loop ends at [max lo hi]. *)
Lemma wp_forM {St : Type} (body : Z -> St -> M St)
  (Inv : Z -> St -> world -> Prop) (Q : St -> world -> Prop)
  (R : world -> Prop) (lo hi : Z) (s : St) (w : world) :
  Inv lo s w ->
  (forall j t w', lo <= j < hi -> Inv j t w' ->
     wp (body j t) (fun t' w'' => Inv (j + 1) t' w'') R w') ->
  (forall s' w', Inv (Z.max lo hi) s' w' -> Q s' w') ->
  wp (forM lo hi body s) Q R w.
Proof.
  intros Hinv Hbody HQ. unfold forM.
  eapply wp_mono; [apply (@wp_forM_iter _ body Inv R); [exact Hinv|] | | auto].
  - intros j t w' Hj. apply Hbody. lia.
  - intros s' w' H. apply HQ.
    replace (Z.max lo hi) with (lo + Z.of_nat (Z.to_nat (hi - lo))) by lia.
    exact H.
Qed.

(** ** The events of a run *)

Lemma running_plain phi b e l :
  running phi b l -> phi e -> plain e -> running phi b (e :: l).
Proof.
  intros (Hnf & Hphi & (l' & flags & err & id & Hst) & Hres) He Hp.
  repeat split.
  - intros k size pass [Heq | Hin]; [subst e; exact Hp | exact (Hnf _ _ _ Hin)].
  - constructor; assumption.
  - exists (e :: l'), flags, err, id. rewrite Hst. reflexivity.
  - intros k pass name atts units value [Heq | Hin];
      [subst e; contradiction | exact (Hres _ _ _ _ _ _ Hin)].
Qed.

Lemma running_result phi (b b' : kernel_id -> Z) k pass name atts units value l :
  running phi b l ->
  phi (EvAddResult k pass name atts units value) ->
  pass < b' k ->
  (forall k', b k' <= b' k') ->
  running phi b' (EvAddResult k pass name atts units value :: l).
Proof.
  intros (Hnf & Hphi & (l' & flags & err & id & Hst) & Hres) He Hlt Hle.
  repeat split.
  - intros k0 size pass0 [Heq | Hin]; [discriminate | exact (Hnf _ _ _ Hin)].
  - constructor; assumption.
  - eexists (_ :: l'), flags, err, id. rewrite Hst. reflexivity.
  - intros k0 pass0 name0 atts0 units0 value0 [Heq | Hin].
    + inversion Heq; subst. exact Hlt.
    + pose proof (Hres _ _ _ _ _ _ Hin). pose proof (Hle k0). lia.
Qed.

Lemma running_weaken phi (b b' : kernel_id -> Z) l :
  running phi b l -> (forall k, b k <= b' k) -> running phi b' l.
Proof.
  intros (Hnf & Hphi & Hst & Hres) Hle. repeat split; auto.
  intros k pass name atts units value Hin.
  pose proof (Hres _ _ _ _ _ _ Hin). pose proof (Hle k). lia.
Qed.

(** A test function that ends without a failed verification. *)
Lemma ended_clean phi b l : running phi b l -> ended phi l.
Proof.
  intros (Hnf & Hphi & Hst & _). repeat split; auto.
  - exfalso. apply (Hnf k size pass). rewrite H. apply in_or_app. right.
    left. reflexivity.
  - exfalso. apply (Hnf k size pass). rewrite H. apply in_or_app. right.
    left. reflexivity.
Qed.

(** A test function that returns at a failed verification. *)
Lemma ended_failed phi b k size pass l :
  running phi b l ->
  phi (EvVerify k size pass false) ->
  b k <= pass ->
  ended phi (EvVerify k size pass false :: l).
Proof.
  intros (Hnf & Hphi & Hst & Hres) He Hb.
  split; [|split].
  - intros l2 k0 size0 pass0 l1 Heq. destruct l2 as [|e l2]; cbn in Heq.
    + injection Heq as Hk Hs Hp Hl. subst k0 size0 pass0 l1.
      split; [reflexivity|].
      intros pass' name atts units value Hin.
      pose proof (Hres _ _ _ _ _ _ Hin). lia.
    + injection Heq as _ Hl. exfalso.
      apply (Hnf k0 size0 pass0). rewrite Hl. apply in_or_app. right. left.
      reflexivity.
  - constructor; assumption.
  - destruct Hst as (l' & flags & err & id & Hst).
    eexists (_ :: l'), flags, err, id. rewrite Hst. reflexivity.
Qed.

(** ** The primitive actions *)

Section After.

Variable w0 : world.
Variables (phi : event -> Prop) (b : kernel_id -> Z).
Variable H : list float -> Prop.

Lemma after_emit (e : event) Q R w :
  after w0 (running phi b) H w ->
  phi e -> plain e ->
  (forall w', after w0 (running phi b) H w' -> Q tt w') ->
  wp (emit e) Q R w.
Proof.
  intros (l & Hl & Hr & Hh) He Hp HQ. unfold wp, emit. apply HQ.
  exists (e :: l). cbn [log h_out]. rewrite Hl.
  split; [reflexivity|]. split; [apply running_plain; assumption | exact Hh].
Qed.

Lemma after_result (b' : kernel_id -> Z) k pass name atts units value Q R w :
  after w0 (running phi b) H w ->
  phi (EvAddResult k pass name atts units value) ->
  pass < b' k ->
  (forall k', b k' <= b' k') ->
  (forall w', after w0 (running phi b') H w' -> Q tt w') ->
  wp (emit (EvAddResult k pass name atts units value)) Q R w.
Proof.
  intros (l & Hl & Hr & Hh) He Hlt Hle HQ. unfold wp, emit. apply HQ.
  eexists (_ :: l). cbn [log h_out]. rewrite Hl.
  split; [reflexivity|].
  split; [eapply running_result; eassumption | exact Hh].
Qed.

Lemma after_alloc (r : resource) Q R w :
  after w0 (running phi b) H w ->
  (forall id, phi (EvAlloc id r)) ->
  (forall id w', after w0 (running phi b) H w' -> Q id w') ->
  wp (alloc r) Q R w.
Proof.
  intros (l & Hl & Hr & Hh) He HQ. unfold wp, alloc. apply HQ.
  eexists (_ :: l). cbn [log h_out]. rewrite Hl.
  split; [reflexivity|].
  split; [apply running_plain; [assumption | apply He | exact I] | exact Hh].
Qed.

Lemma after_release (id : nat) Q R w :
  after w0 (running phi b) H w ->
  phi (EvFree id) ->
  (forall w', after w0 (running phi b) H w' -> Q tt w') ->
  wp (release id) Q R w.
Proof.
  intros (l & Hl & Hr & Hh) He HQ. unfold wp, release. apply HQ.
  eexists (_ :: l). cbn [log h_out]. rewrite Hl.
  split; [reflexivity|].
  split; [apply running_plain; [assumption | apply He | exact I] | exact Hh].
Qed.

Lemma after_query {A : Type} (f : nat -> A) (P : A -> Prop) Q R w :
  after w0 (running phi b) H w ->
  (forall n, P (f n)) ->
  (forall a w', P a -> after w0 (running phi b) H w' -> Q a w') ->
  wp (query f) Q R w.
Proof.
  intros (l & Hl & Hr & Hh) HP HQ. unfold wp, query. apply HQ; [apply HP|].
  exists l. cbn [log h_out]. auto.
Qed.

Lemma after_get_h_out Q R w :
  after w0 (running phi b) H w ->
  (forall h, H h -> Q h w) ->
  wp get_h_out Q R w.
Proof.
  intros (l & Hl & Hr & Hh) HQ. unfold wp, get_h_out. apply HQ, Hh.
Qed.

Lemma after_set_h_out (H' : list float -> Prop) (a : list float) Q R w :
  after w0 (running phi b) H w ->
  H' a ->
  (forall w', after w0 (running phi b) H' w' -> Q tt w') ->
  wp (set_h_out a) Q R w.
Proof.
  intros (l & Hl & Hr & Hh) Ha HQ. unfold wp, set_h_out. apply HQ.
  exists l. cbn [log h_out]. auto.
Qed.

Lemma after_forget w :
  after w0 (running phi b) H w ->
  after w0 (running phi b) (fun _ => True) w.
Proof. intros (l & Hl & Hr & _). exists l. auto. Qed.

Lemma after_weaken (b' : kernel_id -> Z) w :
  after w0 (running phi b) H w ->
  (forall k, b k <= b' k) ->
  after w0 (running phi b') H w.
Proof.
  intros (l & Hl & Hr & Hh) Hle. exists l.
  split; [exact Hl|]. split; [eapply running_weaken; eassumption | exact Hh].
Qed.

Lemma after_ended w :
  after w0 (running phi b) H w ->
  after w0 (ended phi) (fun _ => True) w.
Proof.
  intros (l & Hl & Hr & _). exists l.
  split; [exact Hl|]. split; [eapply ended_clean; eassumption | exact I].
Qed.

End After.

(** ** Host-side facts the drivers rely on *)

Lemma verifyResults_returns (a b : list float) (size pass : Z) :
  0 <= size -> size <= Z.of_nat (length a) -> size <= Z.of_nat (length b) ->
  exists passed, verifyResults a b size pass = Some passed.
Proof.
  intros H0 Ha Hb.
  destruct (verifyResults_tol_scan MAX_RELATIVE_ERROR a b pass H0 Ha Hb)
    as (passed & Hrun & _).
  exists passed. exact Hrun.
Qed.

Lemma read_into_length (dst src : list float) (n : Z) :
  0 <= n -> n <= Z.of_nat (length src) ->
  n <= Z.of_nat (length (read_into dst src n)).
Proof.
  intros H0 Hn. unfold read_into.
  rewrite length_app, length_firstn, length_skipn. lia.
Qed.

(** The [while] loop that grows [localWorkSize] ends within the tests it
    is given, the vector size being positive. *)
Lemma grow_localWorkSize_ends (BLOCK_SIZE VECTOR_SIZE maxLocal : Z) :
  0 < VECTOR_SIZE ->
  forall (fuel : nat) (localWorkSize : Z),
    BLOCK_SIZE - localWorkSize <= Z.of_nat fuel ->
    exists r,
      grow_localWorkSize BLOCK_SIZE VECTOR_SIZE (S fuel) localWorkSize maxLocal
      = Some r.
Proof.
  intros Hv. induction fuel as [|fuel IH]; intros lws Hle.
  - cbn [grow_localWorkSize].
    destruct ((lws + VECTOR_SIZE <=? maxLocal)
              && (lws + VECTOR_SIZE <=? BLOCK_SIZE)) eqn:E.
    + apply andb_true_iff in E. destruct E as [_ E].
      apply Z.leb_le in E. lia.
    + eexists. reflexivity.
  - remember (S fuel) as f eqn:Hf. cbn [grow_localWorkSize].
    destruct ((lws + VECTOR_SIZE <=? maxLocal)
              && (lws + VECTOR_SIZE <=? BLOCK_SIZE)) eqn:E.
    + subst f. apply IH. apply andb_true_iff in E. destruct E as [_ E].
      apply Z.leb_le in E. lia.
    + eexists. reflexivity.
Qed.

(** ** The test functions *)

Close Scope opt_scope.

Ltac wp_intro :=
  let w' := fresh "w" in
  let Hw' := fresh "Hw" in
  intros w' Hw'; cbv beta.

Ltac wp_side := cbn; try reflexivity; try exact I; auto.

Ltac wp_prim :=
  lazymatch goal with
  | |- wp (ret _) _ _ _ => apply wp_ret; cbv beta
  | |- wp clFinish _ _ _ => apply wp_ret; cbv beta
  | |- wp (StartEndRuntime _) _ _ _ => unfold StartEndRuntime at 1; wp_prim
  | |- wp (emit _) _ _ ?w =>
      match goal with
      | Hw : after _ _ _ w |- _ =>
          eapply after_emit; [exact Hw | wp_side | exact I | clear Hw; wp_intro]
      end
  | |- wp (alloc _) _ _ ?w =>
      match goal with
      | Hw : after _ _ _ w |- _ =>
          eapply after_alloc;
          [exact Hw | intros ?; wp_side | clear Hw; intros ?; wp_intro]
      end
  | |- wp (release _) _ _ ?w =>
      match goal with
      | Hw : after _ _ _ w |- _ =>
          eapply after_release; [exact Hw | wp_side | clear Hw; wp_intro]
      end
  | |- wp (query _) _ _ ?w =>
      match goal with
      | Hw : after _ _ _ w |- _ =>
          eapply (@after_query _ _ _ _ _ _ (fun _ => True));
          [exact Hw | intros ?; exact I
          | clear Hw;
            let a := fresh "a" in
            let w' := fresh "w" in
            let Hw' := fresh "Hw" in
            intros a w' _ Hw'; cbv beta]
      end
  end.

Ltac wp_step :=
  lazymatch goal with
  | |- wp (bind _ _) _ _ _ => apply wp_bind; wp_prim
  | |- _ => wp_prim
  end.

Section Drivers.

Variables BLOCK_SIZE VECTOR_SIZE : Z.
Variable B : backend.
Hypothesis Hvector : 0 < VECTOR_SIZE.

Variables (numRows : Z) (refOut : list float).
Hypothesis Hrows : 0 <= numRows.
Hypothesis HrefOut : numRows <= Z.of_nat (length refOut).
Hypothesis Hdevice : forall n, numRows <= Z.of_nat (length (device_out B n)).

(** The creation and the build of the program, the first two calls of a
    test function. *)
Lemma wp_program {A : Type} (phi : event -> Prop) (b : kernel_id -> Z)
  (flags : string) (k : nat -> Z -> M A) Q R w :
  (forall id, phi (EvAlloc id Program)) ->
  (forall err, phi (EvBuild flags err)) ->
  (forall prog err w',
     after w (running phi b) (fun _ => True) w' -> wp (k prog err) Q R w') ->
  wp (prog <- clCreateProgramWithSource ;;
      err <- clBuildProgram B flags ;;
      k prog err) Q R w.
Proof.
  intros Ha Hb Hk.
  unfold wp, bind, clCreateProgramWithSource, clBuildProgram, alloc, query,
    emit, ret. cbn.
  apply Hk. eexists [_; _]. cbn [log h_out]. split; [reflexivity|].
  split; [|exact I]. repeat split.
  - intros k0 size pass [Hin | [Hin | []]]; discriminate.
  - repeat constructor; auto.
  - exists [], flags. eexists _, _. reflexivity.
  - intros k0 pass name atts units value [Hin | [Hin | []]]; discriminate.
Qed.

(** The read-back of [numRows] floats and the verification after it. *)
Lemma wp_read_verify {A : Type} (w0 : world) (phi : event -> Prop)
  (b : kernel_id -> Z) (H : list float -> Prop) (k : kernel_id) (pass : Z)
  (rest : double -> M A) Q (R : world -> Prop) w :
  after w0 (running phi b) H w ->
  phi (EvRead "d_out" (numRows * sizeof_float)) ->
  (forall passed, phi (EvVerify k numRows pass passed)) ->
  b k <= pass ->
  (forall w', after w0 (ended phi) (fun _ => True) w' -> R w') ->
  (forall t w', after w0 (running phi b) (fun _ => True) w' ->
                wp (rest t) Q R w') ->
  wp (clEnqueueReadBuffer B "d_out" (numRows * sizeof_float) ;;;
      clFinish ;;;
      oTransferTime <- StartEndRuntime B ;;
      passed <- verify k refOut numRows pass ;;
      (if negb passed then Return else ret tt) ;;;
      rest oTransferTime) Q R w.
Proof.
  intros Hw Hread Hver Hb HR Hrest.
  unfold clEnqueueReadBuffer, StartEndRuntime, verify, clFinish.
  apply wp_bind. apply wp_bind.
  eapply after_emit;
    [exact Hw | exact Hread | exact I | clear Hw; intros w1 Hw1; cbv beta].
  apply wp_bind.
  eapply (@after_query _ _ _ _ _ _ (fun d => numRows <= Z.of_nat (length d)));
    [exact Hw1 | exact Hdevice
    | clear Hw1; intros data w2 Hdata Hw2; cbv beta].
  apply wp_bind.
  eapply after_get_h_out; [exact Hw2 | intros h _; cbv beta].
  eapply (@after_set_h_out _ _ _ _ (fun h => numRows <= Z.of_nat (length h)));
    [exact Hw2 | | clear Hw2; intros w3 Hw3; cbv beta].
  { unfold sizeof_float. rewrite Z.div_mul by lia.
    apply read_into_length; [exact Hrows | exact Hdata]. }
  apply wp_bind. apply wp_ret. cbv beta.
  apply wp_bind.
  eapply (@after_query _ _ _ _ _ _ (fun _ => True));
    [exact Hw3 | intros n; exact I
    | clear Hw3; intros oTransferTime w4 _ Hw4; cbv beta].
  apply wp_bind. apply wp_bind.
  eapply after_get_h_out; [exact Hw4 | intros h' Hh; cbv beta].
  destruct (@verifyResults_returns refOut h' numRows pass Hrows HrefOut Hh)
    as (passed & Hpassed).
  apply wp_bind. eapply wp_lift; [exact Hpassed|]. cbv beta.
  destruct Hw4 as (l & Hl & Hrun & _).
  destruct passed.
  - unfold wp, bind, emit, ret. cbn. apply Hrest.
    eexists (_ :: l). cbn [log h_out]. rewrite Hl.
    split; [reflexivity|]. split; [|exact I].
    apply running_plain; [exact Hrun | apply Hver | exact I].
  - unfold wp, bind, emit, ret, Return. cbn. apply HR.
    eexists (_ :: l). cbn [log h_out]. rewrite Hl.
    split; [reflexivity|]. split; [|exact I].
    eapply ended_failed; [exact Hrun | apply Hver | exact Hb].
Qed.

(** The timed dispatches of one pass. *)
Lemma wp_dispatches {A : Type} (w0 : world) (phi : event -> Prop)
  (b : kernel_id -> Z) (H : list float -> Prop) (k : kernel_id)
  (globalWorkSize localWorkSize iters : Z) (rest : double -> M A) Q R w :
  after w0 (running phi b) H w ->
  phi (EvDispatch k globalWorkSize localWorkSize) ->
  (forall t w', after w0 (running phi b) H w' -> wp (rest t) Q R w') ->
  wp (t <- forM 0 iters
             (fun j t =>
                clEnqueueNDRangeKernel k globalWorkSize localWorkSize ;;;
                clFinish ;;;
                dt <- StartEndRuntime B ;;
                ret (F64.add t dt))
             (F64.of_Z 0) ;;
      rest t) Q R w.
Proof.
  intros Hw Hphi Hrest. apply wp_bind.
  apply (@wp_forM _ _ (fun _ _ w' => after w0 (running phi b) H w')).
  - exact Hw.
  - intros j t w' _ Hw'.
    unfold clEnqueueNDRangeKernel, clFinish, StartEndRuntime.
    apply wp_bind.
    eapply after_emit;
      [exact Hw' | exact Hphi | exact I | clear Hw'; intros w1 Hw1; cbv beta].
    apply wp_bind. apply wp_ret. cbv beta.
    apply wp_bind.
    eapply (@after_query _ _ _ _ _ _ (fun _ => True));
      [exact Hw1 | intros n; exact I | clear Hw1; intros dt w2 _ Hw2; cbv beta].
    apply wp_ret. exact Hw2.
  - intros t w' Hw'. apply Hrest. exact Hw'.
Qed.

(** One loop of passes: in pass [j] the dispatches, the read-back, the
    verification and, when it passed, the two results. *)
Lemma wp_passes {A : Type} (w0 : world) (phi : event -> Prop)
  (base : kernel_id -> Z) (k : kernel_id)
  (globalWorkSize localWorkSize : Z)
  (name name' : string) (atts : string) (value value' : double -> double -> double)
  (rest : M A) Q (R : world -> Prop) w :
  after w0 (running phi (bound_at k 0 base)) (fun _ => True) w ->
  phi (EvDispatch k globalWorkSize localWorkSize) ->
  phi (EvRead "d_out" (numRows * sizeof_float)) ->
  (forall pass passed, phi (EvVerify k numRows pass passed)) ->
  (forall pass nm v, phi (EvAddResult k pass nm atts "Gflop/s" v)) ->
  (forall w', after w0 (ended phi) (fun _ => True) w' -> R w') ->
  (forall w',
     after w0 (running phi (bound_at k (Z.max 0 (opt_passes B)) base))
       (fun _ => True) w' -> wp rest Q R w') ->
  wp (forM 0 (opt_passes B)
        (fun pass _ =>
           t <- forM 0 (opt_iterations B)
                  (fun j t =>
                     clEnqueueNDRangeKernel k globalWorkSize localWorkSize ;;;
                     clFinish ;;;
                     dt <- StartEndRuntime B ;;
                     ret (F64.add t dt))
                  (F64.of_Z 0) ;;
           clEnqueueReadBuffer B "d_out" (numRows * sizeof_float) ;;;
           clFinish ;;;
           oTransferTime <- StartEndRuntime B ;;
           passed <- verify k refOut numRows pass ;;
           (if negb passed then Return else ret tt) ;;;
           AddResult k pass name atts "Gflop/s" (value t oTransferTime) ;;;
           AddResult k pass name' atts "Gflop/s" (value' t oTransferTime))
        tt ;;;
      rest) Q R w.
Proof.
  intros Hw Hdisp Hread Hver Hres HR Hrest. apply wp_bind.
  apply (@wp_forM _ _
           (fun pass _ w' =>
              after w0 (running phi (bound_at k pass base)) (fun _ => True) w')).
  - exact Hw.
  - intros pass [] w1 Hpass Hw1.
    eapply wp_dispatches; [exact Hw1 | exact Hdisp | intros t w2 Hw2].
    eapply wp_read_verify;
      [exact Hw2 | exact Hread | intros passed; apply Hver
      | unfold bound_at; destruct k; cbn; lia
      | exact HR | intros o w3 Hw3].
    unfold AddResult. apply wp_bind.
    eapply (@after_result _ _ _ _ (bound_at k (pass + 1) base));
      [exact Hw3 | apply Hres
      | unfold bound_at; destruct k; cbn; lia
      | intros k'; unfold bound_at; destruct (kernel_eqb k' k); lia
      | clear Hw3; intros w4 Hw4; cbv beta].
    eapply (@after_result _ _ _ _ (bound_at k (pass + 1) base));
      [exact Hw4 | apply Hres
      | unfold bound_at; destruct k; cbn; lia
      | intros k'; lia
      | clear Hw4; intros w5 Hw5; exact Hw5].
  - intros [] w' Hw'. cbv beta. apply Hrest. exact Hw'.
Qed.

(** The three places where a test function asks whether the device has
    images. *)
Lemma wp_imgHeight (images : bool) (maxImgWidth : Z)
  (Q : Z -> world -> Prop) (R : world -> Prop) w :
  (images = true -> maxImgWidth <> 0) ->
  Q (if images then (numRows + maxImgWidth - 1) / maxImgWidth else 0) w ->
  wp (if images then lift (imgHeight_of numRows maxImgWidth) else ret 0)
    Q R w.
Proof.
  intros Himg HQ. destruct images; [|exact HQ].
  unfold imgHeight_of. destruct (maxImgWidth =? 0) eqn:E.
  - apply Z.eqb_eq in E. exfalso. exact (Himg eq_refl E).
  - exact HQ.
Qed.

Lemma wp_if_alloc (w0 : world) (phi : event -> Prop) (b : kernel_id -> Z)
  (H : list float -> Prop) (c : bool) (r1 r2 : resource)
  (Q : nat -> world -> Prop) (R : world -> Prop) w :
  after w0 (running phi b) H w ->
  (forall id, phi (EvAlloc id r1)) ->
  (forall id, phi (EvAlloc id r2)) ->
  (forall id w', after w0 (running phi b) H w' -> Q id w') ->
  wp (if c then alloc r1 else alloc r2) Q R w.
Proof.
  intros Hw H1 H2 HQ.
  destruct c; eapply after_alloc; eauto.
Qed.

Lemma wp_if_emit (w0 : world) (phi : event -> Prop) (b : kernel_id -> Z)
  (H : list float -> Prop) (c : bool) (e1 e2 : event)
  (Q : unit -> world -> Prop) (R : world -> Prop) w :
  after w0 (running phi b) H w ->
  phi e1 -> plain e1 -> phi e2 -> plain e2 ->
  (forall w', after w0 (running phi b) H w' -> Q tt w') ->
  wp (if c then emit e1 else emit e2) Q R w.
Proof.
  intros Hw H1 P1 H2 P2 HQ.
  destruct c; eapply after_emit; eauto.
Qed.

Lemma csrTest_ended (flags : string) (h_val : list float)
  (h_cols h_rowDelimiters : list Z) (h_vec : list float) (nnz : Z)
  (padded : bool) (maxImgWidth : Z) (images : bool) (w : world) :
  (images = true -> maxImgWidth <> 0) ->
  wp (csrTest BLOCK_SIZE VECTOR_SIZE B flags h_val h_cols h_rowDelimiters
        h_vec numRows nnz refOut padded maxImgWidth images)
     (fun _ => after w (ended (csr_sizes VECTOR_SIZE numRows nnz)) (fun _ => True))
     (after w (ended (csr_sizes VECTOR_SIZE numRows nnz)) (fun _ => True)) w.
Proof.
  intros Himg. unfold csrTest. cbv zeta.
  apply (@wp_program _ (csr_sizes VECTOR_SIZE numRows nnz)
           (bound_at CsrScalar 0 (fun _ => 0)));
    [intros; exact I | intros; exact I |].
  intros prog err w1 Hw1.
  apply wp_bind. destruct (negb (err =? CL_SUCCESS)).
  { unfold cout. do 2 wp_step. apply wp_Return.
    eapply after_ended; eassumption. }
  apply wp_ret. cbv beta.
  unfold clCreateBuffer, clCreateImage2D, clEnqueueWriteBuffer,
    clEnqueueWriteImage, cout, clCreateKernel, clSetKernelArg,
    getMaxWorkGroupSize, AddResult, csr_release.
  do 2 wp_step.
  apply wp_bind. apply wp_imgHeight; [exact Himg|].
  apply wp_bind.
  eapply wp_if_alloc;
    [eassumption | intros; exact I | intros; cbn; reflexivity |].
  match goal with Hw : after _ _ _ _ |- _ => clear Hw end.
  intros d_vec wa Hwa. cbv beta.
  do 4 wp_step.
  apply wp_bind.
  eapply wp_if_emit;
    [eassumption | exact I | exact I | cbn; reflexivity | exact I |].
  match goal with Hw : after _ _ _ _ |- _ => clear Hw end.
  intros wb Hwb. cbv beta.
  do 21 wp_step.
  eapply (@wp_passes _ w _ (fun _ => 0) CsrScalar);
    [eassumption | cbn; reflexivity | cbn; auto
    | intros; cbn; reflexivity | intros; cbn; reflexivity
    | intros wf Hf; exact Hf | ].
  match goal with Hw : after _ _ _ _ |- _ => clear Hw end.
  intros wc Hwc.
  do 2 wp_step. unfold getMaxWorkGroupSize. wp_step.
  apply wp_bind.
  match goal with |- wp (if ?c then _ else _) _ _ _ => destruct c end.
  { do 2 wp_step. apply wp_bind. do 8 wp_step. cbv beta.
    apply wp_Return. eapply after_ended; eassumption. }
  apply wp_ret. cbv beta. apply wp_bind.
  match goal with
  | |- context [grow_localWorkSize _ _ _ _ ?m] =>
      destruct (@grow_localWorkSize_ends BLOCK_SIZE VECTOR_SIZE m Hvector
                  (Z.to_nat BLOCK_SIZE) VECTOR_SIZE ltac:(lia)) as (r & Hr)
  end.
  eapply wp_lift; [exact Hr|]. cbv beta.
  match goal with
  | Hw : after _ _ _ _ |- _ =>
      apply (@after_weaken _ _ _ _
               (bound_at CsrVector 0
                  (bound_at CsrScalar (Z.max 0 (opt_passes B)) (fun _ => 0))))
        in Hw; [|intros k'; destruct k'; cbn; lia]
  end.
  eapply (@wp_passes _ w _
            (bound_at CsrScalar (Z.max 0 (opt_passes B)) (fun _ => 0))
            CsrVector);
    [eassumption | cbn; reflexivity | cbn; auto
    | intros; cbn; reflexivity | intros; cbn; reflexivity
    | intros wf Hf; exact Hf | ].
  match goal with Hw : after _ _ _ _ |- _ => clear Hw end.
  intros wd Hwd.
  do 8 wp_step. eapply after_ended; eassumption.
Qed.

Lemma ellPackTest_ended (toColMajor : convertToColMajor_t) (flags : string)
  (h_val : list float) (h_cols h_rowDelimiters : list Z)
  (h_vec : list float) (nnz : Z) (padded : bool)
  (paddedSize maxImgWidth : Z) (images : bool) (w : world) :
  (images = true -> maxImgWidth <> 0) ->
  ellPack_setup toColMajor h_val h_cols h_rowDelimiters numRows padded
    paddedSize <> None ->
  wp (ellPackTest BLOCK_SIZE B toColMajor flags h_val h_cols h_rowDelimiters
        h_vec numRows nnz refOut padded paddedSize maxImgWidth images)
     (fun _ => after w (ended (ell_sizes numRows)) (fun _ => True))
     (after w (ended (ell_sizes numRows)) (fun _ => True)) w.
Proof.
  intros Himg Hsetup. unfold ellPackTest. cbv zeta.
  apply (@wp_program _ (ell_sizes numRows)
           (bound_at Ellpackr 0 (fun _ => 0)));
    [intros; exact I | intros; exact I |].
  intros prog err w1 Hw1.
  unfold CL_CHECK_ERROR, cout.
  destruct (negb (err =? CL_SUCCESS)).
  { wp_step. apply wp_bind. do 2 wp_step. apply wp_Return.
    eapply after_ended; eassumption. }
  apply wp_bind. apply wp_ret. cbv beta.
  apply wp_bind. apply wp_ret. cbv beta.
  unfold clCreateBuffer, clCreateImage2D, clEnqueueWriteBuffer,
    clEnqueueWriteImage, clCreateKernel, clSetKernelArg, AddResult.
  wp_step.
  apply wp_bind.
  destruct (ellPack_setup toColMajor h_val h_cols h_rowDelimiters numRows
              padded paddedSize) as [E|] eqn:HE; [|contradiction].
  eapply wp_lift; [reflexivity|]. cbv beta.
  do 4 wp_step.
  apply wp_bind. apply wp_imgHeight; [exact Himg|].
  apply wp_bind.
  eapply wp_if_alloc; [eassumption | intros; exact I | intros; exact I |].
  match goal with Hw : after _ _ _ _ |- _ => clear Hw end.
  intros d_vec wa Hwa. cbv beta.
  do 4 wp_step.
  apply wp_bind.
  eapply wp_if_emit; [eassumption | exact I | exact I | exact I | exact I |].
  match goal with Hw : after _ _ _ _ |- _ => clear Hw end.
  intros wb Hwb. cbv beta.
  do 13 wp_step.
  eapply (@wp_passes _ w _ (fun _ => 0) Ellpackr);
    [eassumption | exact I | cbn; auto
    | intros; cbn; reflexivity | intros; exact I
    | intros wf Hf; exact Hf | ].
  match goal with Hw : after _ _ _ _ |- _ => clear Hw end.
  intros wc Hwc.
  do 8 wp_step. eapply after_ended; eassumption.
Qed.

End Drivers.


(** ** RunTest *)

Section Track.

Variable w0 : world.
Variables psi psi' : list event -> Prop.
Variable H : list float -> Prop.

Lemma track_emit (e : event) Q R w :
  after w0 psi H w ->
  (forall l, psi l -> psi' (e :: l)) ->
  (forall w', after w0 psi' H w' -> Q tt w') ->
  wp (emit e) Q R w.
Proof.
  intros (l & Hl & Hp & Hh) Hstep HQ. unfold wp, emit. apply HQ.
  exists (e :: l). cbn [log h_out]. rewrite Hl.
  split; [reflexivity|]. split; [apply Hstep; exact Hp | exact Hh].
Qed.

Lemma track_alloc (r : resource) Q R w :
  after w0 psi H w ->
  (forall id l, psi l -> psi' (EvAlloc id r :: l)) ->
  (forall id w', after w0 psi' H w' -> Q id w') ->
  wp (alloc r) Q R w.
Proof.
  intros (l & Hl & Hp & Hh) Hstep HQ. unfold wp, alloc. apply HQ.
  eexists (_ :: l). cbn [log h_out]. rewrite Hl.
  split; [reflexivity|]. split; [apply Hstep; exact Hp | exact Hh].
Qed.

Lemma track_release (id : nat) Q R w :
  after w0 psi H w ->
  (forall l, psi l -> psi' (EvFree id :: l)) ->
  (forall w', after w0 psi' H w' -> Q tt w') ->
  wp (release id) Q R w.
Proof.
  intros (l & Hl & Hp & Hh) Hstep HQ. unfold wp, release. apply HQ.
  eexists (_ :: l). cbn [log h_out]. rewrite Hl.
  split; [reflexivity|]. split; [apply Hstep; exact Hp | exact Hh].
Qed.

Lemma track_query {A : Type} (f : nat -> A) Q R w :
  after w0 psi H w ->
  (forall w', after w0 psi H w' -> Q (f (now w)) w') ->
  wp (query f) Q R w.
Proof.
  intros (l & Hl & Hp & Hh) HQ. unfold wp, query. apply HQ.
  exists l. cbn [log h_out]. auto.
Qed.

Lemma track_set_h_out (a : list float) Q R w :
  after w0 psi H w ->
  (forall w', after w0 psi (fun _ => True) w' -> Q tt w') ->
  wp (set_h_out a) Q R w.
Proof.
  intros (l & Hl & Hp & Hh) HQ. unfold wp, set_h_out. apply HQ.
  exists l. cbn [log h_out]. auto.
Qed.

(** A call of a test function that ends with [ended phi]. *)
Lemma track_call (phi : event -> Prop) (m : M unit) Q R w :
  after w0 psi H w ->
  wp m (fun _ => after w (ended phi) (fun _ => True))
       (after w (ended phi) (fun _ => True)) w ->
  (forall w',
     after w0 (fun l => exists l1 l0, l = l1 ++ l0 /\ ended phi l1 /\ psi l0)
       (fun _ => True) w' -> Q tt w') ->
  wp (call m) Q R w.
Proof.
  intros (l & Hl & Hp & Hh) Hm HQ. unfold wp, call. unfold wp in Hm.
  destruct (m w) as [a w'|w'|]; [| |contradiction].
  - apply HQ. destruct Hm as (l1 & Hl1 & He & _).
    exists (l1 ++ l). rewrite Hl1, Hl, app_assoc.
    split; [reflexivity|]. split; [|exact I]. exists l1, l. auto.
  - apply HQ. destruct Hm as (l1 & Hl1 & He & _).
    exists (l1 ++ l). rewrite Hl1, Hl, app_assoc.
    split; [reflexivity|]. split; [|exact I]. exists l1, l. auto.
Qed.

End Track.

Lemma track_emit_cons (w0 : world) (psi : list event -> Prop)
  (H : list float -> Prop) (e : event) Q R w :
  after w0 psi H w ->
  (forall w', after w0 (fun l => exists l0, l = e :: l0 /\ psi l0) H w' ->
              Q tt w') ->
  wp (emit e) Q R w.
Proof.
  intros Hw HQ. eapply track_emit; [exact Hw | | exact HQ].
  intros l Hl. exists l. split; [reflexivity | exact Hl].
Qed.

Lemma wp_conseq {A : Type} (m : M A) (Q' Q : A -> world -> Prop)
  (R : world -> Prop) w :
  wp m Q' R w -> (forall a w', Q' a w' -> Q a w') -> wp m Q R w.
Proof. intros Hm HQ. eapply wp_mono; [exact Hm | exact HQ | auto]. Qed.

Lemma run_shape_cons phi1 phi2 phi3 pre e l :
  run_shape phi1 phi2 phi3 pre l -> run_shape phi1 phi2 phi3 pre (e :: l).
Proof.
  intros (l_post & l_ell & l_pad & l_csr & l_pre & Hl & H1 & H2 & H3 & Hp).
  exists (e :: l_post), l_ell, l_pad, l_csr, l_pre. rewrite Hl.
  exact (conj eq_refl (conj H1 (conj H2 (conj H3 Hp)))).
Qed.

Section RunTestShape.

Variables PAD_FACTOR BLOCK_SIZE VECTOR_SIZE : Z.
Variable B : backend.
Variable toColMajor : convertToColMajor_t.
Variable convertToPadded :
  list float -> list Z -> Z -> list Z -> list float * list Z * list Z * Z.
Variables (h_val : list float) (h_cols h_rowDelimiters : list Z).
Variables (nItems numRows : Z) (h_vec refOut : list float).

Hypothesis Hvector : 0 < VECTOR_SIZE.
Hypothesis Hrows : 0 <= numRows.
Hypothesis HrefOut : numRows <= Z.of_nat (length refOut).
Hypothesis Hdevice : forall n, numRows <= Z.of_nat (length (device_out B n)).
Hypothesis Hsetup :
  ellPack_setup toColMajor h_val h_cols h_rowDelimiters numRows false
    (paddedSize PAD_FACTOR numRows) <> None.

(** The three tests of one branch of RunTest. *)
Lemma wp_tests (w0 : world) (pre : list event -> Prop)
  (H : list float -> Prop) (flags : string)
  (h_valPad : list float) (h_colsPad h_rowDelimitersPad : list Z)
  (nItemsPadded maxImgWidth : Z) (images : bool)
  (Q : unit -> world -> Prop) (R : world -> Prop) w :
  (images = true -> maxImgWidth <> 0) ->
  after w0 pre H w ->
  (forall w',
     after w0 (run_shape (csr_sizes VECTOR_SIZE numRows nItems)
                 (csr_sizes VECTOR_SIZE numRows nItemsPadded)
                 (ell_sizes numRows) pre) (fun _ => True) w' ->
     Q tt w') ->
  wp (cout "CSR Test" ;;;
      call (csrTest BLOCK_SIZE VECTOR_SIZE B flags h_val h_cols
              h_rowDelimiters h_vec numRows nItems refOut false maxImgWidth
              images) ;;;
      cout "CSR Test -- Padded Data" ;;;
      call (csrTest BLOCK_SIZE VECTOR_SIZE B flags h_valPad h_colsPad
              h_rowDelimitersPad h_vec numRows nItemsPadded refOut true
              maxImgWidth images) ;;;
      cout "ELLPACKR Test" ;;;
      call (ellPackTest BLOCK_SIZE B toColMajor flags h_val h_cols
              h_rowDelimiters h_vec numRows nItems refOut false
              (paddedSize PAD_FACTOR numRows) maxImgWidth images)) Q R w.
Proof.
  intros Himg Hw HQ. unfold cout.
  apply wp_bind.
  eapply track_emit_cons; [exact Hw|].
  clear Hw. intros w1 Hw1. cbv beta.
  apply wp_bind.
  eapply track_call;
    [exact Hw1 | apply csrTest_ended; assumption |].
  clear Hw1. intros w2 Hw2. cbv beta.
  apply wp_bind.
  eapply track_emit_cons; [exact Hw2|].
  clear Hw2. intros w3 Hw3. cbv beta.
  apply wp_bind.
  eapply track_call;
    [exact Hw3 | apply csrTest_ended; assumption |].
  clear Hw3. intros w4 Hw4. cbv beta.
  apply wp_bind.
  eapply track_emit_cons; [exact Hw4|].
  clear Hw4. intros w5 Hw5. cbv beta.
  eapply track_call;
    [exact Hw5 | apply ellPackTest_ended; assumption |].
  clear Hw5. intros w6 Hw6. apply HQ.
  destruct Hw6 as (l & Hl & Hs & _). exists l. split; [exact Hl|].
  split; [|exact I].
  destruct Hs as (l_ell & l5 & -> & Hell & l4 & -> & l_pad & l3 & -> & Hpad
                  & l2 & -> & l_csr & l1 & -> & Hcsr & l_pre & -> & Hpre).
  exists [], l_ell, l_pad, l_csr, l_pre. cbn [app].
  exact (conj eq_refl (conj Hcsr (conj Hpad (conj Hell Hpre)))).
Qed.

End RunTestShape.

Lemma allocates_cons (n : Z) (e : event) (l : list event) :
  allocates_rowDelimitersPad n l -> allocates_rowDelimitersPad n (e :: l).
Proof. intros (id & Hin). exists id. right. exact Hin. Qed.

Section RunTestRuns.

Variables PAD_FACTOR BLOCK_SIZE VECTOR_SIZE : Z.
Variable B : backend.
Variable toColMajor : convertToColMajor_t.
Variable convertToPadded :
  list float -> list Z -> Z -> list Z -> list float * list Z * list Z * Z.
Variables (h_val : list float) (h_cols h_rowDelimiters : list Z).
Variables (nItems numRows : Z) (h_vec : list float).

Hypothesis Hvector : 0 < VECTOR_SIZE.
Hypothesis Hcsr :
  csr_invariant h_val h_cols h_rowDelimiters numRows
    (Z.of_nat (length h_vec)).
Hypothesis Hdevice : forall n, numRows <= Z.of_nat (length (device_out B n)).
Hypothesis Hwidth : forall n, image2d_max_width B n <> 0.
Hypothesis Hsetup :
  ellPack_setup toColMajor h_val h_cols h_rowDelimiters numRows false
    (paddedSize PAD_FACTOR numRows) <> None.

(** RunTest runs to its end, and its events have the shape of
    [run_shape]: each of the three tests is entered and ends as a test
    function does. *)
Lemma RunTest_shape (flags : string) (w0 : world) :
  wp (RunTest PAD_FACTOR BLOCK_SIZE VECTOR_SIZE B toColMajor convertToPadded
        flags h_val h_cols h_rowDelimiters nItems numRows h_vec)
     (fun _ =>
        after w0
          (run_shape (csr_sizes VECTOR_SIZE numRows nItems)
             (csr_sizes VECTOR_SIZE numRows
                (snd (convertToPadded h_val h_cols numRows h_rowDelimiters)))
             (ell_sizes numRows)
             (allocates_rowDelimitersPad (numRows + 1)))
          (fun _ => True))
     (fun _ => False) w0.
Proof.
  pose proof (csr_rows Hcsr) as Hrows.
  assert (Hw0 : after w0 (fun _ => True) (fun _ => True) w0).
  { exists []. auto. }
  unfold RunTest. cbv zeta.
  apply wp_bind. eapply track_query; [exact Hw0|].
  clear Hw0. intros w1 Hw1. cbv beta.
  apply wp_bind. eapply track_query; [exact Hw1|].
  pose proof (Hwidth (now w1)) as Hmw.
  set (maxImgWidth := image2d_max_width B (now w1)) in *.
  clear Hw1. intros w2 Hw2. cbv beta.
  apply wp_bind. eapply track_query; [exact Hw2|].
  clear Hw2. intros w3 Hw3. cbv beta.
  apply wp_bind.
  apply (@wp_conseq _ _
           (fun _ w' => after w0 (fun _ => True) (fun _ => True) w')).
  { destruct (negb (_ =? CL_SUCCESS)).
    - unfold cout. apply wp_bind.
      eapply (@track_emit _ _ (fun _ => True));
        [exact Hw3 | intros; exact I |].
      intros w4 Hw4. cbv beta. apply wp_bind.
      eapply (@track_emit _ _ (fun _ => True));
        [exact Hw4 | intros; exact I |].
      intros w5 Hw5. apply wp_ret. exact Hw5.
    - apply wp_ret. exact Hw3. }
  clear Hw3. intros images0 w4 Hw4.
  apply wp_bind.
  eapply (@track_alloc _ _ (fun _ => True)); [exact Hw4 | intros; exact I |].
  clear Hw4. intros p_val w5 Hw5. cbv beta.
  apply wp_bind.
  eapply (@track_alloc _ _ (fun _ => True)); [exact Hw5 | intros; exact I |].
  clear Hw5. intros p_cols w6 Hw6. cbv beta.
  apply wp_bind.
  eapply (@track_alloc _ _ (fun _ => True)); [exact Hw6 | intros; exact I |].
  clear Hw6. intros p_rowDelimiters w7 Hw7. cbv beta.
  apply wp_bind. unfold imgHeight_of.
  destruct (maxImgWidth =? 0) eqn:E; [apply Z.eqb_eq in E; contradiction|].
  eapply wp_lift; [reflexivity|]. cbv beta.
  apply wp_bind. eapply track_query; [exact Hw7|].
  clear Hw7. intros w8 Hw8. cbv beta.
  apply wp_bind.
  apply (@wp_conseq _ _
           (fun _ w' => after w0 (fun _ => True) (fun _ => True) w')).
  { destruct (negb (_ =? CL_SUCCESS)).
    - apply wp_ret. exact Hw8.
    - unfold clCreateImage2D. apply wp_bind.
      eapply (@track_alloc _ _ (fun _ => True));
        [exact Hw8 | intros; exact I |].
      intros d_vec w9 Hw9. cbv beta. apply wp_bind.
      eapply (@track_release _ _ (fun _ => True));
        [exact Hw9 | intros; exact I |].
      intros w10 Hw10. apply wp_ret. exact Hw10. }
  clear Hw8. intros images w9 Hw9.
  apply wp_bind.
  eapply (@track_alloc _ _ (fun _ => True)); [exact Hw9 | intros; exact I |].
  clear Hw9. intros p_vec w10 Hw10. cbv beta.
  apply wp_bind.
  eapply (@track_alloc _ _ (fun _ => True)); [exact Hw10 | intros; exact I |].
  clear Hw10. intros p_refOut w11 Hw11. cbv beta.
  apply wp_bind.
  eapply (@track_alloc _ _ (allocates_rowDelimitersPad (numRows + 1)));
    [exact Hw11 | intros id l _; exists id; left; reflexivity |].
  clear Hw11. intros p_rowDelimitersPad w12 Hw12. cbv beta.
  apply wp_bind.
  eapply (@track_alloc _ _ (allocates_rowDelimitersPad (numRows + 1)));
    [exact Hw12 | intros id l; apply allocates_cons |].
  clear Hw12. intros p_out w13 Hw13. cbv beta.
  apply wp_bind. eapply track_set_h_out; [exact Hw13|].
  clear Hw13. intros w14 Hw14. cbv beta.
  apply wp_bind.
  eapply (@track_alloc _ _ (allocates_rowDelimitersPad (numRows + 1)));
    [exact Hw14 | intros id l; apply allocates_cons |].
  clear Hw14. intros p_valPad w15 Hw15. cbv beta.
  apply wp_bind.
  eapply (@track_alloc _ _ (allocates_rowDelimitersPad (numRows + 1)));
    [exact Hw15 | intros id l; apply allocates_cons |].
  clear Hw15. intros p_colsPad w16 Hw16. cbv beta.
  apply wp_bind.
  destruct (@spmvCpu_spec h_val h_cols h_rowDelimiters h_vec numRows
              (repeat F32.zero (Z.to_nat numRows)) Hcsr
              ltac:(rewrite repeat_length; lia))
    as (refOut & Hspmv & Hlen & _).
  eapply wp_lift; [exact Hspmv|]. cbv beta.
  assert (HrefOut : numRows <= Z.of_nat (length refOut))
    by (rewrite Hlen, repeat_length; lia).
  apply wp_bind.
  apply (@wp_conseq _ _
           (fun _ w' =>
              after w0
                (run_shape (csr_sizes VECTOR_SIZE numRows nItems)
                   (csr_sizes VECTOR_SIZE numRows
                      (snd (convertToPadded h_val h_cols numRows
                              h_rowDelimiters)))
                   (ell_sizes numRows)
                   (allocates_rowDelimitersPad (numRows + 1)))
                (fun _ => True) w')).
  { destruct images.
    - eapply wp_tests; try eassumption; [intros _; exact Hmw | auto].
    - eapply wp_tests; try eassumption; [intros Hf; discriminate | auto]. }
  clear Hw16. intros [] w17 Hw17.
  apply wp_bind.
  eapply track_release;
    [exact Hw17 | intros l; apply (@run_shape_cons _ _ _ _ _ l) |].
  clear Hw17. intros w18 Hw18. cbv beta.
  eapply track_release;
    [exact Hw18 | intros l; apply (@run_shape_cons _ _ _ _ _ l) |].
  clear Hw18. intros w19 Hw19. exact Hw19.
Qed.

End RunTestRuns.

(** ** The claims about the drivers *)

(** The 1x1 matrix [1] with the vector [1]. *)
Lemma unit_matrix_csr :
  csr_invariant [F32.of_Z 1] [0] [0; 1] 1 (Z.of_nat (length [F32.of_Z 1])).
Proof.
  constructor; try reflexivity; try (simpl; lia).
  intros i a b Hi Ha Hb. assert (i = 0) by lia. subst i.
  vm_compute in Ha, Hb. inversion Ha. inversion Hb. lia.
Defined.

(** The preconditions at the example inputs, by computation. *)
Ltac example_pre :=
  unfold RunTest_pre, csrTest_pre, ellPackTest_pre, image_fits;
  cbv zeta;
  repeat match goal with
         | |- _ /\ _ => split
         | |- forall _, _ => intro
         end;
  try match goal with
      | H : ellPack_setup _ _ _ _ _ _ _ = Some _ |- _ =>
          vm_compute in H; injection H as <-
      | H : _ = true |- _ => vm_compute in H; try discriminate H
      end;
  first [reflexivity | (vm_compute; first [reflexivity | discriminate])].

(** C5.  Where the run is defined ([RunTest_pre]: the programs build, the
    host arrays hold what the transfers read and write, the sizes are
    within [int]), in RunTest each of the three test functions is entered,
    whatever the verifications of the ones before it gave: after the line
    that announces it come the creation and the build of its program.  In
    the events of each of them a failed verification of pass [k] is the
    last event, so no result is recorded after it, and before it every
    result of the loop that failed is of a pass below [k].  The same holds
    for every single call of csrTest and of ellPackTest that is defined
    ([csrTest_pre], [ellPackTest_pre]). *)
Theorem fail_fast_per_configuration :
  forall (PAD_FACTOR BLOCK_SIZE VECTOR_SIZE : Z) (B : backend)
         (toColMajor : convertToColMajor_t)
         (convertToPadded :
            list float -> list Z -> Z -> list Z ->
            list float * list Z * list Z * Z)
         (flags : string) (h_val : list float)
         (h_cols h_rowDelimiters : list Z) (nItems numRows : Z)
         (h_vec : list float) (w0 : world),
    0 < VECTOR_SIZE ->
    csr_invariant h_val h_cols h_rowDelimiters numRows
      (Z.of_nat (length h_vec)) ->
    (forall n, numRows <= Z.of_nat (length (device_out B n))) ->
    (forall n, image2d_max_width B n <> 0) ->
    ellPack_setup toColMajor h_val h_cols h_rowDelimiters numRows false
      (paddedSize PAD_FACTOR numRows) <> None ->
    (RunTest_pre PAD_FACTOR VECTOR_SIZE B toColMajor convertToPadded h_val
       h_cols h_rowDelimiters nItems numRows h_vec w0 ->
     exists w',
       run (RunTest PAD_FACTOR BLOCK_SIZE VECTOR_SIZE B toColMajor
              convertToPadded flags h_val h_cols h_rowDelimiters nItems
              numRows h_vec) w0 = Some w' /\
       exists l_post l_ell l_pad l_csr l_pre,
         log w' = (l_post ++ l_ell ++ EvPrint "ELLPACKR Test" ::
                   l_pad ++ EvPrint "CSR Test -- Padded Data" ::
                   l_csr ++ EvPrint "CSR Test" :: l_pre) ++ log w0 /\
         (fail_fast l_csr /\ started l_csr) /\
         (fail_fast l_pad /\ started l_pad) /\
         (fail_fast l_ell /\ started l_ell)) /\
    (forall refOut nnz padded maxImgWidth images w,
       numRows <= Z.of_nat (length refOut) ->
       (images = true -> maxImgWidth <> 0) ->
       csrTest_pre VECTOR_SIZE h_val h_cols h_rowDelimiters h_vec numRows nnz
         maxImgWidth images w ->
       exists w' l,
         run (csrTest BLOCK_SIZE VECTOR_SIZE B flags h_val h_cols
                h_rowDelimiters h_vec numRows nnz refOut padded maxImgWidth
                images) w = Some w' /\
         log w' = l ++ log w /\ fail_fast l) /\
    (forall refOut nnz padded paddedSize maxImgWidth images w E,
       numRows <= Z.of_nat (length refOut) ->
       (images = true -> maxImgWidth <> 0) ->
       ellPack_setup toColMajor h_val h_cols h_rowDelimiters numRows padded
         paddedSize = Some E ->
       ellPackTest_pre B h_vec numRows paddedSize maxImgWidth images E w ->
       exists w' l,
         run (ellPackTest BLOCK_SIZE B toColMajor flags h_val h_cols
                h_rowDelimiters h_vec numRows nnz refOut padded paddedSize
                maxImgWidth images) w = Some w' /\
         log w' = l ++ log w /\ fail_fast l).
Proof.
  intros PAD_FACTOR BLOCK_SIZE VECTOR_SIZE B toColMajor convertToPadded flags
    h_val h_cols h_rowDelimiters nItems numRows h_vec w0
    Hvector Hcsr Hdevice Hwidth Hsetup.
  pose proof (csr_rows Hcsr) as Hrows.
  split; [|split].
  - intros Hpre.
    destruct (@wp_run
                (RunTest PAD_FACTOR BLOCK_SIZE VECTOR_SIZE B toColMajor
                   convertToPadded flags h_val h_cols h_rowDelimiters nItems
                   numRows h_vec)
                (after w0
                   (run_shape (csr_sizes VECTOR_SIZE numRows nItems)
                      (csr_sizes VECTOR_SIZE numRows
                         (snd (convertToPadded h_val h_cols numRows
                                 h_rowDelimiters)))
                      (ell_sizes numRows)
                      (allocates_rowDelimitersPad (numRows + 1)))
                   (fun _ => True)) w0) as (w' & Hrun & Hafter).
    { eapply wp_mono;
        [apply RunTest_shape; assumption | auto | intros w' []]. }
    exists w'. split; [exact Hrun|].
    destruct Hafter as (l & Hl & Hshape & _).
    destruct Hshape as (l_post & l_ell & l_pad & l_csr & l_pre & -> &
                        (F1 & _ & S1) & (F2 & _ & S2) & (F3 & _ & S3) & _).
    exists l_post, l_ell, l_pad, l_csr, l_pre. auto.
  - intros refOut nnz padded maxImgWidth images w HrefOut Himg Hpre.
    destruct (@wp_run
                (csrTest BLOCK_SIZE VECTOR_SIZE B flags h_val h_cols
                   h_rowDelimiters h_vec numRows nnz refOut padded maxImgWidth
                   images)
                (after w (ended (csr_sizes VECTOR_SIZE numRows nnz))
                   (fun _ => True)) w) as (w' & Hrun & l & Hl & (F & _) & _).
    { apply csrTest_ended; assumption. }
    exists w', l. auto.
  - intros refOut nnz padded paddedSize maxImgWidth images w E HrefOut Himg
      Hset Hpre.
    destruct (@wp_run
                (ellPackTest BLOCK_SIZE B toColMajor flags h_val h_cols
                   h_rowDelimiters h_vec numRows nnz refOut padded paddedSize
                   maxImgWidth images)
                (after w (ended (ell_sizes numRows)) (fun _ => True)) w)
      as (w' & Hrun & l & Hl & (F & _) & _).
    { apply ellPackTest_ended; try assumption. rewrite Hset. discriminate. }
    exists w', l. auto.
Qed.

Lemma fail_fast_per_configuration_witness :
  exists w',
    run (RunTest 32 128 32 (example_backend [F32.of_Z 2] 64) convertToColMajor
           example_convertToPadded EmptyString [F32.of_Z 1] [0] [0; 1] 1 1
           [F32.of_Z 1]) world0 = Some w'.
Proof.
  destruct (@fail_fast_per_configuration 32 128 32
              (example_backend [F32.of_Z 2] 64) convertToColMajor
              example_convertToPadded EmptyString [F32.of_Z 1] [0] [0; 1] 1 1
              [F32.of_Z 1] world0)
    as [Hrun _].
  - lia.
  - exact unit_matrix_csr.
  - intros n. simpl. lia.
  - intros n. simpl. lia.
  - vm_compute. discriminate.
  - destruct Hrun as (w' & Hrun & _); [example_pre|].
    exists w'. exact Hrun.
Defined.

(** With a device that hands back 2 where the reference is 1, the first
    pass of each of the three tests fails its verification: each test
    stops there with no result, and the next one is run all the same. *)
Example RunTest_wrong_device :
  option_map
    (fun w => filter (fun e => match e with
                               | EvPrint _ | EvVerify _ _ _ _
                               | EvAddResult _ _ _ _ _ _ => true
                               | _ => false
                               end) (log w))
    (run (RunTest 32 128 32 (example_backend [F32.of_Z 2] 64)
            convertToColMajor example_convertToPadded EmptyString [F32.of_Z 1] [0]
            [0; 1] 1 1 [F32.of_Z 1]) world0)
  = Some [EvVerify Ellpackr 1 0 false; EvPrint "ELLPACKR Test";
          EvVerify CsrScalar 1 0 false; EvPrint "CSR Scalar Kernel";
          EvPrint "CSR Test -- Padded Data";
          EvVerify CsrScalar 1 0 false; EvPrint "CSR Scalar Kernel";
          EvPrint "CSR Test"].
Proof. vm_compute. reflexivity. Qed.

(** C6.  With a device that hands back 2 where the reference is 1,
    csrTest returns at the failed verification of pass 0 with its five
    device buffers, its two kernels and its program still live, and
    ellPackTest with its five device buffers, its kernel, its program and
    its three host arrays.  The exit of csrTest for a work group size below
    32 and its regular end release all of them; the regular end of
    ellPackTest leaves [h_valcm] and [h_colscm], which its [delete[]] does
    not reach. *)
Theorem tests_leak_on_failed_verification :
  option_map (fun w => (hd_error (log w), live w))
    (run (csrTest 128 32 (example_backend [F32.of_Z 2] 64) EmptyString [F32.of_Z 1]
            [0] [0; 1] [F32.of_Z 1] 1 1 [F32.of_Z 1] false 0 false) world0)
  = Some (Some (EvVerify CsrScalar 1 0 false),
          [(7%nat, Kernel CsrVector); (6%nat, Kernel CsrScalar);
           (5%nat, Buffer "d_rowDelimiters" 8); (4%nat, Buffer "d_out" 4);
           (3%nat, Buffer "d_vec" 4); (2%nat, Buffer "d_cols" 4);
           (1%nat, Buffer "d_val" 4); (0%nat, Program)]) /\
  option_map (fun w => (hd_error (log w), live w))
    (run (ellPackTest 128 (example_backend [F32.of_Z 2] 64) convertToColMajor
            EmptyString [F32.of_Z 1] [0] [0; 1] [F32.of_Z 1] 1 1 [F32.of_Z 1] false 32
            0 false) world0)
  = Some (Some (EvVerify Ellpackr 1 0 false),
          [(9%nat, Kernel Ellpackr); (8%nat, Buffer "d_rowLengths" 4);
           (7%nat, Buffer "d_out" 128); (6%nat, Buffer "d_vec" 4);
           (5%nat, Buffer "d_cols" 4); (4%nat, Buffer "d_val" 4);
           (3%nat, HostArray "h_colscm" 1); (2%nat, HostArray "h_valcm" 1);
           (1%nat, HostArray "h_rowLengths" 32); (0%nat, Program)]) /\
  option_map live
    (run (csrTest 128 32 (example_backend [F32.of_Z 1] 16) EmptyString [F32.of_Z 1]
            [0] [0; 1] [F32.of_Z 1] 1 1 [F32.of_Z 1] false 0 false) world0)
  = Some [] /\
  option_map live
    (run (csrTest 128 32 (example_backend [F32.of_Z 1] 64) EmptyString [F32.of_Z 1]
            [0] [0; 1] [F32.of_Z 1] 1 1 [F32.of_Z 1] false 0 false) world0)
  = Some [] /\
  option_map live
    (run (ellPackTest 128 (example_backend [F32.of_Z 1] 64) convertToColMajor
            EmptyString [F32.of_Z 1] [0] [0; 1] [F32.of_Z 1] 1 1 [F32.of_Z 1] false 32
            0 false) world0)
  = Some [(3%nat, HostArray "h_colscm" 1); (2%nat, HostArray "h_valcm" 1)].
Proof. repeat split; vm_compute; reflexivity. Qed.

(** C10.  Where its run is defined ([RunTest_pre]: the programs build,
    the host arrays hold what the transfers read and write, and
    [numRows+1] and [numRows*VECTOR_SIZE] are within [int], so that the
    sizes below are the ones the source computes), RunTest runs to its
    end.  Before the tests it allocates [h_rowDelimitersPad] with
    [numRows+1] entries.  In the events of the test of the padded data, as
    in those of the test before it, every dispatch of the scalar kernel
    has the global size [numRows], every read-back has [numRows] floats
    and every verification has the length [numRows]; the sizes of the two
    tests differ in the number of entries alone, [nItems] for the one and
    the padded number for the other. *)
Theorem padded_csr_uses_numRows :
  forall (PAD_FACTOR BLOCK_SIZE VECTOR_SIZE : Z) (B : backend)
         (toColMajor : convertToColMajor_t)
         (convertToPadded :
            list float -> list Z -> Z -> list Z ->
            list float * list Z * list Z * Z)
         (flags : string) (h_val : list float)
         (h_cols h_rowDelimiters : list Z) (nItems numRows : Z)
         (h_vec : list float) (w0 : world),
    0 < VECTOR_SIZE ->
    csr_invariant h_val h_cols h_rowDelimiters numRows
      (Z.of_nat (length h_vec)) ->
    (forall n, numRows <= Z.of_nat (length (device_out B n))) ->
    (forall n, image2d_max_width B n <> 0) ->
    ellPack_setup toColMajor h_val h_cols h_rowDelimiters numRows false
      (paddedSize PAD_FACTOR numRows) <> None ->
    RunTest_pre PAD_FACTOR VECTOR_SIZE B toColMajor convertToPadded h_val
      h_cols h_rowDelimiters nItems numRows h_vec w0 ->
    exists w',
      run (RunTest PAD_FACTOR BLOCK_SIZE VECTOR_SIZE B toColMajor
             convertToPadded flags h_val h_cols h_rowDelimiters nItems
             numRows h_vec) w0 = Some w' /\
      exists l_post l_ell l_pad l_csr l_pre,
        log w' = (l_post ++ l_ell ++ EvPrint "ELLPACKR Test" ::
                  l_pad ++ EvPrint "CSR Test -- Padded Data" ::
                  l_csr ++ EvPrint "CSR Test" :: l_pre) ++ log w0 /\
        allocates_rowDelimitersPad (numRows + 1) l_pre /\
        Forall (csr_sizes VECTOR_SIZE numRows nItems) l_csr /\
        Forall (csr_sizes VECTOR_SIZE numRows
                  (snd (convertToPadded h_val h_cols numRows h_rowDelimiters)))
          l_pad /\
        started l_pad /\
        (forall g l, In (EvDispatch CsrScalar g l) l_pad -> g = numRows) /\
        (forall var bytes, In (EvRead var bytes) l_pad ->
                           bytes = numRows * sizeof_float) /\
        (forall k size pass passed,
           In (EvVerify k size pass passed) l_pad -> size = numRows).
Proof.
  intros PAD_FACTOR BLOCK_SIZE VECTOR_SIZE B toColMajor convertToPadded flags
    h_val h_cols h_rowDelimiters nItems numRows h_vec w0
    Hvector Hcsr Hdevice Hwidth Hsetup Hdefined.
  destruct (@wp_run
              (RunTest PAD_FACTOR BLOCK_SIZE VECTOR_SIZE B toColMajor
                 convertToPadded flags h_val h_cols h_rowDelimiters nItems
                 numRows h_vec)
              (after w0
                 (run_shape (csr_sizes VECTOR_SIZE numRows nItems)
                    (csr_sizes VECTOR_SIZE numRows
                       (snd (convertToPadded h_val h_cols numRows
                               h_rowDelimiters)))
                    (ell_sizes numRows)
                    (allocates_rowDelimitersPad (numRows + 1)))
                 (fun _ => True)) w0) as (w' & Hrun & Hafter).
  { eapply wp_mono;
      [apply RunTest_shape; assumption | auto | intros w' []]. }
  exists w'. split; [exact Hrun|].
  destruct Hafter as (l & Hl & Hshape & _).
  destruct Hshape as (l_post & l_ell & l_pad & l_csr & l_pre & -> &
                      (_ & P1 & _) & (_ & P2 & S2) & _ & Hpre).
  exists l_post, l_ell, l_pad, l_csr, l_pre.
  split; [exact Hl|]. split; [exact Hpre|]. split; [exact P1|].
  split; [exact P2|]. split; [exact S2|].
  rewrite Forall_forall in P2.
  split; [|split].
  - intros g l Hin. exact (P2 _ Hin).
  - intros var bytes Hin. exact (proj2 (P2 _ Hin)).
  - intros k size pass passed Hin. exact (P2 _ Hin).
Qed.

Lemma padded_csr_uses_numRows_witness :
  exists w',
    run (RunTest 32 128 32 (example_backend [F32.of_Z 2] 64) convertToColMajor
           example_convertToPadded EmptyString [F32.of_Z 1] [0] [0; 1] 1 1
           [F32.of_Z 1]) world0 = Some w'.
Proof.
  destruct (@padded_csr_uses_numRows 32 128 32
              (example_backend [F32.of_Z 2] 64) convertToColMajor
              example_convertToPadded EmptyString [F32.of_Z 1] [0] [0; 1] 1 1
              [F32.of_Z 1] world0)
    as (w' & Hrun & _).
  - lia.
  - exact unit_matrix_csr.
  - intros n. simpl. lia.
  - intros n. simpl. lia.
  - vm_compute. discriminate.
  - example_pre.
  - exists w'. exact Hrun.
Defined.

(** The test of the padded data with a matrix of one row padded to 16
    entries: the buffers of the values and of the columns have 16 entries,
    the dispatch, the read-back and the verification the one row. *)
Example RunTest_padded_sizes :
  option_map
    (fun w => filter (fun e => match e with
                               | EvAlloc _ (Buffer _ _) | EvRead _ _
                               | EvDispatch CsrScalar _ _
                               | EvVerify CsrScalar _ _ _ => true
                               | _ => false
                               end) (log w))
    (run (csrTest 128 32 (example_backend [F32.of_Z 1] 64) EmptyString
            (fst (fst (fst (example_convertToPadded [F32.of_Z 1] [0] 1 [0; 1]))))
            (snd (fst (fst (example_convertToPadded [F32.of_Z 1] [0] 1 [0; 1]))))
            (snd (fst (example_convertToPadded [F32.of_Z 1] [0] 1 [0; 1])))
            [F32.of_Z 1] 1
            (snd (example_convertToPadded [F32.of_Z 1] [0] 1 [0; 1]))
            [F32.of_Z 1] true 0 false) world0)
  = Some [EvRead "d_out" 4; EvRead "d_out" 4;
          EvVerify CsrScalar 1 1 true; EvRead "d_out" 4;
          EvDispatch CsrScalar 1 128;
          EvVerify CsrScalar 1 0 true; EvRead "d_out" 4;
          EvDispatch CsrScalar 1 128;
          EvAlloc 5 (Buffer "d_rowDelimiters" 8); EvAlloc 4 (Buffer "d_out" 4);
          EvAlloc 3 (Buffer "d_vec" 4); EvAlloc 2 (Buffer "d_cols" 64);
          EvAlloc 1 (Buffer "d_val" 64)].
Proof. vm_compute. reflexivity. Qed.

(** * Further properties of the host code *)

(** ** Loops that fail, and loops known to have ended *)

(** What a loop that has ended leaves, from what its body keeps. *)
Lemma for_iter_ended {St : Type} (P : Z -> St -> Prop)
  (body : Z -> St -> option St) :
  forall (n : nat) (i : Z) (s s' : St),
    for_iter n i body s = Some s' ->
    P i s ->
    (forall j t t', i <= j < i + Z.of_nat n -> P j t -> body j t = Some t' ->
                    P (j + 1) t') ->
    P (i + Z.of_nat n) s'.
Proof.
  induction n as [|n IH]; intros i s s' Hrun HP Hbody.
  - cbn [for_iter] in Hrun. inversion Hrun. subst. rewrite Z.add_0_r. exact HP.
  - cbn [for_iter] in Hrun. destruct (body i s) as [t|] eqn:Hb; [|discriminate].
    replace (i + Z.of_nat (S n)) with (i + 1 + Z.of_nat n) by lia.
    apply (IH (i + 1) t s' Hrun).
    + apply (Hbody i s t); [lia | exact HP | exact Hb].
    + intros j u u' Hj. apply Hbody. lia.
Qed.

Lemma for_loop_ended {St : Type} (P : Z -> St -> Prop)
  (body : Z -> St -> option St) (lo hi : Z) (s s' : St) :
  for_loop lo hi body s = Some s' ->
  P lo s ->
  (forall j t t', lo <= j < hi -> P j t -> body j t = Some t' -> P (j + 1) t') ->
  P (Z.max lo hi) s'.
Proof.
  unfold for_loop. intros Hrun HP Hbody.
  replace (Z.max lo hi) with (lo + Z.of_nat (Z.to_nat (hi - lo))) by lia.
  apply (for_iter_ended P _ _ _ Hrun HP).
  intros j t t' Hj. apply Hbody. lia.
Qed.

(** A loop whose body fails at an index of its range, in every state the
    loop can be in, fails. *)
Lemma for_iter_fails {St : Type} (P : St -> Prop)
  (body : Z -> St -> option St) (j : Z) :
  forall (n : nat) (i : Z) (s : St),
    i <= j < i + Z.of_nat n ->
    P s ->
    (forall k t t', i <= k < j -> P t -> body k t = Some t' -> P t') ->
    (forall t, P t -> body j t = None) ->
    for_iter n i body s = None.
Proof.
  induction n as [|n IH]; intros i s Hj HP Hkeep Hfail; [lia|].
  cbn [for_iter]. destruct (Z.eq_dec i j) as [-> | Hne].
  - rewrite (Hfail s HP). reflexivity.
  - destruct (body i s) as [t|] eqn:Hb; [|reflexivity].
    apply IH; [lia | | |exact Hfail].
    + apply (Hkeep i s t); [lia | exact HP | exact Hb].
    + intros k u u' Hk. apply Hkeep. lia.
Qed.

Lemma for_loop_fails {St : Type} (P : St -> Prop)
  (body : Z -> St -> option St) (lo hi j : Z) (s : St) :
  lo <= j < hi ->
  P s ->
  (forall k t t', lo <= k < j -> P t -> body k t = Some t' -> P t') ->
  (forall t, P t -> body j t = None) ->
  for_loop lo hi body s = None.
Proof.
  intros Hj HP Hkeep Hfail. unfold for_loop.
  apply (@for_iter_fails St P body j); auto. lia.
Qed.

Lemma load_None {A : Type} (a : list A) (i : Z) :
  Z.of_nat (length a) <= i -> load a i = None.
Proof.
  intros H. unfold load. destruct (i <? 0); [reflexivity|].
  apply nth_error_None. lia.
Qed.

Lemma store_None {A : Type} (a : list A) (i : Z) (v : A) :
  Z.of_nat (length a) <= i -> store a i v = None.
Proof.
  intros H. unfold store.
  replace (i <? Z.of_nat (length a)) with false
    by (symmetry; apply Z.ltb_ge; lia).
  rewrite andb_false_r. reflexivity.
Qed.

Lemma load_outside {A : Type} (a : list A) (i : Z) :
  ~ 0 <= i < Z.of_nat (length a) -> load a i = None.
Proof.
  intros H. unfold load. destruct (i <? 0) eqn:E; [reflexivity|].
  apply Z.ltb_ge in E. apply nth_error_None. lia.
Qed.

(** ** spmvCpu: what it writes and where *)

Open Scope opt_scope.

(** The cells of [out] after a call that returned: row [i] below [dim]
    holds the sum the inner loop computed for it, every other cell is
    as before. *)
Lemma spmvCpu_cells (val : list float) (cols rowDelimiters : list Z)
  (vec : list float) (dim : Z) (out out' : list float) :
  spmvCpu val cols rowDelimiters vec dim out = Some out' ->
  length out' = length out /\
  (forall i, ~ 0 <= i < dim -> load out' i = load out i) /\
  (forall i, 0 <= i < dim ->
     exists lo hi t,
       load rowDelimiters i = Some lo /\
       load rowDelimiters (i + 1) = Some hi /\
       spmvCpu_row val cols vec lo hi = Some t /\
       load out' i = Some t).
Proof.
  intros Hrun. unfold spmvCpu in Hrun.
  set (P := fun (k : Z) (o : list float) =>
              length o = length out /\
              (forall i, ~ 0 <= i < k -> load o i = load out i) /\
              (forall i, 0 <= i < k ->
                 exists lo hi t,
                   load rowDelimiters i = Some lo /\
                   load rowDelimiters (i + 1) = Some hi /\
                   spmvCpu_row val cols vec lo hi = Some t /\
                   load o i = Some t)).
  assert (H : P (Z.max 0 dim) out').
  { apply (@for_loop_ended _ P _ _ _ _ _ Hrun).
    - unfold P. split; [reflexivity|]. split; [reflexivity|]. intros i Hi. lia.
    - intros j o o' Hj (Hlen & Hout & Hin) Hb.
      destruct (load rowDelimiters j) as [lo|] eqn:Hlo; [|discriminate].
      cbn [obind] in Hb.
      destruct (load rowDelimiters (j + 1)) as [hi|] eqn:Hhi; [|discriminate].
      cbn [obind] in Hb.
      destruct (spmvCpu_row val cols vec lo hi) as [t|] eqn:Ht; [|discriminate].
      cbn [obind] in Hb.
      apply store_inv in Hb. destruct Hb as [Hr ->].
      unfold P. rewrite upd_length. split; [exact Hlen|]. split.
      + intros i Hi. rewrite load_upd_other by lia. apply Hout. lia.
      + intros i Hi. destruct (Z.eq_dec i j) as [-> | Hne].
        * exists lo, hi, t. rewrite load_upd_same by lia. auto.
        * rewrite load_upd_other by lia. apply Hin. lia. }
  destruct H as (Hlen & Hout & Hin). split; [exact Hlen|]. split.
  - intros i Hi. apply Hout. lia.
  - intros i Hi. apply Hin. lia.
Qed.

(** X1.  [spmvCpu] writes the cells [out[0]] to [out[dim-1]] and no other: the
    vector keeps its length and every cell from [dim] on is as before. *)
Theorem spmvCpu_writes_only_rows :
  forall (val : list float) (cols rowDelimiters : list Z) (vec : list float)
         (dim : Z) (out out' : list float),
    spmvCpu val cols rowDelimiters vec dim out = Some out' ->
    length out' = length out /\
    forall i, dim <= i -> load out' i = load out i.
Proof.
  intros val cols rowDelimiters vec dim out out' Hrun.
  destruct (spmvCpu_cells _ _ _ _ _ _ Hrun) as (Hlen & Hout & _).
  split; [exact Hlen|]. intros i Hi. apply Hout. lia.
Qed.

Lemma spmvCpu_writes_only_rows_witness :
  length [F32.of_Z 1; F32.of_Z 7] = length [F32.of_Z 9; F32.of_Z 7] /\
  forall i, 1 <= i ->
    load [F32.of_Z 1; F32.of_Z 7] i = load [F32.of_Z 9; F32.of_Z 7] i.
Proof.
  apply (@spmvCpu_writes_only_rows [F32.of_Z 1] [0] [0; 1] [F32.of_Z 1] 1
           [F32.of_Z 9; F32.of_Z 7] [F32.of_Z 1; F32.of_Z 7]).
  vm_compute. reflexivity.
Defined.

(** X2.  A row whose end delimiter is not above its start delimiter is an
    empty row, also where the delimiters decrease: its cell gets +0. *)
Theorem spmvCpu_empty_row :
  forall (val : list float) (cols rowDelimiters : list Z) (vec : list float)
         (dim : Z) (out out' : list float) (i lo hi : Z),
    spmvCpu val cols rowDelimiters vec dim out = Some out' ->
    0 <= i < dim ->
    load rowDelimiters i = Some lo ->
    load rowDelimiters (i + 1) = Some hi ->
    hi <= lo ->
    load out' i = Some F32.zero.
Proof.
  intros val cols rowDelimiters vec dim out out' i lo hi Hrun Hi Hlo Hhi Hle.
  destruct (spmvCpu_cells _ _ _ _ _ _ Hrun) as (_ & _ & Hin).
  destruct (Hin i Hi) as (lo' & hi' & t & Hlo' & Hhi' & Ht & Hcell).
  rewrite Hlo in Hlo'. rewrite Hhi in Hhi'. inversion Hlo'. inversion Hhi'.
  subst lo' hi'. unfold spmvCpu_row in Ht.
  rewrite for_loop_empty in Ht by exact Hle. inversion Ht. subst t.
  exact Hcell.
Qed.

Lemma spmvCpu_empty_row_witness :
  load [F32.of_Z 5; F32.zero] 1 = Some F32.zero.
Proof.
  apply (@spmvCpu_empty_row [F32.of_Z 5] [0] [0; 1; 0] [F32.of_Z 1] 2
           [F32.of_Z 9; F32.of_Z 9] [F32.of_Z 5; F32.zero] 1 1 0).
  - vm_compute. reflexivity.
  - lia.
  - reflexivity.
  - reflexivity.
  - lia.
Defined.

(** X3.  [spmvCpu] on [dim] rows reads [rowDelimiters[dim]] and writes
    [out[dim-1]]: with fewer than [dim+1] delimiters or fewer than [dim]
    output cells an access is out of bounds, whatever the matrix. *)
Theorem spmvCpu_out_of_bounds :
  forall (val : list float) (cols rowDelimiters : list Z) (vec : list float)
         (dim : Z) (out : list float),
    0 < dim ->
    Z.of_nat (length out) < dim \/ Z.of_nat (length rowDelimiters) <= dim ->
    spmvCpu val cols rowDelimiters vec dim out = None.
Proof.
  intros val cols rowDelimiters vec dim out Hdim [Hout | Hrd]; unfold spmvCpu.
  - apply (@for_loop_fails _ (fun o => length o = length out) _ 0 dim
             (Z.of_nat (length out))); [lia | reflexivity | |].
    + intros k o o' Hk Hlen Hb.
      destruct (load rowDelimiters k); [|discriminate]. cbn [obind] in Hb.
      destruct (load rowDelimiters (k + 1)); [|discriminate]. cbn [obind] in Hb.
      destruct (spmvCpu_row val cols vec z z0); [|discriminate].
      cbn [obind] in Hb. apply store_inv in Hb. destruct Hb as [_ ->].
      rewrite upd_length. exact Hlen.
    + intros o Hlen.
      destruct (load rowDelimiters _); [|reflexivity]. cbn [obind].
      destruct (load rowDelimiters _); [|reflexivity]. cbn [obind].
      destruct (spmvCpu_row val cols vec z z0); [|reflexivity]. cbn [obind].
      apply store_None. rewrite Hlen. lia.
  - apply (@for_loop_fails _ (fun _ => True) _ 0 dim
             (Z.max 0 (Z.of_nat (length rowDelimiters) - 1)));
      [lia | exact I | auto |].
    intros o _.
    destruct (load rowDelimiters (Z.max 0 _)) eqn:E; [|reflexivity].
    cbn [obind]. rewrite load_None by lia. reflexivity.
Qed.

Lemma spmvCpu_out_of_bounds_witness :
  spmvCpu [F32.of_Z 1] [0] [0; 1] [F32.of_Z 1] 1 [] = None.
Proof.
  apply spmvCpu_out_of_bounds; [lia | left; simpl; lia].
Defined.

Close Scope opt_scope.

(** ** verifyResults: bounds and composition *)

Lemma for_iter_ext {St : Type} (body body' : Z -> St -> option St) :
  forall (n : nat) (i : Z) (s : St),
    (forall j t, i <= j < i + Z.of_nat n -> body j t = body' j t) ->
    for_iter n i body s = for_iter n i body' s.
Proof.
  induction n as [|n IH]; intros i s Hext; [reflexivity|].
  cbn [for_iter]. rewrite (Hext i s) by lia.
  destruct (body' i s) as [t|]; [|reflexivity].
  apply IH. intros j u Hj. apply Hext. lia.
Qed.

Lemma load_firstn {A : Type} (a a' : list A) (n i : Z) :
  firstn (Z.to_nat n) a = firstn (Z.to_nat n) a' ->
  0 <= i < n -> load a i = load a' i.
Proof.
  intros Heq Hi. unfold load.
  destruct (i <? 0) eqn:E; [reflexivity|].
  assert (Hlt : (Z.to_nat i <? Z.to_nat n)%nat = true)
    by (apply Nat.ltb_lt; lia).
  pose proof (nth_error_firstn (Z.to_nat n) a (Z.to_nat i)) as H1.
  pose proof (nth_error_firstn (Z.to_nat n) a' (Z.to_nat i)) as H2.
  rewrite Hlt in H1, H2. rewrite <- H1, <- H2, Heq. reflexivity.
Qed.

(** X4.  [verifyResults] returns exactly when [size] is within the two
    vectors, or is not positive; with a [size] that is not positive nothing is
    compared and the result is passed. *)
Theorem verifyResults_defined :
  forall (cpuResults gpuResults : list float) (size pass : Z),
    ((exists passed,
        verifyResults cpuResults gpuResults size pass = Some passed) <->
     size <= 0 \/
     (size <= Z.of_nat (length cpuResults) /\
      size <= Z.of_nat (length gpuResults))) /\
    (size <= 0 ->
     verifyResults cpuResults gpuResults size pass = Some true).
Proof.
  intros cpuResults gpuResults size pass.
  assert (Hempty : size <= 0 ->
            verifyResults cpuResults gpuResults size pass = Some true).
  { intros H. unfold verifyResults, verifyResults_tol.
    apply for_loop_empty. exact H. }
  split; [|exact Hempty]. split.
  - intros (passed & Hrun).
    destruct (Z_le_dec size 0) as [Hle | Hpos]; [left; exact Hle|].
    right.
    destruct (Z_le_dec size (Z.of_nat (length cpuResults))) as [Hc | Hc].
    + split; [exact Hc|].
      destruct (Z_le_dec size (Z.of_nat (length gpuResults))) as [Hg | Hg];
        [exact Hg|].
      exfalso. unfold verifyResults, verifyResults_tol in Hrun.
      rewrite (@for_loop_fails _ (fun _ => True) _ 0 size
                 (Z.of_nat (length gpuResults))) in Hrun;
        [discriminate | lia | exact I | auto |].
      intros t _. destruct (load cpuResults _); [|reflexivity].
      cbn [obind]. rewrite load_None by lia. reflexivity.
    + exfalso. unfold verifyResults, verifyResults_tol in Hrun.
      rewrite (@for_loop_fails _ (fun _ => True) _ 0 size
                 (Z.of_nat (length cpuResults))) in Hrun;
        [discriminate | lia | exact I | auto |].
      intros t _. rewrite load_None by lia. reflexivity.
  - intros [Hle | [Hc Hg]].
    + exists true. apply Hempty, Hle.
    + destruct (Z_le_dec size 0) as [Hle | Hpos].
      * exists true. apply Hempty, Hle.
      * apply verifyResults_returns; lia.
Qed.

(** X5.  [verifyResults] looks at the first [size] entries of the two vectors
    and at nothing else: not at what follows them, not at [pass]. *)
Theorem verifyResults_first_entries :
  forall (cpuResults cpuResults' gpuResults gpuResults' : list float)
         (size pass pass' : Z),
    firstn (Z.to_nat size) cpuResults = firstn (Z.to_nat size) cpuResults' ->
    firstn (Z.to_nat size) gpuResults = firstn (Z.to_nat size) gpuResults' ->
    verifyResults cpuResults gpuResults size pass
    = verifyResults cpuResults' gpuResults' size pass'.
Proof.
  intros c c' g g' size pass pass' Hc Hg.
  unfold verifyResults, verifyResults_tol, for_loop.
  apply for_iter_ext. intros j t Hj.
  rewrite (@load_firstn _ c c' size j Hc) by lia.
  rewrite (@load_firstn _ g g' size j Hg) by lia.
  reflexivity.
Qed.

Lemma verifyResults_first_entries_witness :
  verifyResults [F32.of_Z 1; F32.of_Z 2] [F32.of_Z 1; F32.of_Z 3] 1 0
  = verifyResults [F32.of_Z 1] [F32.of_Z 1; F32.of_Z 9] 1 5.
Proof.
  apply verifyResults_first_entries; reflexivity.
Defined.

(** X6.  The verdict on two vectors put end to end is the conjunction of the
    verdicts on the parts. *)
Theorem verifyResults_app :
  forall (a1 a2 b1 b2 : list float) (pass : Z),
    length a1 = length b1 ->
    length a2 = length b2 ->
    exists r1 r2,
      verifyResults a1 b1 (Z.of_nat (length a1)) pass = Some r1 /\
      verifyResults a2 b2 (Z.of_nat (length a2)) pass = Some r2 /\
      verifyResults (a1 ++ a2) (b1 ++ b2)
        (Z.of_nat (length a1) + Z.of_nat (length a2)) pass
      = Some (r1 && r2).
Proof.
  intros a1 a2 b1 b2 pass H1 H2.
  destruct (@verifyResults_tol_scan MAX_RELATIVE_ERROR a1 b1
              (Z.of_nat (length a1)) pass ltac:(lia) ltac:(lia) ltac:(lia))
    as (r1 & Hr1 & Hi1).
  destruct (@verifyResults_tol_scan MAX_RELATIVE_ERROR a2 b2
              (Z.of_nat (length a2)) pass ltac:(lia) ltac:(lia) ltac:(lia))
    as (r2 & Hr2 & Hi2).
  destruct (@verifyResults_tol_scan MAX_RELATIVE_ERROR (a1 ++ a2) (b1 ++ b2)
              (Z.of_nat (length a1) + Z.of_nat (length a2)) pass
              ltac:(lia) ltac:(rewrite length_app; lia)
              ltac:(rewrite length_app; lia))
    as (r & Hr & Hi).
  exists r1, r2. split; [exact Hr1|]. split; [exact Hr2|].
  unfold verifyResults. rewrite Hr. f_equal.
  assert (Hl : forall i, 0 <= i < Z.of_nat (length a1) ->
            fat (a1 ++ a2) i = fat a1 i /\ fat (b1 ++ b2) i = fat b1 i).
  { intros i Hi0. unfold fat. rewrite !app_nth1 by lia. auto. }
  assert (Hh : forall i, 0 <= i < Z.of_nat (length a2) ->
            fat (a1 ++ a2) (Z.of_nat (length a1) + i) = fat a2 i /\
            fat (b1 ++ b2) (Z.of_nat (length a1) + i) = fat b2 i).
  { intros i Hi0. unfold fat.
    replace (Z.to_nat (Z.of_nat (length a1) + i))
      with (length a1 + Z.to_nat i)%nat by lia.
    rewrite app_nth2_plus. rewrite H1 at 1. rewrite app_nth2_plus. auto. }
  apply eq_true_iff_eq. rewrite andb_true_iff, Hi, Hi1, Hi2. split.
  - intros Hall. split; intros i Hi0.
    + destruct (Hl i Hi0) as [<- <-]. apply Hall. lia.
    + destruct (Hh i Hi0) as [<- <-]. apply Hall. lia.
  - intros [Ha Hb] i Hi0.
    destruct (Z_lt_dec i (Z.of_nat (length a1))) as [Hlt | Hge].
    + destruct (Hl i ltac:(lia)) as [-> ->]. apply Ha. lia.
    + destruct (Hh (i - Z.of_nat (length a1)) ltac:(lia)) as [E1 E2].
      replace (Z.of_nat (length a1) + (i - Z.of_nat (length a1))) with i
        in E1, E2 by lia.
      rewrite E1, E2. apply Hb. lia.
Qed.

Lemma verifyResults_app_witness :
  exists r1 r2,
    verifyResults [F32.of_Z 1] [F32.of_Z 1] 1 0 = Some r1 /\
    verifyResults [F32.of_Z 1] [F32.of_Z 2] 1 0 = Some r2 /\
    verifyResults [F32.of_Z 1; F32.of_Z 1] [F32.of_Z 1; F32.of_Z 2] (1 + 1) 0
    = Some (r1 && r2).
Proof.
  apply (@verifyResults_app [F32.of_Z 1] [F32.of_Z 1] [F32.of_Z 1]
           [F32.of_Z 2] 0); reflexivity.
Defined.

(** ** verifyResults: the entries it can not flag *)

Lemma binary_round_aux_sign (prec emax : Z) (s : bool) (m e : Z)
  (l : location) :
  is_nan (binary_round_aux prec emax s m e l) = true \/
  sign_bit (binary_round_aux prec emax s m e l) = s.
Proof.
  unfold binary_round_aux.
  destruct (shr_fexp prec emax m e l) as [mrs' e'].
  destruct (shr_fexp prec emax _ e' loc_Exact) as [mrs'' e''].
  destruct (shr_m mrs''); [right; reflexivity | | left; reflexivity].
  destruct (e'' <=? emax - prec); right; reflexivity.
Qed.

Lemma of_float_sign (x : float) :
  is_nan (F64.of_float x) = true \/ sign_bit (F64.of_float x) = sign_bit x.
Proof.
  destruct x as [s|s| |s m e]; cbn [F64.of_float]; auto.
  unfold binary_round. destruct (shl_align m e _) as [mz ez].
  apply binary_round_aux_sign.
Qed.

Lemma of_float_nan_inf (x : float) :
  is_nan x = true \/ is_infinity x = true -> F64.of_float x = x.
Proof. destruct x; cbn; intros [H | H]; try discriminate; reflexivity. Qed.

Lemma fabs_sign (x : double) :
  is_nan (F64.fabs x) = true \/ sign_bit (F64.fabs x) = false.
Proof. destruct x; cbn; auto. Qed.

Lemma div_sign (x y : double) :
  is_nan (F64.div x y) = true \/
  sign_bit (F64.div x y) = xorb (sign_bit x) (sign_bit y).
Proof.
  destruct x as [sx|sx| |sx mx ex], y as [sy|sy| |sy my ey];
    cbn [F64.div SFdiv is_nan sign_bit]; auto.
  destruct (SFdiv_core_binary _ _ _ _ _ _) as [[mz ez] lz].
  apply binary_round_aux_sign.
Qed.

Lemma div_nan_l (y : double) : F64.div S754_nan y = S754_nan.
Proof. reflexivity. Qed.

Lemma div_nan_r (x : double) : F64.div x S754_nan = S754_nan.
Proof. destruct x; reflexivity. Qed.

Lemma is_nan_eq (x : spec_float) : is_nan x = true -> x = S754_nan.
Proof. destruct x; cbn; intros H; try discriminate; reflexivity. Qed.

(** A quotient that is a NaN or has its sign bit set is not above 1e-10. *)
Lemma gt_negative (r : double) :
  is_nan r = true \/ sign_bit r = true -> F64.gt r MAX_RELATIVE_ERROR = false.
Proof.
  destruct r as [s|s| |s m e]; cbn [is_nan sign_bit];
    intros [H | H]; try discriminate; subst; reflexivity.
Qed.

(** The test of [verifyResults] is false at every entry that is
    [unchecked]. *)
Lemma exceeds_unchecked (cpu gpu : float) :
  unchecked cpu gpu = true -> exceeds MAX_RELATIVE_ERROR cpu gpu = false.
Proof.
  unfold unchecked. intros H.
  apply orb_true_iff in H. destruct H as [H | Hg].
  apply orb_true_iff in H. destruct H as [H | Hinf].
  apply orb_true_iff in H. destruct H as [Hs | Hn].
  - unfold exceeds, relative_error. apply gt_negative.
    destruct (of_float_sign cpu) as [Hn | Hc].
    + left. rewrite (is_nan_eq _ Hn), div_nan_r. reflexivity.
    + destruct (div_sign (F64.fabs (F64.of_float (F32.sub cpu gpu)))
                  (F64.of_float cpu)) as [Hd | Hd]; [left; exact Hd|].
      rewrite Hc, Hs in Hd.
      destruct (fabs_sign (F64.of_float (F32.sub cpu gpu))) as [Hf | Hf].
      * left. rewrite (is_nan_eq _ Hf). reflexivity.
      * right. rewrite Hd, Hf. reflexivity.
  - rewrite (is_nan_eq _ Hn). unfold exceeds, relative_error.
    cbn [F32.sub SFsub F64.of_float F64.fabs SFabs]. apply gt_nan.
  - unfold exceeds, relative_error.
    destruct cpu as [s|s| |s m e]; try discriminate.
    cbn [F64.of_float].
    destruct gpu as [t|t| |t m e], s; try destruct t;
      cbn [F32.sub SFsub F64.of_float F64.fabs SFabs F64.div SFdiv];
      apply gt_nan.
  - rewrite (is_nan_eq _ Hg). unfold exceeds, relative_error.
    replace (F32.sub cpu S754_nan) with S754_nan by (destruct cpu; reflexivity).
    cbn [F64.of_float F64.fabs SFabs]. rewrite div_nan_l. apply gt_nan.
Qed.

(** X7.  [verifyResults] passes whatever the candidate holds at the entries
    whose reference has its sign bit set (is negative or -0), is infinite or
    is a NaN, and whatever the reference holds where the candidate is a NaN:
    a device output of NaNs passes against every reference. *)
Theorem verifyResults_unchecked_entries :
  forall (cpuResults gpuResults : list float) (size pass : Z),
    size <= Z.of_nat (length cpuResults) ->
    size <= Z.of_nat (length gpuResults) ->
    (forall i, 0 <= i < size ->
       unchecked (fat cpuResults i) (fat gpuResults i) = true) ->
    verifyResults cpuResults gpuResults size pass = Some true.
Proof.
  intros c g size pass Hc Hg Hall.
  destruct (Z_le_dec size 0) as [Hle | Hpos].
  - unfold verifyResults, verifyResults_tol. apply for_loop_empty. exact Hle.
  - destruct (@verifyResults_tol_scan MAX_RELATIVE_ERROR c g size pass
                ltac:(lia) Hc Hg) as (passed & Hrun & Hiff).
    unfold verifyResults. rewrite Hrun. f_equal. apply Hiff.
    intros i Hi. apply exceeds_unchecked, Hall, Hi.
Qed.

Lemma verifyResults_unchecked_entries_witness :
  verifyResults [F32.of_Z (-1); F32.of_Z 3; S754_infinity false]
    [F32.of_Z 5; S754_nan; F32.of_Z 0] 3 0 = Some true.
Proof.
  apply verifyResults_unchecked_entries; try (simpl; lia).
  intros i Hi.
  assert (Hc : i = 0 \/ i = 1 \/ i = 2) by lia.
  destruct Hc as [-> | [-> | ->]]; reflexivity.
Defined.

(** X8.  Where the reference is a positive finite number, a candidate that is
    an infinity is a mismatch: an overflow on the device is reported. *)
Theorem verifyResults_flags_infinite_candidate :
  forall (cpuResults gpuResults : list float) (size pass i : Z)
         (m : positive) (e : Z),
    size <= Z.of_nat (length cpuResults) ->
    size <= Z.of_nat (length gpuResults) ->
    0 <= i < size ->
    fat cpuResults i = S754_finite false m e ->
    bounded F32.prec F32.emax m e = true ->
    is_infinity (fat gpuResults i) = true ->
    verifyResults cpuResults gpuResults size pass = Some false.
Proof.
  intros c g size pass i m e Hc Hg Hi Hcpu Hb Hinf.
  destruct (of_float_finite false m e Hb) as (m' & e' & Hconv).
  assert (Hex : exceeds MAX_RELATIVE_ERROR (fat c i) (fat g i) = true).
  { rewrite Hcpu. destruct (fat g i) as [s|s| |s mg eg]; try discriminate.
    unfold exceeds, relative_error.
    cbn [F32.sub SFsub]. rewrite Hconv. reflexivity. }
  destruct (@verifyResults_tol_scan MAX_RELATIVE_ERROR c g size pass
              ltac:(lia) Hc Hg) as (passed & Hrun & Hiff).
  unfold verifyResults. rewrite Hrun. f_equal.
  destruct passed; [|reflexivity].
  destruct Hiff as [Hall _]. rewrite (Hall eq_refl i Hi) in Hex. discriminate.
Qed.

Lemma verifyResults_flags_infinite_candidate_witness :
  verifyResults [F32.of_Z 1; F32.of_Z 3] [F32.of_Z 1; S754_infinity true] 2 0
  = Some false.
Proof.
  apply (@verifyResults_flags_infinite_candidate
           [F32.of_Z 1; F32.of_Z 3] [F32.of_Z 1; S754_infinity true] 2 0 1
           12582912 (-22)); try reflexivity; simpl; lia.
Defined.

(** ** The sizes RunTest and csrTest compute *)

(** X9.  For a row count that is not negative (the sum within [int]) the
    padded row count is a multiple of the pad factor, above [numRows] and at
    most one pad factor above it: the least multiple of the pad factor that is
    greater than [numRows]. *)
Theorem paddedSize_least_multiple_above :
  forall PAD_FACTOR numRows : Z,
    0 <= numRows -> 0 < PAD_FACTOR -> numRows + PAD_FACTOR <= INT_MAX ->
    (PAD_FACTOR | paddedSize PAD_FACTOR numRows) /\
    numRows < paddedSize PAD_FACTOR numRows <= numRows + PAD_FACTOR /\
    (forall p, (PAD_FACTOR | p) -> numRows < p ->
               paddedSize PAD_FACTOR numRows <= p).
Proof.
  intros PAD_FACTOR numRows Hn Hp Hmax.
  pose proof (Z.mod_pos_bound numRows PAD_FACTOR Hp) as Hm.
  pose proof (Z.div_mod numRows PAD_FACTOR ltac:(lia)) as Hdm.
  assert (Hv : paddedSize PAD_FACTOR numRows
               = PAD_FACTOR * (numRows / PAD_FACTOR + 1)).
  { unfold paddedSize, int_add, int_sub, int_rem.
    rewrite Z.rem_mod_nonneg by lia. unfold INT_MAX in Hmax.
    rewrite (@wrap_int_id (PAD_FACTOR - numRows mod PAD_FACTOR))
      by (unfold INT_MIN, INT_MAX; lia).
    rewrite wrap_int_id by (unfold INT_MIN, INT_MAX; lia). lia. }
  rewrite Hv. split; [|split].
  - exists (numRows / PAD_FACTOR + 1). lia.
  - lia.
  - intros p [q ->] Hq.
    assert (numRows / PAD_FACTOR < q); [|nia].
    apply Z.div_lt_upper_bound; lia.
Qed.

Lemma paddedSize_least_multiple_above_witness :
  (32 | paddedSize 32 64) /\
  64 < paddedSize 32 64 <= 64 + 32 /\
  (forall p, (32 | p) -> 64 < p -> paddedSize 32 64 <= p).
Proof.
  apply paddedSize_least_multiple_above; unfold INT_MAX; lia.
Defined.

(** X10.  The height of the image that holds the vector is the row count
    divided by the image width, rounded up: an image of that height has room
    for [numRows] floats and one of a row less has not.  With the width 0 the
    division is undefined. *)
Theorem imgHeight_of_rounds_up :
  forall numRows maxImgWidth : Z,
    0 <= numRows ->
    (maxImgWidth = 0 -> imgHeight_of numRows maxImgWidth = None) /\
    (0 < maxImgWidth ->
     exists imgHeight,
       imgHeight_of numRows maxImgWidth = Some imgHeight /\
       (imgHeight - 1) * maxImgWidth < numRows <= imgHeight * maxImgWidth).
Proof.
  intros numRows w Hn. split.
  - intros ->. reflexivity.
  - intros Hw. unfold imgHeight_of.
    destruct (w =? 0) eqn:E; [apply Z.eqb_eq in E; lia|].
    eexists. split; [reflexivity|].
    pose proof (Z.div_mod (numRows + w - 1) w ltac:(lia)) as Hdm.
    pose proof (Z.mod_pos_bound (numRows + w - 1) w Hw) as Hm.
    nia.
Qed.

Lemma imgHeight_of_rounds_up_witness :
  (8 = 0 -> imgHeight_of 17 8 = None) /\
  (0 < 8 ->
   exists imgHeight,
     imgHeight_of 17 8 = Some imgHeight /\
     (imgHeight - 1) * 8 < 17 <= imgHeight * 8).
Proof.
  apply imgHeight_of_rounds_up. lia.
Defined.

(** What the [while] loop leaves, started at [lws] with enough tests. *)
Lemma grow_localWorkSize_spec (BLOCK_SIZE VECTOR_SIZE maxLocal : Z) :
  0 < VECTOR_SIZE ->
  forall (fuel : nat) (lws : Z),
    BLOCK_SIZE - lws <= Z.of_nat fuel ->
    exists r,
      grow_localWorkSize BLOCK_SIZE VECTOR_SIZE (S fuel) lws maxLocal
      = Some r /\
      lws <= r /\
      (VECTOR_SIZE | r - lws) /\
      ~ (r + VECTOR_SIZE <= maxLocal /\ r + VECTOR_SIZE <= BLOCK_SIZE) /\
      (r = lws \/ (r <= maxLocal /\ r <= BLOCK_SIZE)).
Proof.
  intros Hv. induction fuel as [|fuel IH]; intros lws Hle.
  - cbn [grow_localWorkSize].
    destruct ((lws + VECTOR_SIZE <=? maxLocal)
              && (lws + VECTOR_SIZE <=? BLOCK_SIZE)) eqn:E.
    + apply andb_true_iff in E. destruct E as [_ E].
      apply Z.leb_le in E. lia.
    + exists lws. split; [reflexivity|]. split; [lia|].
      split; [exists 0; lia|]. split; [|left; reflexivity].
      intros [H1 H2]. apply Z.leb_le in H1, H2. rewrite H1, H2 in E.
      discriminate.
  - remember (S fuel) as f eqn:Hf. cbn [grow_localWorkSize].
    destruct ((lws + VECTOR_SIZE <=? maxLocal)
              && (lws + VECTOR_SIZE <=? BLOCK_SIZE)) eqn:E.
    + subst f. apply andb_true_iff in E. destruct E as [E1 E2].
      apply Z.leb_le in E1, E2.
      destruct (IH (lws + VECTOR_SIZE) ltac:(lia))
        as (r & Hr & Hge & [q Hq] & Hstop & Hfit).
      exists r. split; [exact Hr|]. split; [lia|].
      split; [exists (q + 1); lia|]. split; [exact Hstop|].
      right. destruct Hfit as [-> | Hfit]; [lia | exact Hfit].
    + exists lws. split; [reflexivity|]. split; [lia|].
      split; [exists 0; lia|]. split; [|left; reflexivity].
      intros [H1 H2]. apply Z.leb_le in H1, H2. rewrite H1, H2 in E.
      discriminate.
Qed.

Lemma grow_localWorkSize_closed (BLOCK_SIZE VECTOR_SIZE maxLocal : Z) :
  0 < VECTOR_SIZE ->
  grow_localWorkSize BLOCK_SIZE VECTOR_SIZE (S (Z.to_nat BLOCK_SIZE))
    VECTOR_SIZE maxLocal
  = Some (VECTOR_SIZE *
          Z.max 1 (Z.min maxLocal BLOCK_SIZE / VECTOR_SIZE)).
Proof.
  intros Hv.
  destruct (@grow_localWorkSize_spec BLOCK_SIZE VECTOR_SIZE maxLocal Hv
              (Z.to_nat BLOCK_SIZE) VECTOR_SIZE ltac:(lia))
    as (r & Hr & Hge & [q Hq] & Hstop & Hfit).
  rewrite Hr. f_equal.
  set (m := Z.min maxLocal BLOCK_SIZE) in *.
  assert (Hstop' : m < r + VECTOR_SIZE) by (unfold m; lia).
  assert (Hrq : r = VECTOR_SIZE * (q + 1)) by lia.
  assert (Hq0 : 0 <= q) by nia.
  destruct Hfit as [Hfit | Hfit].
  - assert (q = 0) by nia. subst q.
    assert (m / VECTOR_SIZE <= 1).
    { destruct (Z_le_dec (m / VECTOR_SIZE) 1) as [H | H]; [exact H|].
      exfalso.
      pose proof (Z.mul_div_le m VECTOR_SIZE Hv). nia. }
    replace (Z.max 1 (m / VECTOR_SIZE)) with 1 by lia. lia.
  - assert (Hm : r <= m) by (unfold m; lia).
    assert (m / VECTOR_SIZE = q + 1).
    { symmetry. apply (Z.div_unique m VECTOR_SIZE (q + 1) (m - r)); lia. }
    replace (Z.max 1 (m / VECTOR_SIZE)) with (q + 1) by lia. lia.
Qed.

(** X11.  The local work size of the vector kernel is the largest multiple of
    [VECTOR_SIZE] that fits both the work group size of the device and
    [BLOCK_SIZE], and [VECTOR_SIZE] itself when not even one fits: the loop
    starts at [VECTOR_SIZE] without a test. *)
Theorem grow_localWorkSize_largest_multiple :
  forall BLOCK_SIZE VECTOR_SIZE maxLocal : Z,
    0 < VECTOR_SIZE ->
    exists localWorkSize,
      grow_localWorkSize BLOCK_SIZE VECTOR_SIZE (S (Z.to_nat BLOCK_SIZE))
        VECTOR_SIZE maxLocal = Some localWorkSize /\
      localWorkSize
      = VECTOR_SIZE * Z.max 1 (Z.min maxLocal BLOCK_SIZE / VECTOR_SIZE) /\
      (VECTOR_SIZE | localWorkSize) /\
      VECTOR_SIZE <= localWorkSize /\
      (VECTOR_SIZE <= maxLocal -> VECTOR_SIZE <= BLOCK_SIZE ->
       localWorkSize <= maxLocal /\ localWorkSize <= BLOCK_SIZE) /\
      (BLOCK_SIZE < VECTOR_SIZE \/ maxLocal < VECTOR_SIZE ->
       localWorkSize = VECTOR_SIZE).
Proof.
  intros BLOCK_SIZE VECTOR_SIZE maxLocal Hv.
  eexists. split; [apply grow_localWorkSize_closed; exact Hv|].
  split; [reflexivity|].
  set (m := Z.min maxLocal BLOCK_SIZE).
  split; [eexists; rewrite Z.mul_comm; reflexivity|].
  split; [nia|]. split.
  - intros H1 H2.
    assert (Hm : VECTOR_SIZE <= m) by (unfold m; lia).
    assert (1 <= m / VECTOR_SIZE) by (apply Z.div_le_lower_bound; lia).
    assert (VECTOR_SIZE * (m / VECTOR_SIZE) <= m)
      by (apply Z.mul_div_le; lia).
    replace (Z.max 1 (m / VECTOR_SIZE)) with (m / VECTOR_SIZE) by lia.
    unfold m in *. lia.
  - intros H.
    assert (Hm : m < VECTOR_SIZE) by (unfold m; lia).
    assert (m / VECTOR_SIZE <= 0).
    { destruct (Z_le_dec 0 m) as [H0 | H0].
      - rewrite Z.div_small by lia. lia.
      - assert (m / VECTOR_SIZE < 0); [|lia].
        apply Z.div_lt_upper_bound; lia. }
    lia.
Qed.

Lemma grow_localWorkSize_largest_multiple_witness :
  exists localWorkSize,
    grow_localWorkSize 128 32 (S (Z.to_nat 128)) 32 100 = Some localWorkSize /\
    localWorkSize = 32 * Z.max 1 (Z.min 100 128 / 32) /\
    (32 | localWorkSize) /\
    32 <= localWorkSize /\
    (32 <= 100 -> 32 <= 128 -> localWorkSize <= 100 /\ localWorkSize <= 128) /\
    (128 < 32 \/ 100 < 32 -> localWorkSize = 32).
Proof.
  apply grow_localWorkSize_largest_multiple. lia.
Defined.

(** ** The row lengths of the ELLPACKR setup, for any delimiters *)

Open Scope opt_scope.

(** X12.  For every array of [numRows+1] delimiters, a CSR one or not, and
    [numRows <= paddedSize], the two loops write every one of the [paddedSize]
    cells of [h_rowLengths]: the difference of the two delimiters of the row
    below [numRows], 0 from there on.  [maxrl] is never negative, no cell is
    above it, and it is 0 or the length of a row. *)
Theorem ellPack_rowLengths_any_delimiters :
  forall (h_rowDelimiters : list Z) (numRows paddedSize : Z),
    0 <= numRows <= paddedSize ->
    numRows < Z.of_nat (length h_rowDelimiters) ->
    exists rl maxrl,
      ellPack_rowLengths h_rowDelimiters numRows paddedSize
      = Some (rl, maxrl) /\
      Z.of_nat (length rl) = paddedSize /\
      (forall i, 0 <= i < numRows ->
         load rl i =
         Some (Some (int_sub (at_ h_rowDelimiters (i + 1))
                       (at_ h_rowDelimiters i)))) /\
      (forall i, numRows <= i < paddedSize -> load rl i = Some (Some 0)) /\
      (forall i, 0 <= i < paddedSize ->
         exists len, load rl i = Some (Some len) /\ len <= maxrl) /\
      0 <= maxrl /\
      (maxrl = 0 \/ exists i, 0 <= i < numRows /\ load rl i = Some (Some maxrl)).
Proof.
  intros rd numRows paddedSize [Hrows Hpad] Hrd.
  set (len := fun i => int_sub (at_ rd (i + 1)) (at_ rd i)).
  unfold ellPack_rowLengths.
  rewrite new_array_Some by lia. cbn [obind].
  set (P := fun (k : Z) (st : list (option Z) * Z) =>
              Z.of_nat (length (fst st)) = paddedSize /\
              (forall i, 0 <= i < k -> load (fst st) i = Some (Some (len i))) /\
              0 <= snd st /\
              (forall i, 0 <= i < k -> len i <= snd st) /\
              (snd st = 0 \/ exists i, 0 <= i < k /\ snd st = len i)).
  match goal with
  | |- context [for_loop 0 numRows ?body ?init] =>
      destruct (@for_loop_inv _ P body 0 numRows init Hrows)
        as ([rl m] & Hrun & Hlen & Hcells & Hm & Hmax & Hatt)
  end.
  - unfold P. cbn [fst snd]. rewrite repeat_length.
    repeat split; try lia; intros; lia.
  - intros k [rl m] Hk (Hlen & Hprev & Hm & Hmax & Hatt). cbn [fst snd] in *.
    rewrite (load_nth rd 0) by lia. cbn [obind].
    rewrite (load_nth rd 0) by lia. cbn [obind].
    rewrite store_Some by lia. cbn [obind].
    rewrite (@load_init_Some _ _ k (len k)) by (apply load_upd_same; lia).
    cbn [obind]. eexists. split; [reflexivity|].
    unfold P. cbn [fst snd]. rewrite upd_length.
    split; [exact Hlen|]. split; [|split; [|split]].
    + intros i Hi. destruct (Z.eq_dec i k) as [-> | Hne].
      * rewrite load_upd_same by lia. reflexivity.
      * rewrite load_upd_other by lia. apply Hprev. lia.
    + fold (at_ rd (k + 1)). fold (at_ rd k). fold (len k).
      destruct (len k >? m) eqn:E; lia.
    + fold (at_ rd (k + 1)). fold (at_ rd k). fold (len k).
      intros i Hi. destruct (Z.eq_dec i k) as [-> | Hne].
      * destruct (len k >? m) eqn:E; lia.
      * pose proof (Hmax i ltac:(lia)). destruct (len k >? m) eqn:E; lia.
    + fold (at_ rd (k + 1)). fold (at_ rd k). fold (len k).
      destruct (len k >? m) eqn:E.
      * right. exists k. split; [lia | reflexivity].
      * destruct Hatt as [Hz | (i & Hi & Hmi)]; [left; exact Hz|].
        right. exists i. split; [lia | exact Hmi].
  - rewrite Hrun. cbn [obind fst snd] in *.
    set (Q := fun (p : Z) (a : list (option Z)) =>
                Z.of_nat (length a) = paddedSize /\
                (forall i, 0 <= i < numRows ->
                   load a i = Some (Some (len i))) /\
                (forall i, numRows <= i < p -> load a i = Some (Some 0))).
    destruct (@for_loop_inv _ Q (fun p a => store a p (Some 0))
                numRows paddedSize rl Hpad) as (rl' & Hrun' & Hlen' & Hr' & Hp').
    + unfold Q. repeat split; auto. intros; lia.
    + intros p a Hp (Hl & Hr & Hz). rewrite store_Some by lia.
      eexists. split; [reflexivity|]. unfold Q. rewrite upd_length.
      split; [exact Hl|]. split.
      * intros i Hi. rewrite load_upd_other by lia. apply Hr, Hi.
      * intros i Hi. destruct (Z.eq_dec i p) as [-> | Hne].
        -- rewrite load_upd_same by lia. reflexivity.
        -- rewrite load_upd_other by lia. apply Hz. lia.
    + rewrite Hrun'. cbn [obind]. exists rl', m.
      split; [reflexivity|]. split; [exact Hlen'|]. split; [exact Hr'|].
      split; [exact Hp'|]. split; [|split; [exact Hm|]].
      * intros i Hi. destruct (Z_lt_dec i numRows) as [Hlt | Hge].
        -- exists (len i). split; [apply Hr'; lia | apply Hmax; lia].
        -- exists 0. split; [apply Hp'; lia | exact Hm].
      * destruct Hatt as [Hz | (i & Hi & Hmi)]; [left; exact Hz|].
        right. exists i. split; [exact Hi|]. rewrite Hmi. apply Hr', Hi.
Qed.

Lemma ellPack_rowLengths_any_delimiters_witness :
  exists rl maxrl,
    ellPack_rowLengths [5; 2; 4] 2 3 = Some (rl, maxrl) /\
    Z.of_nat (length rl) = 3 /\
    (forall i, 0 <= i < 2 ->
       load rl i =
       Some (Some (int_sub (at_ [5; 2; 4] (i + 1)) (at_ [5; 2; 4] i)))) /\
    (forall i, 2 <= i < 3 -> load rl i = Some (Some 0)) /\
    (forall i, 0 <= i < 3 ->
       exists len, load rl i = Some (Some len) /\ len <= maxrl) /\
    0 <= maxrl /\
    (maxrl = 0 \/ exists i, 0 <= i < 2 /\ load rl i = Some (Some maxrl)).
Proof.
  apply ellPack_rowLengths_any_delimiters; simpl; lia.
Defined.

(** X13.  With fewer cells in [h_rowLengths] than the matrix has rows the
    first loop writes past the end of the array, whatever the delimiters and
    whatever [convertToColMajor] does after it. *)
Theorem ellPack_setup_needs_padded_rows :
  forall (toColMajor : convertToColMajor_t) (h_val : list float)
         (h_cols h_rowDelimiters : list Z) (numRows paddedSize : Z)
         (padded : bool),
    0 < numRows ->
    paddedSize < numRows ->
    ellPack_rowLengths h_rowDelimiters numRows paddedSize = None /\
    ellPack_setup toColMajor h_val h_cols h_rowDelimiters numRows padded
      paddedSize = None.
Proof.
  intros toColMajor h_val h_cols rd numRows paddedSize padded Hrows Hlt.
  assert (H : ellPack_rowLengths rd numRows paddedSize = None).
  { unfold ellPack_rowLengths, new_array.
    destruct (paddedSize <? 0) eqn:E; [reflexivity|].
    apply Z.ltb_ge in E. cbn [obind].
    rewrite (@for_loop_fails _
               (fun st : list (option Z) * Z =>
                  Z.of_nat (length (fst st)) = paddedSize)
               _ 0 numRows paddedSize); [reflexivity | lia | | |].
    - cbn [fst]. rewrite repeat_length. lia.
    - intros k [rl m] [rl' m'] Hk Hlen Hb. cbn [fst] in *.
      destruct (load rd (k + 1)); [|discriminate]. cbn [obind] in Hb.
      destruct (load rd k); [|discriminate]. cbn [obind] in Hb.
      destruct (store rl k _) as [rl1|] eqn:Hs; [|discriminate].
      cbn [obind] in Hb.
      destruct (load_init rl1 k); [|discriminate]. cbn [obind] in Hb.
      injection Hb as Hrl _. subst rl'.
      apply store_inv in Hs. destruct Hs as [_ ->].
      rewrite upd_length. exact Hlen.
    - intros [rl m] Hlen. cbn [fst] in *.
      destruct (load rd _); [|reflexivity]. cbn [obind].
      destruct (load rd _); [|reflexivity]. cbn [obind].
      rewrite store_None by lia. reflexivity. }
  split; [exact H|]. unfold ellPack_setup. rewrite H. reflexivity.
Qed.

Lemma ellPack_setup_needs_padded_rows_witness :
  ellPack_rowLengths [0; 1; 2] 2 1 = None /\
  ellPack_setup convertToColMajor [F32.of_Z 1; F32.of_Z 1] [0; 0] [0; 1; 2] 2
    true 1 = None.
Proof.
  apply ellPack_setup_needs_padded_rows; lia.
Defined.

Close Scope opt_scope.

(** ** Runs, step by step *)

Lemma wp_bind_val {A C : Type} (m : M A) (k : A -> M C)
  (Q : C -> world -> Prop) (R : world -> Prop) (w : world) (a : A)
  (w' : world) :
  m w = Val a w' -> wp (k a) Q R w' -> wp (bind m k) Q R w.
Proof. intros Hm Hk. unfold wp, bind. rewrite Hm. exact Hk. Qed.

Section PassLoop.

Variable B : backend.
Variables (numRows : Z) (refOut : list float).
Hypothesis Hrows : 0 <= numRows.
Hypothesis HrefOut : numRows <= Z.of_nat (length refOut).
Hypothesis Hdevice : forall n, numRows <= Z.of_nat (length (device_out B n)).

Variables (k : kernel_id) (globalWorkSize localWorkSize : Z).

(** The timed dispatches of one pass, event by event. *)
Lemma wp_dispatch_loop {A : Type} (rest : double -> M A) Q R w :
  (forall t w',
     live w' = live w -> next_id w' = next_id w ->
     log w' = repeat (EvDispatch k globalWorkSize localWorkSize)
                (Z.to_nat (opt_iterations B)) ++ log w ->
     (opt_iterations B <= 0 -> t = F64.of_Z 0) ->
     wp (rest t) Q R w') ->
  wp (t <- forM 0 (opt_iterations B)
             (fun j t =>
                clEnqueueNDRangeKernel k globalWorkSize localWorkSize ;;;
                clFinish ;;;
                dt <- StartEndRuntime B ;;
                ret (F64.add t dt))
             (F64.of_Z 0) ;;
      rest t) Q R w.
Proof.
  intros Hrest. apply wp_bind.
  apply (@wp_forM _ _
           (fun j t w' =>
              0 <= j /\
              live w' = live w /\ next_id w' = next_id w /\
              log w' = repeat (EvDispatch k globalWorkSize localWorkSize)
                         (Z.to_nat j) ++ log w /\
              (j = 0 -> t = F64.of_Z 0))).
  - repeat split; auto. lia.
  - intros j t w' Hj (Hj0 & Hlive & Hid & Hlog & _).
    unfold clEnqueueNDRangeKernel, clFinish, StartEndRuntime.
    unfold wp, bind, emit, query, ret. cbn [log live next_id now h_out].
    split; [lia|]. split; [exact Hlive|]. split; [exact Hid|]. split; [|lia].
    rewrite Hlog. replace (Z.to_nat (j + 1)) with (S (Z.to_nat j)) by lia.
    reflexivity.
  - intros t w' (_ & Hlive & Hid & Hlog & Ht). apply Hrest; auto.
    + rewrite Hlog. f_equal. f_equal. lia.
    + intros Hle. apply Ht. lia.
Qed.

(** A loop of passes, event by event: it ends after the pass
    [max 0 passes] with every pass verified, or returns from the pass
    whose verification failed. *)
Lemma wp_pass_loop {A : Type} (name name' atts : string)
  (value value' : double -> double -> double) (rest : M A) Q
  (R : world -> Prop) w :
  (forall n w',
     0 <= n < opt_passes B ->
     loop_rel (opt_iterations B) numRows k globalWorkSize localWorkSize
       (pass_results k name name' atts value value') n true w w' ->
     R w') ->
  (forall w',
     loop_rel (opt_iterations B) numRows k globalWorkSize localWorkSize
       (pass_results k name name' atts value value')
       (Z.max 0 (opt_passes B)) false w w' ->
     wp rest Q R w') ->
  wp (forM 0 (opt_passes B)
        (fun pass _ =>
           t <- forM 0 (opt_iterations B)
                  (fun j t =>
                     clEnqueueNDRangeKernel k globalWorkSize localWorkSize ;;;
                     clFinish ;;;
                     dt <- StartEndRuntime B ;;
                     ret (F64.add t dt))
                  (F64.of_Z 0) ;;
           clEnqueueReadBuffer B "d_out" (numRows * sizeof_float) ;;;
           clFinish ;;;
           oTransferTime <- StartEndRuntime B ;;
           passed <- verify k refOut numRows pass ;;
           (if negb passed then Return else ret tt) ;;;
           AddResult k pass name atts "Gflop/s" (value t oTransferTime) ;;;
           AddResult k pass name' atts "Gflop/s" (value' t oTransferTime))
        tt ;;;
      rest) Q R w.
Proof.
  intros HR Hrest. apply wp_bind.
  apply (@wp_forM _ _
           (fun pass _ w' =>
              0 <= pass /\
              loop_rel (opt_iterations B) numRows k globalWorkSize
                localWorkSize (pass_results k name name' atts value value')
                pass false w w')).
  - split; [lia|]. split; [reflexivity|]. split; [reflexivity|].
    exists []. split; [reflexivity | constructor].
  - intros pass [] w1 Hpass (Hp0 & Hlive & Hid & l & Hlog & Htr).
    apply wp_dispatch_loop. intros t w2 Hlive2 Hid2 Hlog2 Ht.
    assert (Hlen : numRows <=
              Z.of_nat (length (read_into (h_out w2) (device_out B (now w2))
                                  (numRows * sizeof_float / sizeof_float)))).
    { unfold sizeof_float. rewrite Z.div_mul by lia.
      apply read_into_length; [exact Hrows | apply Hdevice]. }
    destruct (@verifyResults_returns refOut _ numRows pass Hrows HrefOut Hlen)
      as (passed & Hpassed).
    unfold clEnqueueReadBuffer, clFinish, StartEndRuntime, verify, AddResult.
    unfold wp, bind, emit, query, get_h_out, set_h_out, lift, ret, Return.
    cbn [log live next_id now h_out].
    rewrite Hpassed. destruct passed; cbn [negb log live next_id now h_out].
    + split; [lia|]. unfold loop_rel. cbn [log live next_id now h_out].
      split; [congruence|]. split; [congruence|].
      eexists. split; [|eapply trace_pass; [exact Htr | exact Ht]].
      rewrite Hlog2, Hlog. unfold pass_events, pass_results.
      cbn [app]. rewrite <- !app_assoc. reflexivity.
    + apply (HR pass); [lia|].
      unfold loop_rel. cbn [log live next_id now h_out].
      split; [congruence|]. split; [congruence|].
      eexists. split; [|eapply trace_fail; exact Htr].
      rewrite Hlog2, Hlog. unfold pass_events.
      cbn [app]. rewrite <- !app_assoc. reflexivity.
  - intros [] w' (_ & Hrel). cbv beta. apply Hrest. exact Hrel.
Qed.

End PassLoop.

Lemma wp_val {A : Type} (m : M A) (Q : A -> world -> Prop)
  (R : world -> Prop) (w : world) (a : A) (w' : world) :
  m w = Val a w' -> Q a w' -> wp m Q R w.
Proof. intros Hm HQ. unfold wp. rewrite Hm. exact HQ. Qed.

(** A release of an object that is not among the live ones. *)
Lemma filter_not_live (id : nat) (l : list (nat * resource)) :
  (forall p, In p l -> fst p <> id) ->
  filter (fun p => negb (Nat.eqb (fst p) id)) l = l.
Proof.
  induction l as [|p l IH]; intros H; [reflexivity|].
  cbn [filter]. rewrite (proj2 (Nat.eqb_neq (fst p) id)) by (apply H; left; auto).
  cbn [negb]. f_equal. apply IH. intros q Hq. apply H. right. exact Hq.
Qed.

Lemma if_alloc (c : bool) (r1 r2 : resource) :
  (if c then alloc r1 else alloc r2) = alloc (if c then r1 else r2).
Proof. destruct c; reflexivity. Qed.

Lemma if_emit (c : bool) (e1 e2 : event) :
  (if c then emit e1 else emit e2) = emit (if c then e1 else e2).
Proof. destruct c; reflexivity. Qed.

Lemma imgHeight_val (images : bool) (numRows maxImgWidth : Z) (w : world) :
  (images = true -> maxImgWidth <> 0) ->
  (if images then lift (imgHeight_of numRows maxImgWidth) else ret 0) w
  = Val (if images then (numRows + maxImgWidth - 1) / maxImgWidth else 0) w.
Proof.
  intros H. destruct images; [|reflexivity].
  unfold lift, imgHeight_of.
  rewrite (proj2 (Z.eqb_neq _ _) (H eq_refl)). reflexivity.
Qed.

Lemma release_hit (id : nat) (r : resource) (l : list (nat * resource)) :
  filter (fun p => negb (Nat.eqb (fst p) id)) ((id, r) :: l)
  = filter (fun p => negb (Nat.eqb (fst p) id)) l.
Proof. cbn [filter fst]. rewrite Nat.eqb_refl. reflexivity. Qed.

Lemma release_miss (id a : nat) (r : resource) (l : list (nat * resource)) :
  a <> id ->
  filter (fun p => negb (Nat.eqb (fst p) id)) ((a, r) :: l)
  = (a, r) :: filter (fun p => negb (Nat.eqb (fst p) id)) l.
Proof.
  intros H. cbn [filter fst]. rewrite (proj2 (Nat.eqb_neq a id) H).
  reflexivity.
Qed.

Lemma release_old (w : world) (id : nat) :
  well_formed w -> (next_id w <= id)%nat ->
  filter (fun p => negb (Nat.eqb (fst p) id)) (live w) = live w.
Proof.
  intros Hwf Hid. apply filter_not_live. intros p Hp.
  pose proof (Hwf p Hp). lia.
Qed.

Ltac releases :=
  repeat first [ rewrite release_hit
               | rewrite release_miss by lia
               | rewrite release_old by (assumption || lia) ].

Ltac exec :=
  eapply wp_bind_val; [reflexivity|]; cbn [log live next_id now h_out].

Ltac exec_last :=
  eapply wp_val; [reflexivity|]; cbn [log live next_id now h_out].

Section CsrRuns.

Variables BLOCK_SIZE VECTOR_SIZE : Z.
Variable B : backend.
Hypothesis Hvector : 0 < VECTOR_SIZE.

Variables (numRows : Z) (refOut : list float).
Hypothesis Hrows : 0 <= numRows.
Hypothesis HrefOut : numRows <= Z.of_nat (length refOut).
Hypothesis Hdevice : forall n, numRows <= Z.of_nat (length (device_out B n)).

(** csrTest, event by event, once its program is built. *)
Lemma csrTest_ends (flags : string) (h_val : list float)
  (h_cols h_rowDelimiters : list Z) (h_vec : list float) (nnz : Z)
  (padded : bool) (maxImgWidth : Z) (images : bool) (w : world) :
  well_formed w ->
  build_status B (now w) = CL_SUCCESS ->
  (images = true -> maxImgWidth <> 0) ->
  wp (csrTest BLOCK_SIZE VECTOR_SIZE B flags h_val h_cols h_rowDelimiters
        h_vec numRows nnz refOut padded maxImgWidth images)
     (fun _ => csr_end BLOCK_SIZE VECTOR_SIZE B flags numRows nnz padded
                 maxImgWidth images w)
     (csr_end BLOCK_SIZE VECTOR_SIZE B flags numRows nnz padded maxImgWidth
        images w) w.
Proof.
  intros Hwf Hbuild Himg. unfold csrTest. cbv zeta.
  exec. exec. rewrite Hbuild. cbn [Z.eqb CL_SUCCESS negb].
  unfold clCreateImage2D, clCreateBuffer, clEnqueueWriteImage,
    clEnqueueWriteBuffer.
  do 3 exec.
  eapply wp_bind_val; [apply imgHeight_val; exact Himg|].
  rewrite if_alloc, if_emit.
  do 27 exec.
  eapply (@wp_pass_loop B numRows refOut Hrows HrefOut Hdevice CsrScalar).
  { intros n w1 Hn (Hlive & Hid & l_s & Hlog & Htr).
    cbn [log live next_id now h_out] in Hlive, Hid, Hlog.
    eapply csr_scalar_failed; [exact Hn | exact Htr | | |].
    - rewrite Hlog. unfold csr_setup, kernel_args, d_vec_write, d_vec_object,
        test_flags. destruct images; reflexivity.
    - rewrite Hlive. unfold csr_objects, d_vec_object.
      destruct images; reflexivity.
    - rewrite Hid. reflexivity. }
  intros w1 (Hlive & Hid & l_s & Hlog & Htr).
  cbn [log live next_id now h_out] in Hlive, Hid, Hlog.
  assert (Hsetup : log w1 = l_s ++ csr_setup flags numRows nnz maxImgWidth
                                    images (next_id w) ++ log w).
  { rewrite Hlog. unfold csr_setup, kernel_args, d_vec_write, d_vec_object,
      test_flags. destruct images; reflexivity. }
  assert (Hobjs : live w1 = csr_objects numRows nnz maxImgWidth images
                              (next_id w) ++ live w).
  { rewrite Hlive. unfold csr_objects, d_vec_object.
    destruct images; reflexivity. }
  clear Hlog Hlive.
  unfold getMaxWorkGroupSize. do 3 exec.
  set (maxLocal := max_work_group_size B (now w1)).
  destruct (maxLocal <? 32) eqn:Hmax.
  { apply Z.ltb_lt in Hmax. apply wp_bind. unfold cout, csr_release.
    do 2 exec. apply wp_bind. do 7 exec. exec_last. apply wp_Return.
    eapply csr_vector_skipped;
      [exact Htr | exists (now w1); reflexivity | exact Hmax | | |];
      cbn [log live next_id now h_out].
    - rewrite Hsetup. reflexivity.
    - rewrite Hobjs. unfold csr_objects. cbn [app]. releases. reflexivity.
    - rewrite Hid. reflexivity. }
  apply Z.ltb_ge in Hmax. exec.
  rewrite grow_localWorkSize_closed by exact Hvector. exec.
  eapply (@wp_pass_loop B numRows refOut Hrows HrefOut Hdevice CsrVector).
  { intros n w2 Hn (Hlive2 & Hid2 & l_v & Hlog2 & Htr2).
    cbn [log live next_id now h_out] in Hlive2, Hid2, Hlog2.
    eapply csr_vector_failed;
      [exact Htr | exists (now w1); reflexivity | exact Hmax | exact Hn
      | exact Htr2 | | |].
    - rewrite Hlog2, Hsetup. reflexivity.
    - rewrite Hlive2, Hobjs. reflexivity.
    - rewrite Hid2, Hid. reflexivity. }
  intros w2 (Hlive2 & Hid2 & l_v & Hlog2 & Htr2).
  cbn [log live next_id now h_out] in Hlive2, Hid2, Hlog2.
  unfold csr_release. do 7 exec. exec_last.
  eapply csr_completed;
    [exact Htr | exists (now w1); reflexivity | exact Hmax | exact Htr2 | | |];
    cbn [log live next_id now h_out].
  - rewrite Hlog2, Hsetup. reflexivity.
  - rewrite Hlive2, Hobjs. unfold csr_objects. cbn [app]. releases.
    reflexivity.
  - rewrite Hid2, Hid. reflexivity.
Qed.

End CsrRuns.

(** ** What a loop of passes leaves in the log *)

Lemma count_app (p : event -> bool) (l1 l2 : list event) :
  count_events p (l1 ++ l2) = (count_events p l1 + count_events p l2)%nat.
Proof. unfold count_events. rewrite filter_app, length_app. reflexivity. Qed.

Lemma count_repeat (p : event -> bool) (e : event) (n : nat) :
  count_events p (repeat e n) = if p e then n else 0%nat.
Proof.
  unfold count_events. induction n as [|n IH]; cbn [repeat filter].
  - destruct (p e); reflexivity.
  - destruct (p e); cbn [length]; [f_equal|]; exact IH.
Qed.

Lemma count_none (p : event -> bool) (l : list event) :
  (forall e, In e l -> p e = false) -> count_events p l = 0%nat.
Proof.
  unfold count_events. induction l as [|e l IH]; intros H; [reflexivity|].
  cbn [filter]. rewrite (H e) by (left; reflexivity).
  apply IH. intros e' He'. apply H. right. exact He'.
Qed.

Lemma kernel_eqb_refl (k : kernel_id) : kernel_eqb k k = true.
Proof. destruct k; reflexivity. Qed.

Lemma kernel_eqb_eq (a b : kernel_id) : kernel_eqb a b = true -> a = b.
Proof. destruct a, b; cbn; intros H; try discriminate; reflexivity. Qed.

Section Traces.

Variables (k : kernel_id) (g lws iters numRows : Z).
Variables (name name' atts : string).
Variables value value' : double -> double -> double.

Let trace :=
  passes_trace k g lws iters numRows
    (pass_results k name name' atts value value').

Lemma trace_nonneg (n : Z) (failed : bool) (l : list event) :
  trace n failed l -> 0 <= n.
Proof. intros H. induction H; lia. Qed.

(** Every event of the loop has what the events of its kind have. *)
Lemma trace_Forall (P : event -> Prop) (n : Z) (failed : bool)
  (l : list event) :
  (0 < iters -> P (EvDispatch k g lws)) ->
  P (EvRead "d_out" (numRows * sizeof_float)) ->
  (forall pass passed, 0 <= pass -> P (EvVerify k numRows pass passed)) ->
  (forall pass t o,
     0 <= pass -> (iters <= 0 -> t = F64.of_Z 0) ->
     P (EvAddResult k pass name atts "Gflop/s" (value t o)) /\
     P (EvAddResult k pass name' atts "Gflop/s" (value' t o))) ->
  trace n failed l -> Forall P l.
Proof.
  intros Hd Hr Hv Hres H.
  assert (Hrep : Forall P (repeat (EvDispatch k g lws) (Z.to_nat iters))).
  { apply Forall_forall. intros e He.
    destruct (Z_lt_dec 0 iters) as [Hpos | Hneg].
    - apply repeat_spec in He. subst e. exact (Hd Hpos).
    - replace (Z.to_nat iters) with 0%nat in He by lia. destruct He. }
  induction H as [|n l t o H IH Ht|n l H IH].
  - constructor.
  - pose proof (trace_nonneg H) as Hn.
    destruct (Hres n t o Hn Ht) as [H1 H2].
    unfold pass_events, pass_results. cbn [app].
    repeat constructor; auto.
    apply Forall_app. split; [exact Hrep | exact IH].
  - pose proof (trace_nonneg H) as Hn.
    unfold pass_events. cbn [app].
    repeat constructor; auto.
    apply Forall_app. split; [exact Hrep | exact IH].
Qed.

(** The numbers of the events of the loop, by their kind. *)
Lemma trace_counts (n : Z) (failed : bool) (l : list event) :
  trace n failed l ->
  let verified := Z.to_nat n in
  let verifications := (verified + if failed then 1 else 0)%nat in
  count_events (is_dispatch k) l = (Z.to_nat iters * verifications)%nat /\
  count_events is_read l = verifications /\
  count_events (is_verify k) l = verifications /\
  count_events (is_passed k) l = verified /\
  count_events (is_result k) l = (2 * verified)%nat.
Proof.
  intros H. cbv zeta.
  induction H as [|n l t o H (I1 & I2 & I3 & I4 & I5) Ht
                  |n l H (I1 & I2 & I3 & I4 & I5)].
  - unfold count_events. cbn [filter length]. repeat split; lia.
  - pose proof (trace_nonneg H) as Hn.
    replace (Z.to_nat (n + 1)) with (S (Z.to_nat n)) by lia.
    unfold pass_events, pass_results. cbn [app].
    unfold count_events in *. cbn [filter is_dispatch is_read is_verify
      is_passed is_result]. rewrite !kernel_eqb_refl. cbn [length].
    rewrite !filter_app, !length_app.
    fold (count_events (is_dispatch k) (repeat (EvDispatch k g lws)
                                          (Z.to_nat iters))).
    fold (count_events is_read (repeat (EvDispatch k g lws) (Z.to_nat iters))).
    fold (count_events (is_verify k) (repeat (EvDispatch k g lws)
                                        (Z.to_nat iters))).
    fold (count_events (is_passed k) (repeat (EvDispatch k g lws)
                                        (Z.to_nat iters))).
    fold (count_events (is_result k) (repeat (EvDispatch k g lws)
                                        (Z.to_nat iters))).
    rewrite !count_repeat. cbn [is_dispatch is_read is_verify is_passed
      is_result]. rewrite kernel_eqb_refl.
    rewrite Nat.add_0_r in *. repeat split; lia.
  - pose proof (trace_nonneg H) as Hn.
    unfold pass_events. cbn [app].
    unfold count_events in *. cbn [filter is_dispatch is_read is_verify
      is_passed is_result]. rewrite !kernel_eqb_refl. cbn [length].
    rewrite !filter_app, !length_app.
    fold (count_events (is_dispatch k) (repeat (EvDispatch k g lws)
                                          (Z.to_nat iters))).
    fold (count_events is_read (repeat (EvDispatch k g lws) (Z.to_nat iters))).
    fold (count_events (is_verify k) (repeat (EvDispatch k g lws)
                                        (Z.to_nat iters))).
    fold (count_events (is_passed k) (repeat (EvDispatch k g lws)
                                        (Z.to_nat iters))).
    fold (count_events (is_result k) (repeat (EvDispatch k g lws)
                                        (Z.to_nat iters))).
    rewrite !count_repeat. cbn [is_dispatch is_read is_verify is_passed
      is_result]. rewrite kernel_eqb_refl.
    rewrite Nat.add_0_r in *. repeat split; lia.
Qed.

(** The events of the loop of kernel [k] are none of another kernel. *)
Lemma trace_other_kernel (k' : kernel_id) (n : Z) (failed : bool)
  (l : list event) :
  kernel_eqb k k' = false ->
  trace n failed l ->
  Forall (fun e => is_dispatch k' e = false /\ is_verify k' e = false /\
                   is_passed k' e = false /\ is_result k' e = false) l.
Proof.
  intros Hk H. eapply trace_Forall; [| | | |exact H].
  - intros _. cbn. rewrite Hk. auto.
  - cbn. auto.
  - intros pass passed _. cbn. rewrite Hk. destruct passed; auto.
  - intros pass t o _ _. cbn. rewrite Hk. auto.
Qed.

(** A loop that returned has the failed verification on top of its
    events. *)
Lemma trace_failed_head (n : Z) (l : list event) :
  trace n true l -> exists l', l = EvVerify k numRows n false :: l'.
Proof.
  intros H. inversion H; subst. unfold pass_events. cbn [app].
  eexists. reflexivity.
Qed.

(** A loop that got to a verification has read back and verified in its
    pass 0. *)
Lemma trace_first_pass (n : Z) (failed : bool) (l : list event) :
  trace n failed l ->
  0 < n \/ failed = true ->
  In (EvRead "d_out" (numRows * sizeof_float)) l /\
  exists passed, In (EvVerify k numRows 0 passed) l.
Proof.
  intros H. induction H as [|n l t o H IH Ht|n l H IH]; intros Hn.
  - destruct Hn as [Hn | Hn]; [lia | discriminate].
  - destruct (Z.eq_dec n 0) as [-> | Hne].
    + unfold pass_events. split; [|exists true]; rewrite !in_app_iff;
        cbn [In]; auto.
    + pose proof (trace_nonneg H) as H0.
      destruct (IH ltac:(left; lia)) as (Hr & passed & Hv).
      split; [|exists passed]; apply in_or_app; right; assumption.
  - destruct (Z.eq_dec n 0) as [-> | Hne].
    + unfold pass_events. split; [|exists false]; rewrite !in_app_iff;
        cbn [In]; auto.
    + pose proof (trace_nonneg H) as H0.
      destruct (IH ltac:(left; lia)) as (Hr & passed & Hv).
      split; [|exists passed]; apply in_or_app; right; assumption.
Qed.

End Traces.

(** ** csrTest: how it ends *)

Section CsrFacts.

Variables BLOCK_SIZE VECTOR_SIZE : Z.
Variable B : backend.
Hypothesis Hvector : 0 < VECTOR_SIZE.

Variables (numRows : Z) (refOut : list float).
Hypothesis Hrows : 0 <= numRows.
Hypothesis HrefOut : numRows <= Z.of_nat (length refOut).
Hypothesis Hdevice : forall n, numRows <= Z.of_nat (length (device_out B n)).

Variables (flags : string) (h_val : list float).
Variables (h_cols h_rowDelimiters : list Z) (h_vec : list float).
Variables (nnz : Z) (padded : bool) (maxImgWidth : Z) (images : bool).
Hypothesis Himg : images = true -> maxImgWidth <> 0.

(** With a program that does not build csrTest prints the two lines of
    the build log and returns. *)
Lemma csrTest_not_built (w : world) :
  build_status B (now w) <> CL_SUCCESS ->
  exists w',
    run (csrTest BLOCK_SIZE VECTOR_SIZE B flags h_val h_cols h_rowDelimiters
           h_vec numRows nnz refOut padded maxImgWidth images) w = Some w' /\
    log w' = [EvPrint "Log: "; EvPrint "Retsize: ";
              EvBuild (test_flags flags maxImgWidth images)
                (build_status B (now w));
              EvAlloc (next_id w) Program] ++ log w /\
    live w' = (next_id w, Program) :: live w /\
    next_id w' = S (next_id w).
Proof.
  intros Hbuild.
  apply (@wp_run _ (fun w' =>
           log w' = [EvPrint "Log: "; EvPrint "Retsize: ";
                     EvBuild (test_flags flags maxImgWidth images)
                       (build_status B (now w));
                     EvAlloc (next_id w) Program] ++ log w /\
           live w' = (next_id w, Program) :: live w /\
           next_id w' = S (next_id w))).
  unfold csrTest. cbv zeta. exec. exec.
  rewrite (proj2 (Z.eqb_neq _ _) Hbuild). cbn [negb].
  apply wp_bind. unfold cout. do 2 exec. apply wp_Return.
  cbn [log live next_id]. auto.
Qed.

(** csrTest returns, in one of its five ways. *)
Lemma csrTest_run (w : world) :
  well_formed w ->
  exists w',
    run (csrTest BLOCK_SIZE VECTOR_SIZE B flags h_val h_cols h_rowDelimiters
           h_vec numRows nnz refOut padded maxImgWidth images) w = Some w' /\
    ((build_status B (now w) <> CL_SUCCESS /\
      log w' = [EvPrint "Log: "; EvPrint "Retsize: ";
                EvBuild (test_flags flags maxImgWidth images)
                  (build_status B (now w));
                EvAlloc (next_id w) Program] ++ log w /\
      live w' = (next_id w, Program) :: live w /\
      next_id w' = S (next_id w)) \/
     (build_status B (now w) = CL_SUCCESS /\
      csr_end BLOCK_SIZE VECTOR_SIZE B flags numRows nnz padded maxImgWidth
        images w w')).
Proof.
  intros Hwf. destruct (Z.eq_dec (build_status B (now w)) CL_SUCCESS) as [E | E].
  - destruct (@wp_run
                (csrTest BLOCK_SIZE VECTOR_SIZE B flags h_val h_cols
                   h_rowDelimiters h_vec numRows nnz refOut padded maxImgWidth
                   images)
                (csr_end BLOCK_SIZE VECTOR_SIZE B flags numRows nnz padded
                   maxImgWidth images w) w) as (w' & Hrun & Hend).
    { apply csrTest_ends; assumption. }
    exists w'. split; [exact Hrun|]. right. split; [exact E | exact Hend].
  - destruct (csrTest_not_built w E) as (w' & Hrun & Hpost).
    exists w'. split; [exact Hrun|]. left. split; [exact E | exact Hpost].
Qed.

End CsrFacts.

Section CsrEvents.

Variables BLOCK_SIZE VECTOR_SIZE : Z.
Variable B : backend.
Variables (flags : string) (numRows nnz : Z) (padded : bool).
Variables (maxImgWidth : Z) (images : bool).

(** The events of csrTest outside its two loops are no dispatches,
    read-backs, verifications or results. *)
Lemma csr_fixed_events (n : nat) :
  Forall (fun e => is_pass_event e = false)
    (csr_frees n ++ csr_skip ++ csr_between numRows ++
     csr_setup flags numRows nnz maxImgWidth images n).
Proof.
  unfold csr_frees, csr_skip, csr_between, csr_setup, kernel_args, d_vec_write.
  cbn [app]. destruct images; repeat constructor.
Qed.

(** A property of the events that holds in the loops holds in the whole
    run. *)
Lemma csr_end_Forall (P : event -> Prop) (w w' : world) :
  csr_end BLOCK_SIZE VECTOR_SIZE B flags numRows nnz padded maxImgWidth
    images w w' ->
  (forall e, is_pass_event e = false -> P e) ->
  (forall iT n failed l,
     scalar_trace BLOCK_SIZE B numRows nnz padded iT n failed l ->
     Forall P l) ->
  (forall iT maxLocal n failed l,
     (exists t, maxLocal = max_work_group_size B t) ->
     32 <= maxLocal ->
     vector_trace BLOCK_SIZE VECTOR_SIZE B numRows nnz padded iT maxLocal
       n failed l ->
     Forall P l) ->
  exists l, log w' = l ++ log w /\ Forall P l.
Proof.
  intros Hend Hfix Hs Hv.
  pose proof (csr_fixed_events (next_id w)) as Hf.
  rewrite !Forall_app in Hf. destruct Hf as (Hfrees & Hskip & Hbetween & Hsetup).
  assert (Hweak : forall l, Forall (fun e => is_pass_event e = false) l ->
                            Forall P l).
  { intros l Hl. eapply Forall_impl; [|exact Hl]. exact Hfix. }
  destruct Hend as [w' iT pass l_s Hp Htr Hlog _ _
                   |w' iT maxLocal l_s Htr Hq Hmax Hlog _ _
                   |w' iT maxLocal pass l_s l_v Htr Hq Hmax Hp Htr2 Hlog _ _
                   |w' iT maxLocal l_s l_v Htr Hq Hmax Htr2 Hlog _ _].
  - eexists. split; [rewrite Hlog, app_assoc; reflexivity|].
    rewrite Forall_app. split; [eapply Hs; exact Htr | auto].
  - eexists. split; [rewrite Hlog, !app_assoc; reflexivity|].
    rewrite !Forall_app. repeat split; auto. eapply Hs; exact Htr.
  - eexists. split; [rewrite Hlog, !app_assoc; reflexivity|].
    rewrite !Forall_app. repeat split; auto.
    + eapply Hv; eassumption.
    + eapply Hs; exact Htr.
  - eexists. split; [rewrite Hlog, !app_assoc; reflexivity|].
    rewrite !Forall_app. repeat split; auto.
    + eapply Hv; eassumption.
    + eapply Hs; exact Htr.
Qed.

End CsrEvents.

(** Results on top of events whose results are verified. *)
Lemma results_verified_cons (numRows : Z) (e : event) (l : list event) :
  results_verified numRows l ->
  (forall k pass name atts units value,
     e = EvAddResult k pass name atts units value ->
     In (EvVerify k numRows pass true) l) ->
  results_verified numRows (e :: l).
Proof.
  intros Hl He l2 k pass name atts units value l1 Heq.
  destruct l2 as [|e' l2]; cbn [app] in Heq.
  - injection Heq as He' Hl1. subst l1. eapply He. exact He'.
  - injection Heq as _ Hl1. eapply Hl. exact Hl1.
Qed.

Lemma results_verified_app (numRows : Z) (l0 l : list event) :
  Forall (fun e => match e with
                   | EvAddResult _ _ _ _ _ _ => False
                   | _ => True
                   end) l0 ->
  results_verified numRows l ->
  results_verified numRows (l0 ++ l).
Proof.
  induction l0 as [|e l0 IH]; intros H0 Hl; [exact Hl|].
  inversion H0 as [|? ? He H0']. subst. cbn [app].
  apply results_verified_cons; [apply IH; assumption|].
  intros k pass name atts units value ->. destruct He.
Qed.

Lemma results_verified_fixed (numRows : Z) (l0 l : list event) :
  Forall (fun e => is_pass_event e = false) l0 ->
  results_verified numRows l ->
  results_verified numRows (l0 ++ l).
Proof.
  intros H0. apply results_verified_app.
  eapply Forall_impl; [|exact H0]. intros e He.
  destruct e; try exact I. discriminate.
Qed.

Lemma results_verified_trace (k : kernel_id) (g lws iters numRows : Z)
  (name name' atts : string) (value value' : double -> double -> double)
  (n : Z) (failed : bool) (l l0 : list event) :
  passes_trace k g lws iters numRows
    (pass_results k name name' atts value value') n failed l ->
  results_verified numRows l0 ->
  results_verified numRows (l ++ l0).
Proof.
  intros H H0.
  assert (Hrep : forall m l1,
            results_verified numRows l1 ->
            results_verified numRows (repeat (EvDispatch k g lws) m ++ l1)).
  { intros m l1 H1. apply results_verified_app; [|exact H1].
    apply Forall_forall. intros e He. apply repeat_spec in He. subst e.
    exact I. }
  induction H as [|n l t o H IH Ht|n l H IH].
  - exact H0.
  - unfold pass_events, pass_results. cbn [app]. rewrite <- app_assoc.
    apply results_verified_cons; [apply results_verified_cons;
      [apply results_verified_cons; [apply results_verified_cons|]|]|].
    + apply Hrep. exact IH.
    + intros ? ? ? ? ? ? E. discriminate.
    + intros ? ? ? ? ? ? E. discriminate.
    + intros k0 p nm a u v E. inversion E. subst. left. reflexivity.
    + intros k0 p nm a u v E. inversion E. subst. right. left. reflexivity.
  - unfold pass_events. cbn [app]. rewrite <- app_assoc.
    apply results_verified_cons; [apply results_verified_cons|].
    + apply Hrep. exact IH.
    + intros ? ? ? ? ? ? E. discriminate.
    + intros ? ? ? ? ? ? E. discriminate.
Qed.

Lemma div_zero_iterations (gflop x : double) :
  F64.div gflop (F64.div (F64.of_Z 0) (F64.of_Z 0)) = S754_nan /\
  F64.div gflop (F64.add (F64.div (F64.of_Z 0) (F64.of_Z 0)) x) = S754_nan.
Proof.
  change (F64.div (F64.of_Z 0) (F64.of_Z 0)) with S754_nan.
  change (F64.add S754_nan x) with S754_nan.
  rewrite div_nan_r. auto.
Qed.

Lemma world_h_out_well_formed (h : list float) : well_formed (world_h_out h).
Proof. intros p []. Qed.

Lemma world0_well_formed : well_formed world0.
Proof. intros p []. Qed.

(** No event outside the loops of passes is counted among the dispatches,
    the read-backs, the verifications or the results. *)
Lemma count_fixed (p : event -> bool) (l : list event) :
  (forall e, p e = true -> is_pass_event e = true) ->
  Forall (fun e => is_pass_event e = false) l ->
  count_events p l = 0%nat.
Proof.
  intros Hp Hl. apply count_none. intros e He.
  rewrite Forall_forall in Hl. specialize (Hl e He).
  destruct (p e) eqn:E; [|reflexivity].
  rewrite (Hp e E) in Hl. discriminate.
Qed.

Lemma is_dispatch_pass (k : kernel_id) (e : event) :
  is_dispatch k e = true -> is_pass_event e = true.
Proof. destruct e; intros E; try discriminate; reflexivity. Qed.

Lemma is_verify_pass (k : kernel_id) (e : event) :
  is_verify k e = true -> is_pass_event e = true.
Proof. destruct e; intros E; try discriminate; reflexivity. Qed.

Lemma is_passed_pass (k : kernel_id) (e : event) :
  is_passed k e = true -> is_pass_event e = true.
Proof. destruct e; intros E; try discriminate; reflexivity. Qed.

Lemma is_result_pass (k : kernel_id) (e : event) :
  is_result k e = true -> is_pass_event e = true.
Proof. destruct e; intros E; try discriminate; reflexivity. Qed.

Lemma is_read_pass (e : event) :
  is_read e = true -> is_pass_event e = true.
Proof. destruct e; intros E; try discriminate; reflexivity. Qed.

Ltac fixed_counts :=
  repeat match goal with
         | H : Forall (fun e => is_pass_event e = false) ?l
           |- context [count_events ?p ?l] =>
             rewrite (@count_fixed p l)
               by first [ exact H
                        | apply is_dispatch_pass | apply is_verify_pass
                        | apply is_passed_pass | apply is_result_pass
                        | apply is_read_pass ]
         end.

(** The loop of kernel [k] has no events of another kernel [k']. *)
Lemma trace_counts_other (k k' : kernel_id) (g lws iters numRows : Z)
  (name name' atts : string) (value value' : double -> double -> double)
  (n : Z) (failed : bool) (l : list event) :
  kernel_eqb k k' = false ->
  passes_trace k g lws iters numRows
    (pass_results k name name' atts value value') n failed l ->
  count_events (is_dispatch k') l = 0%nat /\
  count_events (is_verify k') l = 0%nat /\
  count_events (is_passed k') l = 0%nat /\
  count_events (is_result k') l = 0%nat.
Proof.
  intros Hk Htr.
  pose proof (@trace_other_kernel k g lws iters numRows name name' atts
                value value' k' n failed l Hk Htr) as Ho.
  rewrite Forall_forall in Ho.
  repeat split; apply count_none; intros e He; apply (Ho e He).
Qed.

Section CsrTheorems.

Variables BLOCK_SIZE VECTOR_SIZE : Z.
Variable B : backend.
Hypothesis Hvector : 0 < VECTOR_SIZE.

Variables (numRows : Z) (refOut : list float).
Hypothesis Hrows : 0 <= numRows.
Hypothesis HrefOut : numRows <= Z.of_nat (length refOut).
Hypothesis Hdevice : forall n, numRows <= Z.of_nat (length (device_out B n)).

Variables (flags : string) (h_val : list float).
Variables (h_cols h_rowDelimiters : list Z) (h_vec : list float).
Variables (nnz : Z) (padded : bool) (maxImgWidth : Z) (images : bool).
Hypothesis Himg : images = true -> maxImgWidth <> 0.

Ltac csrTest_cases w Hwf w' Hrun Hcases :=
  destruct (@csrTest_run BLOCK_SIZE VECTOR_SIZE B Hvector numRows refOut Hrows
              HrefOut Hdevice flags h_val h_cols h_rowDelimiters h_vec nnz
              padded maxImgWidth images Himg w Hwf) as (w' & Hrun & Hcases).

(** X14.  If the program does not build, csrTest prints the two lines of the
    build log and returns: it has created no buffer and no kernel, has
    written, dispatched and recorded nothing, and has not released the
    program. *)
Theorem csrTest_build_failure (w : world) :
  build_status B (now w) <> CL_SUCCESS ->
  exists w',
    run (csrTest BLOCK_SIZE VECTOR_SIZE B flags h_val h_cols h_rowDelimiters
           h_vec numRows nnz refOut padded maxImgWidth images) w = Some w' /\
    log w' = [EvPrint "Log: "; EvPrint "Retsize: ";
              EvBuild (test_flags flags maxImgWidth images)
                (build_status B (now w));
              EvAlloc (next_id w) Program] ++ log w /\
    live w' = (next_id w, Program) :: live w.
Proof.
  intros Hbuild.
  destruct (@csrTest_not_built BLOCK_SIZE VECTOR_SIZE B numRows refOut flags
              h_val h_cols h_rowDelimiters h_vec nnz padded maxImgWidth images
              w Hbuild) as (w' & Hrun & Hlog & Hlive & _).
  exists w'. auto.
Qed.

(** X15.  Where its run is defined ([csrTest_pre]: the host arrays hold
    what the transfers read and write, the sizes are within [int]),
    csrTest ends in one of three ways.  At its end, the regular one or the
    one for a work group size below 32, it has released the eight objects
    it created.  Where it returns at a failed verification all eight are
    still live, and where it returns at a failed build the program is. *)
Theorem csrTest_releases_or_leaks (w : world) :
  well_formed w ->
  csrTest_pre VECTOR_SIZE h_val h_cols h_rowDelimiters h_vec numRows nnz
    maxImgWidth images w ->
  exists w',
    run (csrTest BLOCK_SIZE VECTOR_SIZE B flags h_val h_cols h_rowDelimiters
           h_vec numRows nnz refOut padded maxImgWidth images) w = Some w' /\
    ((hd_error (log w') = Some (EvFree (next_id w)) /\ live w' = live w) \/
     ((exists k pass,
         hd_error (log w') = Some (EvVerify k numRows pass false)) /\
      live w' =
      csr_objects numRows nnz maxImgWidth images (next_id w) ++ live w) \/
     (hd_error (log w') = Some (EvPrint "Log: ") /\
      build_status B (now w) <> CL_SUCCESS /\
      live w' = (next_id w, Program) :: live w)).
Proof.
  intros Hwf Hpre.
  csrTest_cases w Hwf w' Hrun Hcases.
  destruct Hcases as [(Hb & Hlog & Hlive & _) | (Hb & Hend)].
  { exists w'. split; [exact Hrun|]. right. right.
    rewrite Hlog. repeat split; auto. }
  exists w'. split; [exact Hrun|].
  destruct Hend as [w' iT pass l_s Hp Htr Hlog Hlive _
                   |w' iT maxLocal l_s Htr Hq Hmax Hlog Hlive _
                   |w' iT maxLocal pass l_s l_v Htr Hq Hmax Hp Htr2 Hlog Hlive _
                   |w' iT maxLocal l_s l_v Htr Hq Hmax Htr2 Hlog Hlive _].
  - right. left. split; [|exact Hlive].
    destruct (trace_failed_head Htr) as (l' & ->).
    exists CsrScalar, pass. rewrite Hlog. reflexivity.
  - left. split; [rewrite Hlog; reflexivity | exact Hlive].
  - right. left. split; [|exact Hlive].
    destruct (trace_failed_head Htr2) as (l' & ->).
    exists CsrVector, pass. rewrite Hlog. reflexivity.
  - left. split; [rewrite Hlog; reflexivity | exact Hlive].
Qed.


(** The events of a csrTest that returned at a failed build. *)
Lemma not_built_events (fl : string) (err : Z) (id : nat) :
  Forall (fun e => is_pass_event e = false)
    [EvPrint "Log: "; EvPrint "Retsize: "; EvBuild fl err; EvAlloc id Program].
Proof. repeat constructor. Qed.

(** X16.  In every run of csrTest that is defined ([csrTest_pre]), for
    each kernel: every verification comes after exactly [iterations]
    dispatches, every verification that passed is followed by exactly two
    results, and there are at most [passes] verifications; every
    verification has its read-back.  A run that reaches the releases has
    verified every pass of the scalar kernel, and every pass of the vector
    kernel unless it skipped that kernel. *)
Theorem csrTest_event_counts (w : world) :
  well_formed w ->
  csrTest_pre VECTOR_SIZE h_val h_cols h_rowDelimiters h_vec numRows nnz
    maxImgWidth images w ->
  exists w' l,
    run (csrTest BLOCK_SIZE VECTOR_SIZE B flags h_val h_cols h_rowDelimiters
           h_vec numRows nnz refOut padded maxImgWidth images) w = Some w' /\
    log w' = l ++ log w /\
    (forall k,
       count_events (is_dispatch k) l
       = (Z.to_nat (opt_iterations B) * count_events (is_verify k) l)%nat /\
       count_events (is_result k) l
       = (2 * count_events (is_passed k) l)%nat /\
       (count_events (is_verify k) l <= Z.to_nat (opt_passes B))%nat) /\
    count_events is_read l
    = (count_events (is_verify CsrScalar) l
       + count_events (is_verify CsrVector) l)%nat /\
    (hd_error l = Some (EvFree (next_id w)) ->
     count_events (is_passed CsrScalar) l = Z.to_nat (opt_passes B) /\
     (count_events (is_passed CsrVector) l = Z.to_nat (opt_passes B) \/
      In (EvPrint "Skipping this kernel.") l)).
Proof.
  intros Hwf Hpre.
  csrTest_cases w Hwf w' Hrun Hcases.
  destruct Hcases as [(Hb & Hlog & _) | (Hb & Hend)].
  { exists w'. eexists. split; [exact Hrun|]. split; [exact Hlog|].
    pose proof (not_built_events (test_flags flags maxImgWidth images)
                  (build_status B (now w)) (next_id w)) as Hnb.
    split; [|split].
    - intros k. fixed_counts. lia.
    - fixed_counts. reflexivity.
    - discriminate. }
  pose proof (csr_fixed_events flags numRows nnz maxImgWidth images
                (next_id w)) as Hf.
  rewrite !Forall_app in Hf.
  destruct Hf as (Hfrees & Hskip & Hbetween & Hsetup).
  exists w'.
  destruct Hend as [w' iT pass l_s Hpass Htr Hlog _ _
                   |w' iT maxLocal l_s Htr Hq Hmax Hlog _ _
                   |w' iT maxLocal pass l_s l_v Htr Hq Hmax Hpass Htr2 Hlog _ _
                   |w' iT maxLocal l_s l_v Htr Hq Hmax Htr2 Hlog _ _].
  - eexists. split; [exact Hrun|].
    split; [rewrite Hlog, app_assoc; reflexivity|].
    destruct (trace_counts Htr) as (C1 & C2 & C3 & C4 & C5).
    destruct (@trace_counts_other CsrScalar CsrVector _ _ _ _ _ _ _ _ _ _ _ _ eq_refl
                Htr) as (V1 & V2 & V3 & V4).
    destruct (@trace_counts_other CsrScalar Ellpackr _ _ _ _ _ _ _ _ _ _ _ _ eq_refl
                Htr) as (E1 & E2 & E3 & E4).
    split; [|split].
    + intros k. rewrite !count_app. fixed_counts. destruct k; nia.
    + rewrite !count_app. fixed_counts. lia.
    + destruct (trace_failed_head Htr) as (l' & ->). discriminate.
  - eexists. split; [exact Hrun|].
    split; [rewrite Hlog, !app_assoc; reflexivity|].
    destruct (trace_counts Htr) as (C1 & C2 & C3 & C4 & C5).
    destruct (@trace_counts_other CsrScalar CsrVector _ _ _ _ _ _ _ _ _ _ _ _ eq_refl
                Htr) as (V1 & V2 & V3 & V4).
    destruct (@trace_counts_other CsrScalar Ellpackr _ _ _ _ _ _ _ _ _ _ _ _ eq_refl
                Htr) as (E1 & E2 & E3 & E4).
    split; [|split].
    + intros k. rewrite !count_app. fixed_counts. destruct k; nia.
    + rewrite !count_app. fixed_counts. lia.
    + intros _. rewrite !count_app. fixed_counts.
      split; [lia|]. right.
      rewrite !in_app_iff. unfold csr_skip. cbn [In]. tauto.
  - eexists. split; [exact Hrun|].
    split; [rewrite Hlog, !app_assoc; reflexivity|].
    destruct (trace_counts Htr) as (C1 & C2 & C3 & C4 & C5).
    destruct (trace_counts Htr2) as (D1 & D2 & D3 & D4 & D5).
    destruct (@trace_counts_other CsrScalar CsrVector _ _ _ _ _ _ _ _ _ _ _ _ eq_refl
                Htr) as (V1 & V2 & V3 & V4).
    destruct (@trace_counts_other CsrScalar Ellpackr _ _ _ _ _ _ _ _ _ _ _ _ eq_refl
                Htr) as (E1 & E2 & E3 & E4).
    destruct (@trace_counts_other CsrVector CsrScalar _ _ _ _ _ _ _ _ _ _ _ _ eq_refl
                Htr2) as (S1 & S2 & S3 & S4).
    destruct (@trace_counts_other CsrVector Ellpackr _ _ _ _ _ _ _ _ _ _ _ _ eq_refl
                Htr2) as (F1 & F2 & F3 & F4).
    split; [|split].
    + intros k. rewrite !count_app. fixed_counts. destruct k; nia.
    + rewrite !count_app. fixed_counts. lia.
    + destruct (trace_failed_head Htr2) as (l' & ->). discriminate.
  - eexists. split; [exact Hrun|].
    split; [rewrite Hlog, !app_assoc; reflexivity|].
    destruct (trace_counts Htr) as (C1 & C2 & C3 & C4 & C5).
    destruct (trace_counts Htr2) as (D1 & D2 & D3 & D4 & D5).
    destruct (@trace_counts_other CsrScalar CsrVector _ _ _ _ _ _ _ _ _ _ _ _ eq_refl
                Htr) as (V1 & V2 & V3 & V4).
    destruct (@trace_counts_other CsrScalar Ellpackr _ _ _ _ _ _ _ _ _ _ _ _ eq_refl
                Htr) as (E1 & E2 & E3 & E4).
    destruct (@trace_counts_other CsrVector CsrScalar _ _ _ _ _ _ _ _ _ _ _ _ eq_refl
                Htr2) as (S1 & S2 & S3 & S4).
    destruct (@trace_counts_other CsrVector Ellpackr _ _ _ _ _ _ _ _ _ _ _ _ eq_refl
                Htr2) as (F1 & F2 & F3 & F4).
    split; [|split].
    + intros k. rewrite !count_app. fixed_counts. destruct k; nia.
    + rewrite !count_app. fixed_counts. lia.
    + intros _. rewrite !count_app. fixed_counts. split; [lia|]. left. lia.
Qed.


(** The events of the run, with a property that holds for the events of
    the loops and for every event outside them. *)
Lemma csrTest_Forall (P : event -> Prop) (w : world) :
  well_formed w ->
  (forall e, is_pass_event e = false -> P e) ->
  (forall iT n failed l,
     scalar_trace BLOCK_SIZE B numRows nnz padded iT n failed l ->
     Forall P l) ->
  (forall iT maxLocal n failed l,
     (exists t, maxLocal = max_work_group_size B t) ->
     32 <= maxLocal ->
     vector_trace BLOCK_SIZE VECTOR_SIZE B numRows nnz padded iT maxLocal
       n failed l ->
     Forall P l) ->
  exists w' l,
    run (csrTest BLOCK_SIZE VECTOR_SIZE B flags h_val h_cols h_rowDelimiters
           h_vec numRows nnz refOut padded maxImgWidth images) w = Some w' /\
    log w' = l ++ log w /\ Forall P l.
Proof.
  intros Hwf Hfix Hs Hv.
  csrTest_cases w Hwf w' Hrun Hcases.
  exists w'.
  destruct Hcases as [(Hb & Hlog & _) | (Hb & Hend)].
  - eexists. split; [exact Hrun|]. split; [exact Hlog|].
    eapply Forall_impl; [exact Hfix | apply not_built_events].
  - destruct (csr_end_Forall Hend Hfix Hs Hv) as (l & Hlog & Hall).
    exists l. auto.
Qed.

(** X17.  On a device whose work group size for the vector kernel is
    below 32 a run of csrTest that is defined ([csrTest_pre]) never
    dispatches that kernel: there is no dispatch, no verification and no
    result of it.  If the program was built and no verification of the
    scalar kernel failed, csrTest says that it skips the kernel and
    releases all its objects. *)
Theorem csrTest_skips_vector_kernel (w : world) :
  well_formed w ->
  csrTest_pre VECTOR_SIZE h_val h_cols h_rowDelimiters h_vec numRows nnz
    maxImgWidth images w ->
  (forall t, max_work_group_size B t < 32) ->
  exists w' l,
    run (csrTest BLOCK_SIZE VECTOR_SIZE B flags h_val h_cols h_rowDelimiters
           h_vec numRows nnz refOut padded maxImgWidth images) w = Some w' /\
    log w' = l ++ log w /\
    (forall g lws, ~ In (EvDispatch CsrVector g lws) l) /\
    (forall size pass passed, ~ In (EvVerify CsrVector size pass passed) l) /\
    (forall pass name atts units value,
       ~ In (EvAddResult CsrVector pass name atts units value) l) /\
    (build_status B (now w) = CL_SUCCESS ->
     (forall size pass, ~ In (EvVerify CsrScalar size pass false) l) ->
     In (EvPrint "Skipping this kernel.") l /\ live w' = live w).
Proof.
  intros Hwf Hpre Hsmall.
  set (P := fun e => match e with
                     | EvDispatch CsrVector _ _ => False
                     | EvVerify CsrVector _ _ _ => False
                     | EvAddResult CsrVector _ _ _ _ _ => False
                     | _ => True
                     end).
  assert (Hfix : forall e, is_pass_event e = false -> P e).
  { intros [] E; try exact I; discriminate. }
  assert (Hs : forall iT n failed l,
            scalar_trace BLOCK_SIZE B numRows nnz padded iT n failed l ->
            Forall P l).
  { intros iT n failed l Htr.
    eapply trace_Forall; [| | | |exact Htr]; intros; cbn; auto. }
  csrTest_cases w Hwf w' Hrun Hcases.
  exists w'.
  assert (Hconv : forall l, Forall P l ->
            (forall g lws, ~ In (EvDispatch CsrVector g lws) l) /\
            (forall size pass passed,
               ~ In (EvVerify CsrVector size pass passed) l) /\
            (forall pass name atts units value,
               ~ In (EvAddResult CsrVector pass name atts units value) l)).
  { intros l Hl. rewrite Forall_forall in Hl.
    repeat split; intros; intros Hin; exact (Hl _ Hin). }
  destruct Hcases as [(Hb & Hlog & _) | (Hb & Hend)].
  { eexists. split; [exact Hrun|]. split; [exact Hlog|].
    assert (Hall : Forall P [EvPrint "Log: "; EvPrint "Retsize: ";
                             EvBuild (test_flags flags maxImgWidth images)
                               (build_status B (now w));
                             EvAlloc (next_id w) Program])
      by (repeat constructor).
    destruct (Hconv _ Hall) as (H1 & H2 & H3).
    split; [exact H1|]. split; [exact H2|]. split; [exact H3|].
    intros Hok. contradiction. }
  pose proof (csr_fixed_events flags numRows nnz maxImgWidth images
                (next_id w)) as Hf.
  rewrite !Forall_app in Hf.
  destruct Hf as (Hfrees & Hskip & Hbetween & Hsetup).
  assert (Hweak : forall l, Forall (fun e => is_pass_event e = false) l ->
                            Forall P l).
  { intros l Hl. eapply Forall_impl; [exact Hfix | exact Hl]. }
  destruct Hend as [w' iT pass l_s Hpass Htr Hlog Hlive _
                   |w' iT maxLocal l_s Htr Hq Hmax Hlog Hlive _
                   |w' iT maxLocal pass l_s l_v Htr [t Hq] Hmax Hpass Htr2 _ _ _
                   |w' iT maxLocal l_s l_v Htr [t Hq] Hmax Htr2 _ _ _].
  - eexists. split; [exact Hrun|].
    split; [rewrite Hlog, app_assoc; reflexivity|].
    assert (Hall : Forall P (l_s ++ csr_setup flags numRows nnz maxImgWidth
                                     images (next_id w))).
    { rewrite Forall_app. split; [eapply Hs; exact Htr | auto]. }
    destruct (Hconv _ Hall) as (H1 & H2 & H3).
    split; [exact H1|]. split; [exact H2|]. split; [exact H3|].
    intros _ Hnone. exfalso.
    destruct (trace_failed_head Htr) as (l' & ->).
    apply (Hnone numRows pass). left. reflexivity.
  - eexists. split; [exact Hrun|].
    split; [rewrite Hlog, !app_assoc; reflexivity|].
    assert (Hall : Forall P ((((csr_frees (next_id w) ++ csr_skip) ++
                               csr_between numRows) ++ l_s) ++
                             csr_setup flags numRows nnz maxImgWidth images
                               (next_id w))).
    { rewrite !Forall_app. repeat split; auto. eapply Hs; exact Htr. }
    destruct (Hconv _ Hall) as (H1 & H2 & H3).
    split; [exact H1|]. split; [exact H2|]. split; [exact H3|].
    intros _ _. split; [|exact Hlive].
    rewrite !in_app_iff. unfold csr_skip. cbn [In]. tauto.
  - specialize (Hsmall t). lia.
  - specialize (Hsmall t). lia.
Qed.

(** X18.  With [iterations] 0 a run of csrTest that is defined
    ([csrTest_pre]) dispatches no kernel and still reads back and
    verifies: if the program was built and there is a pass, [d_out] is
    read back and pass 0 of the scalar kernel is verified.  Every result
    it records is a NaN, the quotient by the average of no time. *)
Theorem csrTest_zero_iterations (w : world) :
  well_formed w ->
  csrTest_pre VECTOR_SIZE h_val h_cols h_rowDelimiters h_vec numRows nnz
    maxImgWidth images w ->
  opt_iterations B = 0 ->
  exists w' l,
    run (csrTest BLOCK_SIZE VECTOR_SIZE B flags h_val h_cols h_rowDelimiters
           h_vec numRows nnz refOut padded maxImgWidth images) w = Some w' /\
    log w' = l ++ log w /\
    (forall k g lws, ~ In (EvDispatch k g lws) l) /\
    (build_status B (now w) = CL_SUCCESS -> 0 < opt_passes B ->
     In (EvRead "d_out" (numRows * sizeof_float)) l /\
     exists passed, In (EvVerify CsrScalar numRows 0 passed) l) /\
    (forall k pass name atts units value,
       In (EvAddResult k pass name atts units value) l -> value = S754_nan).
Proof.
  intros Hwf Hpre Hit.
  set (P := fun e => match e with
                     | EvDispatch _ _ _ => False
                     | EvAddResult _ _ _ _ _ value => value = S754_nan
                     | _ => True
                     end).
  destruct (@csrTest_Forall P w Hwf) as (w' & l & Hrun & Hlog & Hall).
  - intros [] E; try exact I; discriminate.
  - intros iT n failed l Htr.
    eapply trace_Forall; [| | | |exact Htr].
    + rewrite Hit. lia.
    + exact I.
    + intros; exact I.
    + intros pass t o _ Ht. rewrite (Ht ltac:(lia)). unfold P. cbv beta.
      rewrite Hit. apply div_zero_iterations.
  - intros iT maxLocal n failed l _ _ Htr.
    eapply trace_Forall; [| | | |exact Htr].
    + rewrite Hit. lia.
    + exact I.
    + intros; exact I.
    + intros pass t o _ Ht. rewrite (Ht ltac:(lia)). unfold P. cbv beta.
      rewrite Hit. apply div_zero_iterations.
  - exists w', l. split; [exact Hrun|]. split; [exact Hlog|].
    rewrite Forall_forall in Hall. split; [|split].
    + intros k g lws Hin. exact (Hall _ Hin).
    + intros Hbuild Hpasses.
      csrTest_cases w Hwf w2 Hrun2 Hcases.
      rewrite Hrun in Hrun2. injection Hrun2 as <-.
      destruct Hcases as [(Hb & _) | (_ & Hend)]; [contradiction|].
      assert (Hin : forall l1 l2,
                l = l1 ++ l2 ->
                (In (EvRead "d_out" (numRows * sizeof_float)) l2 /\
                 exists passed, In (EvVerify CsrScalar numRows 0 passed) l2) ->
                In (EvRead "d_out" (numRows * sizeof_float)) l /\
                exists passed, In (EvVerify CsrScalar numRows 0 passed) l).
      { intros l1 l2 -> (Hr & passed & Hv).
        split; [|exists passed]; apply in_or_app; right; assumption. }
      destruct Hend as [w' iT pass l_s Hp Htr Hlog2 _ _
                       |w' iT maxLocal l_s Htr Hq Hmax Hlog2 _ _
                       |w' iT maxLocal pass l_s l_v Htr Hq Hmax Hp Htr2 Hlog2
                          _ _
                       |w' iT maxLocal l_s l_v Htr Hq Hmax Htr2 Hlog2 _ _];
        rewrite Hlog in Hlog2;
        pose proof (trace_first_pass Htr ltac:(first [right; reflexivity
                                                     | left; lia]))
          as (Hr & passed & Hv).
      * apply (Hin [] l).
        { reflexivity. }
        rewrite app_assoc in Hlog2. apply app_inv_tail in Hlog2.
        rewrite Hlog2. split; [|exists passed]; apply in_or_app; left;
          assumption.
      * rewrite !app_assoc in Hlog2. apply app_inv_tail in Hlog2.
        rewrite Hlog2. rewrite <- !app_assoc.
        split; [|exists passed]; rewrite !in_app_iff; auto.
      * rewrite !app_assoc in Hlog2. apply app_inv_tail in Hlog2.
        rewrite Hlog2. rewrite <- !app_assoc.
        split; [|exists passed]; rewrite !in_app_iff; auto.
      * rewrite !app_assoc in Hlog2. apply app_inv_tail in Hlog2.
        rewrite Hlog2. rewrite <- !app_assoc.
        split; [|exists passed]; rewrite !in_app_iff; auto 10.
    + intros k pass name atts units value Hin. exact (Hall _ Hin).
Qed.

(** X19.  Every result that a run of csrTest that is defined
    ([csrTest_pre]) records is of the scalar or of the vector kernel,
    under the name of the kernel, with "Padded_" before it for the padded
    data and "_PCIe" after it for the rate that counts the transfers; its
    attributes are the numbers of entries and rows, its unit is Gflop/s.
    Before every result comes a passed verification of the same pass of
    the same kernel. *)
Theorem csrTest_result_records (w : world) :
  well_formed w ->
  csrTest_pre VECTOR_SIZE h_val h_cols h_rowDelimiters h_vec numRows nnz
    maxImgWidth images w ->
  exists w' l,
    run (csrTest BLOCK_SIZE VECTOR_SIZE B flags h_val h_cols h_rowDelimiters
           h_vec numRows nnz refOut padded maxImgWidth images) w = Some w' /\
    log w' = l ++ log w /\
    (forall k pass name atts units value,
       In (EvAddResult k pass name atts units value) l ->
       k <> Ellpackr /\
       (name = csr_result_name padded k \/
        name = (csr_result_name padded k ++ "_PCIe")%string) /\
       atts = atts_of nnz numRows /\
       units = "Gflop/s"%string) /\
    results_verified numRows l.
Proof.
  intros Hwf Hpre.
  set (P := fun e => match e with
                     | EvAddResult k _ name atts units _ =>
                         k <> Ellpackr /\
                         (name = csr_result_name padded k \/
                          name = (csr_result_name padded k ++ "_PCIe")%string)
                         /\ atts = atts_of nnz numRows /\
                         units = "Gflop/s"%string
                     | _ => True
                     end).
  assert (Hfix : forall e, is_pass_event e = false -> P e).
  { intros [] E; try exact I; discriminate. }
  assert (Hs : forall iT n failed l,
            scalar_trace BLOCK_SIZE B numRows nnz padded iT n failed l ->
            Forall P l).
  { intros iT n failed l Htr.
    eapply trace_Forall; [| | | |exact Htr]; try (intros; exact I).
    intros pass t o _ _. cbn.
    split; (split; [discriminate|]); destruct padded; cbn; auto. }
  assert (Hv : forall iT maxLocal n failed l,
            vector_trace BLOCK_SIZE VECTOR_SIZE B numRows nnz padded iT
              maxLocal n failed l ->
            Forall P l).
  { intros iT maxLocal n failed l Htr.
    eapply trace_Forall; [| | | |exact Htr]; try (intros; exact I).
    intros pass t o _ _. cbn.
    split; (split; [discriminate|]); destruct padded; cbn; auto. }
  assert (Hconv : forall l, Forall P l ->
            forall k pass name atts units value,
              In (EvAddResult k pass name atts units value) l ->
              k <> Ellpackr /\
              (name = csr_result_name padded k \/
               name = (csr_result_name padded k ++ "_PCIe")%string) /\
              atts = atts_of nnz numRows /\
              units = "Gflop/s"%string).
  { intros l Hl k pass name atts units value Hin.
    rewrite Forall_forall in Hl. exact (Hl _ Hin). }
  assert (Hnil : results_verified numRows []).
  { intros l2 k pass name atts units value l1 Heq.
    destruct l2; discriminate. }
  csrTest_cases w Hwf w' Hrun Hcases.
  exists w'.
  destruct Hcases as [(Hb & Hlog & _) | (Hb & Hend)].
  { eexists. split; [exact Hrun|]. split; [exact Hlog|]. split.
    - apply Hconv. eapply Forall_impl; [exact Hfix | apply not_built_events].
    - rewrite <- (app_nil_r [_; _; _; _]).
      apply results_verified_fixed; [apply not_built_events | exact Hnil]. }
  pose proof (csr_fixed_events flags numRows nnz maxImgWidth images
                (next_id w)) as Hf.
  rewrite !Forall_app in Hf.
  destruct Hf as (Hfrees & Hskip & Hbetween & Hsetup).
  assert (Hweak : forall l, Forall (fun e => is_pass_event e = false) l ->
                            Forall P l).
  { intros l Hl. eapply Forall_impl; [exact Hfix | exact Hl]. }
  assert (Hset : results_verified numRows
                   (csr_setup flags numRows nnz maxImgWidth images
                      (next_id w))).
  { rewrite <- (app_nil_r (csr_setup _ _ _ _ _ _)).
    apply results_verified_fixed; [exact Hsetup | exact Hnil]. }
  destruct Hend as [w' iT pass l_s Hpass Htr Hlog _ _
                   |w' iT maxLocal l_s Htr Hq Hmax Hlog _ _
                   |w' iT maxLocal pass l_s l_v Htr Hq Hmax Hpass Htr2 Hlog _ _
                   |w' iT maxLocal l_s l_v Htr Hq Hmax Htr2 Hlog _ _].
  - exists (l_s ++ csr_setup flags numRows nnz maxImgWidth images (next_id w)).
    split; [exact Hrun|].
    split; [rewrite Hlog, app_assoc; reflexivity|]. split.
    + apply Hconv. rewrite Forall_app. split; [eapply Hs; exact Htr | auto].
    + eapply results_verified_trace; [exact Htr | exact Hset].
  - exists (csr_frees (next_id w) ++ csr_skip ++ csr_between numRows ++ l_s ++
            csr_setup flags numRows nnz maxImgWidth images (next_id w)).
    split; [exact Hrun|].
    split; [rewrite Hlog, <- !app_assoc; reflexivity|]. split.
    + apply Hconv. rewrite !Forall_app. repeat split; auto.
      eapply Hs; exact Htr.
    + repeat (apply results_verified_fixed; [assumption|]).
      eapply results_verified_trace; [exact Htr | exact Hset].
  - exists (l_v ++ csr_between numRows ++ l_s ++
            csr_setup flags numRows nnz maxImgWidth images (next_id w)).
    split; [exact Hrun|].
    split; [rewrite Hlog, <- !app_assoc; reflexivity|]. split.
    + apply Hconv. rewrite !Forall_app. repeat split; auto.
      * eapply Hv; exact Htr2.
      * eapply Hs; exact Htr.
    + eapply results_verified_trace; [exact Htr2|].
      apply results_verified_fixed; [assumption|].
      eapply results_verified_trace; [exact Htr | exact Hset].
  - exists (csr_frees (next_id w) ++ l_v ++ csr_between numRows ++ l_s ++
            csr_setup flags numRows nnz maxImgWidth images (next_id w)).
    split; [exact Hrun|].
    split; [rewrite Hlog, <- !app_assoc; reflexivity|]. split.
    + apply Hconv. rewrite !Forall_app. repeat split; auto.
      * eapply Hv; exact Htr2.
      * eapply Hs; exact Htr.
    + apply results_verified_fixed; [assumption|].
      eapply results_verified_trace; [exact Htr2|].
      apply results_verified_fixed; [assumption|].
      eapply results_verified_trace; [exact Htr | exact Hset].
Qed.

(** X20.  Every dispatch of a run of csrTest that is defined
    ([csrTest_pre]: [numRows*VECTOR_SIZE] is within [int], so the product
    below is the one the source computes) is of the scalar kernel, with
    one work item per row in groups of [BLOCK_SIZE], or of the vector
    kernel, with [VECTOR_SIZE] work items per row in groups of the largest
    multiple of [VECTOR_SIZE] that fits the work group size the device
    gave, at least 32, and [BLOCK_SIZE]. *)
Theorem csrTest_work_sizes (w : world) :
  well_formed w ->
  csrTest_pre VECTOR_SIZE h_val h_cols h_rowDelimiters h_vec numRows nnz
    maxImgWidth images w ->
  exists w' l,
    run (csrTest BLOCK_SIZE VECTOR_SIZE B flags h_val h_cols h_rowDelimiters
           h_vec numRows nnz refOut padded maxImgWidth images) w = Some w' /\
    log w' = l ++ log w /\
    forall k globalWorkSize localWorkSize,
      In (EvDispatch k globalWorkSize localWorkSize) l ->
      (k = CsrScalar /\ globalWorkSize = numRows /\
       localWorkSize = BLOCK_SIZE) \/
      (k = CsrVector /\ globalWorkSize = numRows * VECTOR_SIZE /\
       exists t,
         32 <= max_work_group_size B t /\
         localWorkSize =
         VECTOR_SIZE *
         Z.max 1 (Z.min (max_work_group_size B t) BLOCK_SIZE / VECTOR_SIZE)).
Proof.
  intros Hwf Hpre.
  set (P := fun e =>
              match e with
              | EvDispatch k globalWorkSize localWorkSize =>
                  (k = CsrScalar /\ globalWorkSize = numRows /\
                   localWorkSize = BLOCK_SIZE) \/
                  (k = CsrVector /\ globalWorkSize = numRows * VECTOR_SIZE /\
                   exists t,
                     32 <= max_work_group_size B t /\
                     localWorkSize =
                     VECTOR_SIZE *
                     Z.max 1 (Z.min (max_work_group_size B t) BLOCK_SIZE
                              / VECTOR_SIZE))
              | _ => True
              end).
  destruct (@csrTest_Forall P w Hwf) as (w' & l & Hrun & Hlog & Hall).
  - intros [] E; try exact I; discriminate.
  - intros iT n failed l Htr.
    eapply trace_Forall; [| | | |exact Htr]; try (intros; exact I).
    + intros _. left. auto.
    + intros. split; exact I.
  - intros iT maxLocal n failed l [t ->] Hmax Htr.
    eapply trace_Forall; [| | | |exact Htr]; try (intros; exact I).
    + intros _. right. split; [reflexivity|]. split; [reflexivity|].
      exists t. split; [exact Hmax | reflexivity].
    + intros. split; exact I.
  - exists w', l. split; [exact Hrun|]. split; [exact Hlog|].
    rewrite Forall_forall in Hall.
    intros k g lws Hin. exact (Hall _ Hin).
Qed.

End CsrTheorems.

Lemma csrTest_build_failure_witness :
  exists w',
    run (csrTest 128 32 (example_backend_no_build (-11)) EmptyString
           [F32.of_Z 1] [0] [0; 1] [F32.of_Z 1] 1 1 [F32.of_Z 1] false 0
           false) world0 = Some w' /\
    live w' = [(0%nat, Program)].
Proof.
  destruct (@csrTest_build_failure 128 32 (example_backend_no_build (-11)) 1
              [F32.of_Z 1] EmptyString [F32.of_Z 1] [0] [0; 1] [F32.of_Z 1] 1
              false 0 false world0 ltac:(discriminate))
    as (w' & Hrun & _ & Hlive).
  exists w'. split; [exact Hrun | exact Hlive].
Defined.

Lemma csrTest_releases_or_leaks_witness :
  exists w',
    run (csrTest 128 32 (example_backend [F32.of_Z 1] 64) EmptyString
           [F32.of_Z 1] [0] [0; 1] [F32.of_Z 1] 1 1 [F32.of_Z 1] false 0
           false) (world_h_out [F32.zero]) = Some w'.
Proof.
  destruct (@csrTest_releases_or_leaks 128 32
              (example_backend [F32.of_Z 1] 64) ltac:(lia) 1
              [F32.of_Z 1] ltac:(lia) ltac:(simpl; lia)
              ltac:(intros n; simpl; lia) EmptyString [F32.of_Z 1] [0]
              [0; 1] [F32.of_Z 1] 1 false 0 false ltac:(discriminate)
              (world_h_out [F32.zero])
              (@world_h_out_well_formed [F32.zero]) ltac:(example_pre))
    as (w' & Hrun & _).
  exists w'. exact Hrun.
Defined.

Lemma csrTest_event_counts_witness :
  exists w',
    run (csrTest 128 32 (example_backend [F32.of_Z 1] 64) EmptyString
           [F32.of_Z 1] [0] [0; 1] [F32.of_Z 1] 1 1 [F32.of_Z 1] false 0
           false) (world_h_out [F32.zero]) = Some w'.
Proof.
  destruct (@csrTest_event_counts 128 32
              (example_backend [F32.of_Z 1] 64) ltac:(lia) 1
              [F32.of_Z 1] ltac:(lia) ltac:(simpl; lia)
              ltac:(intros n; simpl; lia) EmptyString [F32.of_Z 1] [0]
              [0; 1] [F32.of_Z 1] 1 false 0 false ltac:(discriminate)
              (world_h_out [F32.zero])
              (@world_h_out_well_formed [F32.zero]) ltac:(example_pre))
    as (w' & l & Hrun & _).
  exists w'. exact Hrun.
Defined.

Lemma csrTest_skips_vector_kernel_witness :
  exists w',
    run (csrTest 128 32 (example_backend [F32.of_Z 1] 16) EmptyString
           [F32.of_Z 1] [0] [0; 1] [F32.of_Z 1] 1 1 [F32.of_Z 1] false 0
           false) (world_h_out [F32.zero]) = Some w'.
Proof.
  destruct (@csrTest_skips_vector_kernel 128 32
              (example_backend [F32.of_Z 1] 16) ltac:(lia) 1
              [F32.of_Z 1] ltac:(lia) ltac:(simpl; lia)
              ltac:(intros n; simpl; lia) EmptyString [F32.of_Z 1] [0]
              [0; 1] [F32.of_Z 1] 1 false 0 false ltac:(discriminate)
              (world_h_out [F32.zero])
              (@world_h_out_well_formed [F32.zero]) ltac:(example_pre)
              ltac:(intros t; simpl; lia))
    as (w' & l & Hrun & _).
  exists w'. exact Hrun.
Defined.

Lemma csrTest_zero_iterations_witness :
  exists w',
    run (csrTest 128 32 (example_backend_iterations [F32.of_Z 1] 64 0)
           EmptyString [F32.of_Z 1] [0] [0; 1] [F32.of_Z 1] 1 1 [F32.of_Z 1]
           false 0 false) (world_h_out [F32.zero]) = Some w'.
Proof.
  destruct (@csrTest_zero_iterations 128 32
              (example_backend_iterations [F32.of_Z 1] 64 0) ltac:(lia) 1
              [F32.of_Z 1] ltac:(lia) ltac:(simpl; lia)
              ltac:(intros n; simpl; lia) EmptyString [F32.of_Z 1] [0]
              [0; 1] [F32.of_Z 1] 1 false 0 false ltac:(discriminate)
              (world_h_out [F32.zero])
              (@world_h_out_well_formed [F32.zero]) ltac:(example_pre)
              eq_refl)
    as (w' & l & Hrun & _).
  exists w'. exact Hrun.
Defined.

Lemma csrTest_result_records_witness :
  exists w',
    run (csrTest 128 32 (example_backend [F32.of_Z 1] 64) EmptyString
           [F32.of_Z 1] [0] [0; 1] [F32.of_Z 1] 1 1 [F32.of_Z 1] false 0
           false) (world_h_out [F32.zero]) = Some w'.
Proof.
  destruct (@csrTest_result_records 128 32
              (example_backend [F32.of_Z 1] 64) ltac:(lia) 1
              [F32.of_Z 1] ltac:(lia) ltac:(simpl; lia)
              ltac:(intros n; simpl; lia) EmptyString [F32.of_Z 1] [0]
              [0; 1] [F32.of_Z 1] 1 false 0 false ltac:(discriminate)
              (world_h_out [F32.zero])
              (@world_h_out_well_formed [F32.zero]) ltac:(example_pre))
    as (w' & l & Hrun & _).
  exists w'. exact Hrun.
Defined.

Lemma csrTest_work_sizes_witness :
  exists w',
    run (csrTest 128 32 (example_backend [F32.of_Z 1] 64) EmptyString
           [F32.of_Z 1] [0] [0; 1] [F32.of_Z 1] 1 1 [F32.of_Z 1] false 0
           false) (world_h_out [F32.zero]) = Some w'.
Proof.
  destruct (@csrTest_work_sizes 128 32
              (example_backend [F32.of_Z 1] 64) ltac:(lia) 1
              [F32.of_Z 1] ltac:(lia) ltac:(simpl; lia)
              ltac:(intros n; simpl; lia) EmptyString [F32.of_Z 1] [0]
              [0; 1] [F32.of_Z 1] 1 false 0 false ltac:(discriminate)
              (world_h_out [F32.zero])
              (@world_h_out_well_formed [F32.zero]) ltac:(example_pre))
    as (w' & l & Hrun & _).
  exists w'. exact Hrun.
Defined.

(** ** ellPackTest: how it ends *)

Section EllRuns.

Variable BLOCK_SIZE : Z.
Variable B : backend.
Variable toColMajor : convertToColMajor_t.

Variables (numRows : Z) (refOut : list float).
Hypothesis Hrows : 0 <= numRows.
Hypothesis HrefOut : numRows <= Z.of_nat (length refOut).
Hypothesis Hdevice : forall n, numRows <= Z.of_nat (length (device_out B n)).

Variables (flags : string) (h_val : list float).
Variables (h_cols h_rowDelimiters : list Z) (h_vec : list float).
Variables (nnz : Z) (padded : bool) (paddedSize maxImgWidth : Z).
Variable images : bool.
Hypothesis Himg : images = true -> maxImgWidth <> 0.

Variable E : ellpackr.
Hypothesis Hsetup :
  ellPack_setup toColMajor h_val h_cols h_rowDelimiters numRows padded
    paddedSize = Some E.

(** The model of ellPackTest with a program that does not build: it
    reports the status, prints the two lines of the build log and returns.
    This exit rests on the assumed [CL_CHECK_ERROR]; it is here to
    compose the calls of RunTest, and the theorems on ellPackTest and on
    RunTest rule it out by their preconditions. *)
Lemma ellPackTest_not_built (w : world) :
  build_status B (now w) <> CL_SUCCESS ->
  exists w',
    run (ellPackTest BLOCK_SIZE B toColMajor flags h_val h_cols
           h_rowDelimiters h_vec numRows nnz refOut padded paddedSize
           maxImgWidth images) w = Some w' /\
    log w' = [EvPrint "Log: "; EvPrint "Retsize: ";
              EvPrint ("OpenCL error " ++ dec (build_status B (now w)));
              EvBuild (test_flags flags maxImgWidth images)
                (build_status B (now w));
              EvAlloc (next_id w) Program] ++ log w /\
    live w' = (next_id w, Program) :: live w /\
    next_id w' = S (next_id w).
Proof.
  intros Hbuild.
  apply (@wp_run _ (fun w' =>
           log w' = [EvPrint "Log: "; EvPrint "Retsize: ";
                     EvPrint ("OpenCL error " ++ dec (build_status B (now w)));
                     EvBuild (test_flags flags maxImgWidth images)
                       (build_status B (now w));
                     EvAlloc (next_id w) Program] ++ log w /\
           live w' = (next_id w, Program) :: live w /\
           next_id w' = S (next_id w))).
  unfold ellPackTest. cbv zeta. exec. exec. unfold CL_CHECK_ERROR.
  rewrite (proj2 (Z.eqb_neq _ _) Hbuild). cbn [negb]. unfold cout. exec.
  apply wp_bind. do 2 exec. apply wp_Return.
  cbn [log live next_id]. auto.
Qed.

(** ellPackTest, event by event, once its program is built. *)
Lemma ellPackTest_ends (w : world) :
  well_formed w ->
  build_status B (now w) = CL_SUCCESS ->
  wp (ellPackTest BLOCK_SIZE B toColMajor flags h_val h_cols h_rowDelimiters
        h_vec numRows nnz refOut padded paddedSize maxImgWidth images)
     (fun _ => ell_end BLOCK_SIZE B flags numRows nnz padded paddedSize
                 maxImgWidth images E w)
     (ell_end BLOCK_SIZE B flags numRows nnz padded paddedSize maxImgWidth
        images E w) w.
Proof.
  intros Hwf Hbuild. unfold ellPackTest. cbv zeta.
  exec. exec. unfold CL_CHECK_ERROR. rewrite Hbuild.
  cbn [Z.eqb CL_SUCCESS negb].
  unfold clCreateImage2D, clCreateBuffer, clEnqueueWriteImage,
    clEnqueueWriteBuffer.
  do 3 exec. rewrite Hsetup. do 5 exec.
  eapply wp_bind_val; [apply imgHeight_val; exact Himg|].
  rewrite if_alloc, if_emit.
  do 19 exec.
  eapply (@wp_pass_loop B numRows refOut Hrows HrefOut Hdevice Ellpackr).
  { intros n w1 Hn (Hlive & Hid & l & Hlog & Htr).
    cbn [log live next_id now h_out] in Hlive, Hid, Hlog.
    eapply ell_failed; [exact Hn | exact Htr | | |].
    - rewrite Hlog. unfold ell_setup, cm_elems, d_vec_write, d_vec_object,
        test_flags. destruct images; reflexivity.
    - rewrite Hlive. unfold ell_objects, cm_elems, d_vec_object.
      destruct images; reflexivity.
    - rewrite Hid. reflexivity. }
  intros w1 (Hlive & Hid & l & Hlog & Htr).
  cbn [log live next_id now h_out] in Hlive, Hid, Hlog.
  do 7 exec. exec_last.
  eapply ell_completed; [exact Htr | | |]; cbn [log live next_id now h_out].
  - rewrite Hlog. unfold ell_setup, cm_elems, d_vec_write, d_vec_object,
      test_flags. destruct images; reflexivity.
  - rewrite Hlive. releases. reflexivity.
  - rewrite Hid. reflexivity.
Qed.

(** The model of ellPackTest returns, in one of its three ways (the exit
    at a failed build as it is modelled). *)
Lemma ellPackTest_run (w : world) :
  well_formed w ->
  exists w',
    run (ellPackTest BLOCK_SIZE B toColMajor flags h_val h_cols
           h_rowDelimiters h_vec numRows nnz refOut padded paddedSize
           maxImgWidth images) w = Some w' /\
    ((build_status B (now w) <> CL_SUCCESS /\
      log w' = [EvPrint "Log: "; EvPrint "Retsize: ";
                EvPrint ("OpenCL error " ++ dec (build_status B (now w)));
                EvBuild (test_flags flags maxImgWidth images)
                  (build_status B (now w));
                EvAlloc (next_id w) Program] ++ log w /\
      live w' = (next_id w, Program) :: live w /\
      next_id w' = S (next_id w)) \/
     (build_status B (now w) = CL_SUCCESS /\
      ell_end BLOCK_SIZE B flags numRows nnz padded paddedSize maxImgWidth
        images E w w')).
Proof.
  intros Hwf. destruct (Z.eq_dec (build_status B (now w)) CL_SUCCESS) as [H | H].
  - destruct (@wp_run
                (ellPackTest BLOCK_SIZE B toColMajor flags h_val h_cols
                   h_rowDelimiters h_vec numRows nnz refOut padded paddedSize
                   maxImgWidth images)
                (ell_end BLOCK_SIZE B flags numRows nnz padded paddedSize
                   maxImgWidth images E w) w) as (w' & Hrun & Hend).
    { apply ellPackTest_ends; assumption. }
    exists w'. split; [exact Hrun|]. right. split; [exact H | exact Hend].
  - destruct (ellPackTest_not_built w H) as (w' & Hrun & Hpost).
    exists w'. split; [exact Hrun|]. left. split; [exact H | exact Hpost].
Qed.

End EllRuns.

Lemma ellPack_setup_cmSize (toColMajor : convertToColMajor_t)
  (h_val : list float) (h_cols h_rowDelimiters : list Z) (numRows : Z)
  (padded : bool) (paddedSize : Z) (E : ellpackr) :
  ellPack_setup toColMajor h_val h_cols h_rowDelimiters numRows padded
    paddedSize = Some E ->
  cmSize E = if padded then paddedSize else numRows.
Proof.
  unfold ellPack_setup. intros H.
  destruct (ellPack_rowLengths h_rowDelimiters numRows paddedSize) as [r|];
    [|discriminate].
  cbn [obind] in H.
  destruct (new_array _) as [a|]; [|discriminate]. cbn [obind] in H.
  destruct (new_array _) as [c|]; [|discriminate]. cbn [obind] in H.
  destruct (toColMajor _ _ _ _ _ _ _ _ _) as [cm|]; [|discriminate].
  cbn [obind] in H. inversion H. reflexivity.
Qed.

Lemma ell_fixed_events (flags : string) (numRows paddedSize maxImgWidth : Z)
  (images : bool) (E : ellpackr) (n : nat) :
  Forall (fun e => is_pass_event e = false)
    (ell_frees n ++ ell_setup flags numRows paddedSize maxImgWidth images E n).
Proof.
  unfold ell_frees, ell_setup, d_vec_write. cbn [app].
  destruct images; repeat constructor.
Qed.

Section EllTheorems.

Variable BLOCK_SIZE : Z.
Variable B : backend.
Variable toColMajor : convertToColMajor_t.

Variables (numRows : Z) (refOut : list float).
Hypothesis Hrows : 0 <= numRows.
Hypothesis HrefOut : numRows <= Z.of_nat (length refOut).
Hypothesis Hdevice : forall n, numRows <= Z.of_nat (length (device_out B n)).

Variables (flags : string) (h_val : list float).
Variables (h_cols h_rowDelimiters : list Z) (h_vec : list float).
Variables (nnz : Z) (padded : bool) (paddedSize maxImgWidth : Z).
Variable images : bool.
Hypothesis Himg : images = true -> maxImgWidth <> 0.

Variable E : ellpackr.
Hypothesis Hsetup :
  ellPack_setup toColMajor h_val h_cols h_rowDelimiters numRows padded
    paddedSize = Some E.

Ltac ellPackTest_cases w Hwf w' Hrun Hcases :=
  destruct (@ellPackTest_run BLOCK_SIZE B toColMajor numRows refOut Hrows
              HrefOut Hdevice flags h_val h_cols h_rowDelimiters h_vec nnz
              padded paddedSize maxImgWidth images Himg E Hsetup w Hwf)
    as (w' & Hrun & Hcases).

(** X21.  Where its run is defined ([ellPackTest_pre]: the program
    builds, the host arrays hold what the transfers read and write, the
    sizes are within [int]; the overlapping [sprintf] is taken to return,
    see [benchName_PCIe]), ellPackTest ends in one of two ways.  At its
    regular end it has released its program, its kernel, its five device
    buffers and [h_rowLengths], and the two host arrays [h_valcm] and
    [h_colscm] are still allocated.  Where it returns at a failed
    verification all ten objects are. *)
Theorem ellPackTest_releases_or_leaks (w : world) :
  well_formed w ->
  ellPackTest_pre B h_vec numRows paddedSize maxImgWidth images E w ->
  exists w',
    run (ellPackTest BLOCK_SIZE B toColMajor flags h_val h_cols
           h_rowDelimiters h_vec numRows nnz refOut padded paddedSize
           maxImgWidth images) w = Some w' /\
    ((hd_error (log w') = Some (EvFree (1 + next_id w)) /\
      live w' = ell_leaked E (next_id w) ++ live w) \/
     ((exists pass,
         hd_error (log w') = Some (EvVerify Ellpackr numRows pass false)) /\
      live w' =
      ell_objects numRows paddedSize maxImgWidth images E (next_id w)
      ++ live w)).
Proof.
  intros Hwf Hpre.
  ellPackTest_cases w Hwf w' Hrun Hcases.
  exists w'. split; [exact Hrun|].
  destruct Hcases as [(Hb & _) | (Hb & Hend)].
  { destruct Hpre as [Hbuild _]. contradiction. }
  destruct Hend as [w' iT pass l Hp Htr Hlog Hlive _
                   |w' iT l Htr Hlog Hlive _].
  - right. split; [|exact Hlive].
    destruct (trace_failed_head Htr) as (l' & ->).
    exists pass. rewrite Hlog. reflexivity.
  - left. split; [rewrite Hlog; reflexivity | exact Hlive].
Qed.

(** X22.  In every run of ellPackTest that is defined ([ellPackTest_pre])
    every dispatch is of the ELLPACKR kernel, with one work item per row
    ([paddedSize] of them where [padded] is set) in groups of
    [BLOCK_SIZE]; every verification comes after exactly [iterations]
    dispatches and one read-back, there are at most [passes] of them, and
    every one that passed is followed by exactly two results.  A result is
    named "ELLPACKR-SP" (after "Padded_" where [padded] is set) or has the
    name that the overlapping [sprintf] left, which is not determined
    ([benchName_PCIe]). *)
Theorem ellPackTest_events (w : world) :
  well_formed w ->
  ellPackTest_pre B h_vec numRows paddedSize maxImgWidth images E w ->
  exists w' l,
    run (ellPackTest BLOCK_SIZE B toColMajor flags h_val h_cols
           h_rowDelimiters h_vec numRows nnz refOut padded paddedSize
           maxImgWidth images) w = Some w' /\
    log w' = l ++ log w /\
    (forall k globalWorkSize localWorkSize,
       In (EvDispatch k globalWorkSize localWorkSize) l ->
       k = Ellpackr /\
       globalWorkSize = (if padded then paddedSize else numRows) /\
       localWorkSize = BLOCK_SIZE) /\
    count_events (is_dispatch Ellpackr) l
    = (Z.to_nat (opt_iterations B) * count_events (is_verify Ellpackr) l)%nat /\
    count_events is_read l = count_events (is_verify Ellpackr) l /\
    (count_events (is_verify Ellpackr) l <= Z.to_nat (opt_passes B))%nat /\
    count_events (is_result Ellpackr) l
    = (2 * count_events (is_passed Ellpackr) l)%nat /\
    (forall k pass name atts units value,
       In (EvAddResult k pass name atts units value) l ->
       k = Ellpackr /\
       (name = ell_result_name padded \/
        name = benchName_PCIe B (ell_result_name padded)) /\
       atts = atts_of nnz (if padded then paddedSize else numRows) /\
       units = "Gflop/s"%string) /\
    results_verified numRows l.
Proof.
  intros Hwf Hpre.
  pose proof (ellPack_setup_cmSize _ _ _ _ _ _ _ Hsetup) as Hcm.
  set (P := fun e =>
              match e with
              | EvDispatch k globalWorkSize localWorkSize =>
                  k = Ellpackr /\
                  globalWorkSize = (if padded then paddedSize else numRows) /\
                  localWorkSize = BLOCK_SIZE
              | EvAddResult k _ name atts units _ =>
                  k = Ellpackr /\
                  (name = ell_result_name padded \/
                   name = benchName_PCIe B (ell_result_name padded)) /\
                  atts = atts_of nnz (if padded then paddedSize else numRows) /\
                  units = "Gflop/s"%string
              | _ => True
              end).
  assert (Hfix : forall l, Forall (fun e => is_pass_event e = false) l ->
                           Forall P l).
  { intros l Hl. eapply Forall_impl; [|exact Hl].
    intros [] Hev; try exact I; discriminate. }
  assert (Htrace : forall iT n failed l,
            ell_trace BLOCK_SIZE B numRows nnz padded E iT n failed l ->
            Forall P l).
  { intros iT n failed l Htr.
    eapply trace_Forall; [| | | |exact Htr]; try (intros; exact I).
    - intros _. cbn. auto.
    - intros pass t o _ _. cbn. rewrite Hcm.
      split; (split; [reflexivity|]); unfold ell_result_name;
        destruct padded; cbn; auto. }
  assert (Hconv : forall l, Forall P l ->
            (forall k globalWorkSize localWorkSize,
               In (EvDispatch k globalWorkSize localWorkSize) l ->
               k = Ellpackr /\
               globalWorkSize = (if padded then paddedSize else numRows) /\
               localWorkSize = BLOCK_SIZE) /\
            (forall k pass name atts units value,
               In (EvAddResult k pass name atts units value) l ->
               k = Ellpackr /\
               (name = ell_result_name padded \/
                name = benchName_PCIe B (ell_result_name padded)) /\
               atts = atts_of nnz (if padded then paddedSize else numRows) /\
               units = "Gflop/s"%string)).
  { intros l Hl. rewrite Forall_forall in Hl. split.
    - intros k g lws Hin. exact (Hl _ Hin).
    - intros k pass name atts units value Hin. exact (Hl _ Hin). }
  assert (Hnil : results_verified numRows []).
  { intros l2 k pass name atts units value l1 Heq.
    destruct l2; discriminate. }
  ellPackTest_cases w Hwf w' Hrun Hcases.
  exists w'.
  destruct Hcases as [(Hb & _) | (Hb & Hend)].
  { destruct Hpre as [Hbuild _]. contradiction. }
  pose proof (ell_fixed_events flags numRows paddedSize maxImgWidth images E
                (next_id w)) as Hf.
  rewrite Forall_app in Hf. destruct Hf as (Hfrees & Hset).
  assert (Hsetv : results_verified numRows
                    (ell_setup flags numRows paddedSize maxImgWidth images E
                       (next_id w))).
  { rewrite <- (app_nil_r (ell_setup _ _ _ _ _ _ _)).
    apply results_verified_fixed; [exact Hset | exact Hnil]. }
  destruct Hend as [w' iT pass l Hp Htr Hlog _ _
                   |w' iT l Htr Hlog _ _].
  - exists (l ++ ell_setup flags numRows paddedSize maxImgWidth images E
                   (next_id w)).
    split; [exact Hrun|]. split; [rewrite Hlog, app_assoc; reflexivity|].
    destruct (Hconv (l ++ ell_setup flags numRows paddedSize maxImgWidth
                            images E (next_id w))) as [H1 H2].
    { rewrite Forall_app. split; [eapply Htrace; exact Htr | auto]. }
    destruct (trace_counts Htr) as (C1 & C2 & C3 & C4 & C5).
    split; [exact H1|]. rewrite !count_app. fixed_counts.
    repeat (split; [lia|]). split; [exact H2|].
    eapply results_verified_trace; [exact Htr | exact Hsetv].
  - exists (ell_frees (next_id w) ++ l ++
            ell_setup flags numRows paddedSize maxImgWidth images E
              (next_id w)).
    split; [exact Hrun|]. split; [rewrite Hlog, <- !app_assoc; reflexivity|].
    destruct (Hconv (ell_frees (next_id w) ++ l ++
                     ell_setup flags numRows paddedSize maxImgWidth images E
                       (next_id w))) as [H1 H2].
    { rewrite !Forall_app. repeat split; auto. eapply Htrace; exact Htr. }
    destruct (trace_counts Htr) as (C1 & C2 & C3 & C4 & C5).
    split; [exact H1|]. rewrite !count_app. fixed_counts.
    repeat (split; [lia|]). split; [exact H2|].
    apply results_verified_fixed; [exact Hfrees|].
    eapply results_verified_trace; [exact Htr | exact Hsetv].
Qed.

End EllTheorems.

Lemma ellPackTest_releases_or_leaks_witness :
  exists w',
    run (ellPackTest 128 (example_backend [F32.of_Z 2] 64) convertToColMajor
           EmptyString [F32.of_Z 1] [0] [0; 1] [F32.of_Z 1] 1 1 [F32.of_Z 1]
           false 32 0 false) (world_h_out [F32.zero]) = Some w'.
Proof.
  assert (Hset : exists E,
            ellPack_setup convertToColMajor [F32.of_Z 1] [0] [0; 1] 1 false 32
            = Some E) by (eexists; vm_compute; reflexivity).
  destruct Hset as (E & Hset).
  destruct (@ellPackTest_releases_or_leaks 128
              (example_backend [F32.of_Z 2] 64) convertToColMajor
              1 [F32.of_Z 1] ltac:(lia) ltac:(simpl; lia)
              ltac:(intros n; simpl; lia) EmptyString [F32.of_Z 1] [0] [0; 1]
              [F32.of_Z 1] 1 false 32 0 false ltac:(discriminate) E Hset
              (world_h_out [F32.zero])
              (@world_h_out_well_formed [F32.zero]) ltac:(example_pre))
    as (w' & Hrun & _).
  exists w'. exact Hrun.
Defined.

Lemma ellPackTest_events_witness :
  exists w',
    run (ellPackTest 128 (example_backend [F32.of_Z 2] 64) convertToColMajor
           EmptyString [F32.of_Z 1] [0] [0; 1] [F32.of_Z 1] 1 1 [F32.of_Z 1]
           false 32 0 false) (world_h_out [F32.zero]) = Some w'.
Proof.
  assert (Hset : exists E,
            ellPack_setup convertToColMajor [F32.of_Z 1] [0] [0; 1] 1 false 32
            = Some E) by (eexists; vm_compute; reflexivity).
  destruct Hset as (E & Hset).
  destruct (@ellPackTest_events 128
              (example_backend [F32.of_Z 2] 64) convertToColMajor
              1 [F32.of_Z 1] ltac:(lia) ltac:(simpl; lia)
              ltac:(intros n; simpl; lia) EmptyString [F32.of_Z 1] [0] [0; 1]
              [F32.of_Z 1] 1 false 32 0 false ltac:(discriminate) E Hset
              (world_h_out [F32.zero])
              (@world_h_out_well_formed [F32.zero]) ltac:(example_pre))
    as (w' & l & Hrun & _).
  exists w'. exact Hrun.
Defined.

(** ** RunTest *)

Lemma call_run (m : M unit) (w w' : world) :
  run m w = Some w' -> call m w = Val tt w'.
Proof.
  unfold run, call. destruct (m w); intros H; inversion H; reflexivity.
Qed.

Lemma ub_bind_val {A C : Type} (m : M A) (k : A -> M C) (w : world) (a : A)
  (w' : world) :
  m w = Val a w' -> k a w' = UB -> bind m k w = UB.
Proof. intros Hm Hk. unfold bind. rewrite Hm. exact Hk. Qed.

Lemma trace_pass_events (k : kernel_id) (g lws iters numRows : Z)
  (name name' atts : string) (value value' : double -> double -> double)
  (n : Z) (failed : bool) (l : list event) :
  passes_trace k g lws iters numRows
    (pass_results k name name' atts value value') n failed l ->
  Forall (fun e => is_pass_event e = true) l.
Proof.
  intros H. eapply trace_Forall; [| | | |exact H]; intros; cbn; auto.
Qed.

Lemma image_use_pass_events (flags : string) (images : bool)
  (l : list event) :
  Forall (fun e => is_pass_event e = true) l ->
  Forall (image_use flags images) l.
Proof.
  intros H. eapply Forall_impl; [|exact H].
  intros [] E; try exact I; discriminate.
Qed.

Lemma keeps_refl (w : world) : well_formed w -> keeps w w.
Proof. intros H. split; [exact H|]. split; [lia | auto]. Qed.

Lemma keeps_trans (w1 w2 w3 : world) :
  keeps w1 w2 -> keeps w2 w3 -> keeps w1 w3.
Proof.
  intros (_ & H1 & L1) (W & H2 & L2). split; [exact W|].
  split; [lia | auto].
Qed.

Section TestCalls.

Variables BLOCK_SIZE VECTOR_SIZE : Z.
Variable B : backend.
Hypothesis Hvector : 0 < VECTOR_SIZE.

Variables (numRows : Z) (refOut : list float).
Hypothesis Hrows : 0 <= numRows.
Hypothesis HrefOut : numRows <= Z.of_nat (length refOut).
Hypothesis Hdevice : forall n, numRows <= Z.of_nat (length (device_out B n)).

Variables (flags : string) (h_val : list float).
Variables (h_cols h_rowDelimiters : list Z) (h_vec : list float).
Variables (nnz : Z) (padded : bool) (maxImgWidth : Z) (images : bool).
Hypothesis Himg : images = true -> maxImgWidth <> 0.

(** A call of csrTest: it returns, it releases nothing but its own
    objects, and it uses an image exactly when it was told to. *)
Lemma csrTest_call (w : world) :
  well_formed w ->
  exists w' l,
    call (csrTest BLOCK_SIZE VECTOR_SIZE B flags h_val h_cols h_rowDelimiters
            h_vec numRows nnz refOut padded maxImgWidth images) w
    = Val tt w' /\
    keeps w w' /\
    log w' = l ++ log w /\
    Forall (image_use (test_flags flags maxImgWidth images) images) l.
Proof.
  intros Hwf.
  destruct (@csrTest_run BLOCK_SIZE VECTOR_SIZE B Hvector numRows refOut Hrows
              HrefOut Hdevice flags h_val h_cols h_rowDelimiters h_vec nnz
              padded maxImgWidth images Himg w Hwf)
    as (w' & Hrun & Hcases).
  exists w'.
  assert (Hfixed : forall n,
            Forall (image_use (test_flags flags maxImgWidth images) images)
              (csr_frees n ++ csr_skip ++ csr_between numRows ++
               csr_setup flags numRows nnz maxImgWidth images n)).
  { intros n. unfold csr_frees, csr_skip, csr_between, csr_setup, kernel_args,
      d_vec_write. cbn [app].
    destruct images; repeat constructor; cbn; try discriminate; auto. }
  specialize (Hfixed (next_id w)). rewrite !Forall_app in Hfixed.
  destruct Hfixed as (Hfrees & Hskip & Hbetween & Hsetup).
  assert (Hobjs : forall l0,
            live w' = l0 ++ live w ->
            (forall p, In p l0 -> (fst p < next_id w')%nat) ->
            (next_id w <= next_id w')%nat ->
            keeps w w').
  { intros l0 Hlive Hl0 Hid. split; [|split; [exact Hid|]].
    - intros p Hp. rewrite Hlive in Hp. apply in_app_or in Hp.
      destruct Hp as [Hp | Hp]; [apply Hl0, Hp|].
      pose proof (Hwf p Hp). lia.
    - intros p Hp. rewrite Hlive. apply in_or_app. right. exact Hp. }
  assert (Hcsr : forall p,
            In p (csr_objects numRows nnz maxImgWidth images (next_id w)) ->
            (fst p < 8 + next_id w)%nat).
  { intros p Hp. unfold csr_objects in Hp. cbn [In] in Hp.
    repeat (destruct Hp as [<- | Hp]; [cbn [fst]; lia|]). destruct Hp. }
  destruct Hcases as [(Hb & Hlog & Hlive & Hid) | (Hb & Hend)].
  { eexists. split; [apply call_run; exact Hrun|]. split; [|split].
    - apply (Hobjs [(next_id w, Program)]); [exact Hlive | | lia].
      intros p [<- | []]. cbn [fst]. lia.
    - exact Hlog.
    - repeat constructor. }
  destruct Hend as [w' iT pass l_s Hpass Htr Hlog Hlive Hid
                   |w' iT maxLocal l_s Htr Hq Hmax Hlog Hlive Hid
                   |w' iT maxLocal pass l_s l_v Htr Hq Hmax Hpass Htr2 Hlog
                      Hlive Hid
                   |w' iT maxLocal l_s l_v Htr Hq Hmax Htr2 Hlog Hlive Hid].
  - eexists. split; [apply call_run; exact Hrun|]. split; [|split].
    + apply (Hobjs _ Hlive); [|lia]. rewrite Hid. exact Hcsr.
    + rewrite Hlog, app_assoc. reflexivity.
    + rewrite Forall_app. split; [|exact Hsetup].
      apply image_use_pass_events. eapply trace_pass_events. exact Htr.
  - eexists. split; [apply call_run; exact Hrun|]. split; [|split].
    + apply (Hobjs []); [exact Hlive | intros p [] | lia].
    + rewrite Hlog, !app_assoc. reflexivity.
    + rewrite !Forall_app. repeat split; auto.
      apply image_use_pass_events. eapply trace_pass_events. exact Htr.
  - eexists. split; [apply call_run; exact Hrun|]. split; [|split].
    + apply (Hobjs _ Hlive); [|lia]. rewrite Hid. exact Hcsr.
    + rewrite Hlog, !app_assoc. reflexivity.
    + rewrite !Forall_app. repeat split; auto.
      * apply image_use_pass_events. eapply trace_pass_events. exact Htr2.
      * apply image_use_pass_events. eapply trace_pass_events. exact Htr.
  - eexists. split; [apply call_run; exact Hrun|]. split; [|split].
    + apply (Hobjs []); [exact Hlive | intros p [] | lia].
    + rewrite Hlog, !app_assoc. reflexivity.
    + rewrite !Forall_app. repeat split; auto.
      * apply image_use_pass_events. eapply trace_pass_events. exact Htr2.
      * apply image_use_pass_events. eapply trace_pass_events. exact Htr.
Qed.

Variable toColMajor : convertToColMajor_t.
Variable paddedSize : Z.
Hypothesis Hsetup :
  ellPack_setup toColMajor h_val h_cols h_rowDelimiters numRows padded
    paddedSize <> None.

(** A call of ellPackTest, likewise. *)
Lemma ellPackTest_call (w : world) :
  well_formed w ->
  exists w' l,
    call (ellPackTest BLOCK_SIZE B toColMajor flags h_val h_cols
            h_rowDelimiters h_vec numRows nnz refOut padded paddedSize
            maxImgWidth images) w
    = Val tt w' /\
    keeps w w' /\
    log w' = l ++ log w /\
    Forall (image_use (test_flags flags maxImgWidth images) images) l.
Proof.
  intros Hwf.
  destruct (ellPack_setup toColMajor h_val h_cols h_rowDelimiters numRows
              padded paddedSize) as [E|] eqn:HE; [|contradiction].
  destruct (@ellPackTest_run BLOCK_SIZE B toColMajor numRows refOut Hrows
              HrefOut Hdevice flags h_val h_cols h_rowDelimiters h_vec nnz
              padded paddedSize maxImgWidth images Himg E HE w Hwf)
    as (w' & Hrun & Hcases).
  exists w'.
  assert (Hfixed : forall n,
            Forall (image_use (test_flags flags maxImgWidth images) images)
              (ell_frees n ++
               ell_setup flags numRows paddedSize maxImgWidth images E n)).
  { intros n. unfold ell_frees, ell_setup, d_vec_write. cbn [app].
    destruct images; repeat constructor; cbn; try discriminate; auto. }
  specialize (Hfixed (next_id w)). rewrite !Forall_app in Hfixed.
  destruct Hfixed as (Hfrees & Hset).
  assert (Hobjs : forall l0,
            live w' = l0 ++ live w ->
            (forall p, In p l0 -> (fst p < next_id w')%nat) ->
            (next_id w <= next_id w')%nat ->
            keeps w w').
  { intros l0 Hlive Hl0 Hid. split; [|split; [exact Hid|]].
    - intros p Hp. rewrite Hlive in Hp. apply in_app_or in Hp.
      destruct Hp as [Hp | Hp]; [apply Hl0, Hp|].
      pose proof (Hwf p Hp). lia.
    - intros p Hp. rewrite Hlive. apply in_or_app. right. exact Hp. }
  destruct Hcases as [(Hb & Hlog & Hlive & Hid) | (Hb & Hend)].
  { eexists. split; [apply call_run; exact Hrun|]. split; [|split].
    - apply (Hobjs [(next_id w, Program)]); [exact Hlive | | lia].
      intros p [<- | []]. cbn [fst]. lia.
    - exact Hlog.
    - repeat constructor. }
  destruct Hend as [w' iT pass l Hpass Htr Hlog Hlive Hid
                   |w' iT l Htr Hlog Hlive Hid].
  - eexists. split; [apply call_run; exact Hrun|]. split; [|split].
    + apply (Hobjs _ Hlive); [|lia]. rewrite Hid.
      intros p Hp. unfold ell_objects in Hp. cbn [In] in Hp.
      repeat (destruct Hp as [<- | Hp]; [cbn [fst]; lia|]). destruct Hp.
    + rewrite Hlog, app_assoc. reflexivity.
    + rewrite Forall_app. split; [|exact Hset].
      apply image_use_pass_events. eapply trace_pass_events. exact Htr.
  - eexists. split; [apply call_run; exact Hrun|]. split; [|split].
    + apply (Hobjs _ Hlive); [|lia]. rewrite Hid.
      intros p Hp. unfold ell_leaked in Hp. cbn [In] in Hp.
      repeat (destruct Hp as [<- | Hp]; [cbn [fst]; lia|]). destruct Hp.
    + rewrite Hlog, !app_assoc. reflexivity.
    + rewrite !Forall_app. repeat split; auto.
      apply image_use_pass_events. eapply trace_pass_events. exact Htr.
Qed.

End TestCalls.

Lemma extends_refl (P : event -> Prop) (base : list event) :
  extends P base base.
Proof. exists []. split; [reflexivity | constructor]. Qed.

Lemma extends_cons (P : event -> Prop) (base l : list event) (e : event) :
  P e -> extends P base l -> extends P base (e :: l).
Proof.
  intros He (l0 & -> & Hl0). exists (e :: l0).
  split; [reflexivity | constructor; assumption].
Qed.

Lemma extends_app (P : event -> Prop) (base l l1 : list event) :
  Forall P l1 -> extends P base l -> extends P base (l1 ++ l).
Proof.
  intros H1 (l0 & -> & Hl0). exists (l1 ++ l0).
  split; [rewrite app_assoc; reflexivity | apply Forall_app; auto].
Qed.

Lemma keeps_emit (w w1 : world) (e : event) :
  keeps w w1 ->
  keeps w {| log := e :: log w1; live := live w1; next_id := next_id w1;
             now := now w1; h_out := h_out w1 |}.
Proof. intros H. exact H. Qed.

Lemma well_formed_emit (w1 : world) (e : event) :
  well_formed w1 ->
  well_formed {| log := e :: log w1; live := live w1; next_id := next_id w1;
                 now := now w1; h_out := h_out w1 |}.
Proof. intros H. exact H. Qed.

Lemma not_released (id a : nat) (r : resource) (l : list (nat * resource)) :
  a <> id -> In (a, r) l ->
  In (a, r) (filter (fun p => negb (Nat.eqb (fst p) id)) l).
Proof.
  intros Hne Hin. apply filter_In. split; [exact Hin|].
  cbn [fst]. apply negb_true_iff, Nat.eqb_neq. exact Hne.
Qed.

Lemma released (id : nat) (r : resource) (l : list (nat * resource)) :
  ~ In (id, r) (filter (fun p => negb (Nat.eqb (fst p) id)) l).
Proof.
  intros Hin. apply filter_In in Hin. destruct Hin as [_ Hf].
  cbn [fst] in Hf. rewrite Nat.eqb_refl in Hf. discriminate.
Qed.

Lemma released_before (id id' : nat) (r : resource)
  (l : list (nat * resource)) :
  ~ In (id, r)
      (filter (fun p => negb (Nat.eqb (fst p) id'))
         (filter (fun p => negb (Nat.eqb (fst p) id)) l)).
Proof.
  intros Hin. apply filter_In in Hin. destruct Hin as [Hin _].
  exact (@released id r l Hin).
Qed.

Ltac find_in := solve [repeat first [left; reflexivity | right]].

Section RunTestRun.

Variables PAD_FACTOR BLOCK_SIZE VECTOR_SIZE : Z.
Variable B : backend.
Variable toColMajor : convertToColMajor_t.
Variable convertToPadded :
  list float -> list Z -> Z -> list Z -> list float * list Z * list Z * Z.
Variables (flags : string) (h_val : list float).
Variables (h_cols h_rowDelimiters : list Z).
Variables (nItems numRows : Z) (h_vec : list float).

Hypothesis Hvector : 0 < VECTOR_SIZE.
Hypothesis Hcsr :
  csr_invariant h_val h_cols h_rowDelimiters numRows
    (Z.of_nat (length h_vec)).
Hypothesis Hdevice : forall n, numRows <= Z.of_nat (length (device_out B n)).
Hypothesis Hsetup :
  ellPack_setup toColMajor h_val h_cols h_rowDelimiters numRows false
    (paddedSize PAD_FACTOR numRows) <> None.

Variable w : world.
Hypothesis Hwf : well_formed w.
Hypothesis Hwidth : image2d_max_width B (S (now w)) <> 0.

(** The three tests of one branch of RunTest and the two deletes after
    them, from a state [w0] in which the host arrays are there. *)
Lemma RunTest_tests (refOut : list float) (images : bool) (maxImgWidth : Z)
  (p_val p_valPad : nat) (w0 : world) (Q : unit -> world -> Prop) :
  numRows <= Z.of_nat (length refOut) ->
  (images = true -> maxImgWidth <> 0) ->
  well_formed w0 ->
  (forall w3 l,
     keeps w0 w3 ->
     log w3 = l ++ log w0 ->
     Forall (image_use (test_flags flags maxImgWidth images) images) l ->
     Q tt {| log := EvFree p_valPad :: EvFree p_val :: log w3;
             live := filter (fun p => negb (Nat.eqb (fst p) p_valPad))
                       (filter (fun p => negb (Nat.eqb (fst p) p_val))
                          (live w3));
             next_id := next_id w3; now := now w3; h_out := h_out w3 |}) ->
  wp ((cout "CSR Test" ;;;
       call (csrTest BLOCK_SIZE VECTOR_SIZE B flags h_val h_cols
               h_rowDelimiters h_vec numRows nItems refOut false maxImgWidth
               images) ;;;
       cout "CSR Test -- Padded Data" ;;;
       call (csrTest BLOCK_SIZE VECTOR_SIZE B flags
               (fst (fst (fst (convertToPadded h_val h_cols numRows
                                 h_rowDelimiters))))
               (snd (fst (fst (convertToPadded h_val h_cols numRows
                                 h_rowDelimiters))))
               (snd (fst (convertToPadded h_val h_cols numRows
                            h_rowDelimiters)))
               h_vec numRows
               (snd (convertToPadded h_val h_cols numRows h_rowDelimiters))
               refOut true maxImgWidth images) ;;;
       cout "ELLPACKR Test" ;;;
       call (ellPackTest BLOCK_SIZE B toColMajor flags h_val h_cols
               h_rowDelimiters h_vec numRows nItems refOut false
               (paddedSize PAD_FACTOR numRows) maxImgWidth images)) ;;;
      release p_val ;;; release p_valPad)
     Q (fun _ => False) w0.
Proof.
  intros HrefOut Himg Hwf0 HQ.
  pose proof (csr_rows Hcsr) as Hrows.
  apply wp_bind. exec.
  destruct (@csrTest_call BLOCK_SIZE VECTOR_SIZE B Hvector numRows refOut
              Hrows HrefOut Hdevice flags h_val h_cols h_rowDelimiters h_vec
              nItems false maxImgWidth images Himg _
              (well_formed_emit (EvPrint "CSR Test") Hwf0))
    as (w1 & l1 & Hcall1 & Hk1 & Hlog1 & Huse1).
  cbn [log] in Hlog1.
  eapply wp_bind_val; [exact Hcall1|]. exec.
  destruct (@csrTest_call BLOCK_SIZE VECTOR_SIZE B Hvector numRows refOut
              Hrows HrefOut Hdevice flags
              (fst (fst (fst (convertToPadded h_val h_cols numRows
                                h_rowDelimiters))))
              (snd (fst (fst (convertToPadded h_val h_cols numRows
                                h_rowDelimiters))))
              (snd (fst (convertToPadded h_val h_cols numRows
                           h_rowDelimiters)))
              h_vec
              (snd (convertToPadded h_val h_cols numRows h_rowDelimiters))
              true maxImgWidth images Himg _
              (well_formed_emit (EvPrint "CSR Test -- Padded Data")
                 (proj1 Hk1)))
    as (w2 & l2 & Hcall2 & Hk2 & Hlog2 & Huse2).
  cbn [log] in Hlog2.
  eapply wp_bind_val; [exact Hcall2|]. exec.
  destruct (@ellPackTest_call BLOCK_SIZE B numRows refOut Hrows HrefOut
              Hdevice flags h_val h_cols h_rowDelimiters h_vec nItems false
              maxImgWidth images Himg toColMajor
              (paddedSize PAD_FACTOR numRows) Hsetup _
              (well_formed_emit (EvPrint "ELLPACKR Test") (proj1 Hk2)))
    as (w3 & l3 & Hcall3 & Hk3 & Hlog3 & Huse3).
  cbn [log] in Hlog3.
  eapply wp_val; [exact Hcall3|]. cbv beta.
  exec. exec_last.
  apply (HQ w3 (l3 ++ EvPrint "ELLPACKR Test" :: l2 ++
                EvPrint "CSR Test -- Padded Data" :: l1 ++
                [EvPrint "CSR Test"])).
  - apply (@keeps_trans w0 w2 w3); [|exact Hk3].
    apply (@keeps_trans w0 w1 w2); [exact Hk1 | exact Hk2].
  - rewrite Hlog3, Hlog2, Hlog1.
    repeat first [rewrite <- app_assoc | rewrite <- app_comm_cons
                 | progress cbn [app]].
    reflexivity.
  - rewrite Forall_app. split; [exact Huse3|]. constructor; [exact I|].
    rewrite Forall_app. split; [exact Huse2|]. constructor; [exact I|].
    rewrite Forall_app. split; [exact Huse1|]. constructor; [exact I|].
    constructor.
Qed.


Ltac prefix_well_formed :=
  let p := fresh "p" in
  let Hp := fresh "Hp" in
  intros p Hp; cbn [live next_id In] in Hp |- *;
  repeat (destruct Hp as [<- | Hp]; [cbn [fst]; lia|]);
  pose proof (Hwf p Hp); lia.

Ltac after_tests Hk Hlog Huse :=
  cbn [log] in Hlog; destruct Hk as (_ & _ & Hk);
  split; [|split];
  [ let r := fresh "r" in
    let Hr := fresh "Hr" in
    intros r Hr; cbn [RunTest_kept_arrays In] in Hr;
    repeat (destruct Hr as [<- | Hr];
            [eexists; apply not_released;
             [|apply not_released; [|apply Hk; cbn [live In]; find_in]];
             lia|]);
    destruct Hr
  | eexists _, _, _; split; [reflexivity|];
    split; [rewrite Hlog; apply in_or_app; right; cbn [In]; find_in|];
    split; [rewrite Hlog; apply in_or_app; right; cbn [In]; find_in|];
    split; [intros r; apply released_before | intros r; apply released]
  | do 2 (apply extends_cons; [exact I|]);
    rewrite Hlog; apply extends_app; [exact Huse|];
    repeat (apply extends_cons; [exact I|]); apply extends_refl ].

Lemma RunTest_run :
  wp (RunTest PAD_FACTOR BLOCK_SIZE VECTOR_SIZE B toColMajor convertToPadded
        flags h_val h_cols h_rowDelimiters nItems numRows h_vec)
     (fun _ =>
        RunTest_post PAD_FACTOR B convertToPadded flags h_val h_cols
          h_rowDelimiters nItems numRows w)
     (fun _ => False) w.
Proof.
  pose proof (csr_rows Hcsr) as Hrows.
  destruct (@spmvCpu_spec h_val h_cols h_rowDelimiters h_vec numRows
              (repeat F32.zero (Z.to_nat numRows)) Hcsr
              ltac:(rewrite repeat_length; lia))
    as (refOut & Hspmv & Hlen & _).
  assert (HrefOut : numRows <= Z.of_nat (length refOut))
    by (rewrite Hlen, repeat_length; lia).
  unfold RunTest_post, uses_images, RunTest. cbv zeta.
  unfold clCreateImage2D.
  do 3 exec.
  destruct (sampler_status B (S (S (now w))) =? CL_SUCCESS) eqn:Hs;
    cbn [negb]; rewrite ?andb_false_r, ?andb_true_r; cbn [andb];
    unfold cout.
  - do 4 exec.
    eapply wp_bind_val;
      [unfold lift, imgHeight_of; rewrite (proj2 (Z.eqb_neq _ _) Hwidth);
       reflexivity|].
    exec.
    destruct (image_check_status B (S (S (S (now w)))) =? CL_SUCCESS) eqn:Hi;
      cbn [negb]; rewrite ?andb_false_r, ?andb_true_r; cbn [andb].
    + exec. releases. do 7 exec.
      eapply wp_bind_val; [unfold lift; rewrite Hspmv; reflexivity|].
      destruct (image_support B (now w)) eqn:Hsup.
      * eapply RunTest_tests;
          [exact HrefOut | intros _; exact Hwidth | prefix_well_formed |].
        intros w3 l Hk Hlog Huse. after_tests Hk Hlog Huse.
      * eapply RunTest_tests;
          [exact HrefOut | discriminate | prefix_well_formed |].
        intros w3 l Hk Hlog Huse. after_tests Hk Hlog Huse.
    + exec. do 7 exec.
      eapply wp_bind_val; [unfold lift; rewrite Hspmv; reflexivity|].
      eapply RunTest_tests;
        [exact HrefOut | discriminate | prefix_well_formed |].
      intros w3 l Hk Hlog Huse. after_tests Hk Hlog Huse.
  - do 4 exec.
    eapply wp_bind_val;
      [unfold lift, imgHeight_of; rewrite (proj2 (Z.eqb_neq _ _) Hwidth);
       reflexivity|].
    exec.
    destruct (image_check_status B (S (S (S (now w)))) =? CL_SUCCESS) eqn:Hi;
      cbn [negb].
    + exec. releases. do 7 exec.
      eapply wp_bind_val; [unfold lift; rewrite Hspmv; reflexivity|].
      eapply RunTest_tests;
        [exact HrefOut | discriminate | prefix_well_formed |].
      intros w3 l Hk Hlog Huse. after_tests Hk Hlog Huse.
    + exec. do 7 exec.
      eapply wp_bind_val; [unfold lift; rewrite Hspmv; reflexivity|].
      eapply RunTest_tests;
        [exact HrefOut | discriminate | prefix_well_formed |].
      intros w3 l Hk Hlog Huse. after_tests Hk Hlog Huse.
Qed.

End RunTestRun.

Ltac ub_exec :=
  eapply ub_bind_val; [reflexivity|]; cbn [log live next_id now h_out].

(** X23.  A device that reports the maximum image width 0 (one without images
    may) makes RunTest divide by zero: the height of the image is computed
    before the image check, whether or not images are used, so RunTest has no
    defined result. *)
Theorem RunTest_zero_image_width :
  forall (PAD_FACTOR BLOCK_SIZE VECTOR_SIZE : Z) (B : backend)
         (toColMajor : convertToColMajor_t)
         (convertToPadded :
            list float -> list Z -> Z -> list Z ->
            list float * list Z * list Z * Z)
         (flags : string) (h_val : list float)
         (h_cols h_rowDelimiters : list Z) (nItems numRows : Z)
         (h_vec : list float) (w : world),
    image2d_max_width B (S (now w)) = 0 ->
    run (RunTest PAD_FACTOR BLOCK_SIZE VECTOR_SIZE B toColMajor
           convertToPadded flags h_val h_cols h_rowDelimiters nItems numRows
           h_vec) w = None.
Proof.
  intros PAD_FACTOR BLOCK_SIZE VECTOR_SIZE B toColMajor convertToPadded flags
    h_val h_cols h_rowDelimiters nItems numRows h_vec w Hwidth.
  assert (H : RunTest PAD_FACTOR BLOCK_SIZE VECTOR_SIZE B toColMajor
                convertToPadded flags h_val h_cols h_rowDelimiters nItems
                numRows h_vec w = UB);
    [|unfold run; rewrite H; reflexivity].
  unfold RunTest. cbv zeta. do 3 ub_exec.
  destruct (sampler_status B (S (S (now w))) =? CL_SUCCESS);
    cbn [negb]; do 4 ub_exec;
    unfold bind, lift, imgHeight_of; rewrite Hwidth; reflexivity.
Qed.

Lemma RunTest_zero_image_width_witness :
  run (RunTest 32 128 32 (example_backend_width 0) convertToColMajor
         example_convertToPadded EmptyString [F32.of_Z 1] [0] [0; 1] 1 1
         [F32.of_Z 1]) world0 = None.
Proof. apply RunTest_zero_image_width. reflexivity. Defined.

(** X24.  Where its run is defined ([RunTest_pre]), of its host arrays
    RunTest frees [h_val] and [h_valPad]: each of its two [delete[]]
    statements lists arrays with commas and so deletes the first one only,
    and [refOut] is in neither.  At its end the two are freed, by the last
    two events, and [h_cols], [h_rowDelimiters], [h_vec], [refOut],
    [h_rowDelimitersPad] and [h_out] are still allocated, whatever the
    tests did. *)
Theorem RunTest_host_arrays :
  forall (PAD_FACTOR BLOCK_SIZE VECTOR_SIZE : Z) (B : backend)
         (toColMajor : convertToColMajor_t)
         (convertToPadded :
            list float -> list Z -> Z -> list Z ->
            list float * list Z * list Z * Z)
         (flags : string) (h_val : list float)
         (h_cols h_rowDelimiters : list Z) (nItems numRows : Z)
         (h_vec : list float) (w : world),
    0 < VECTOR_SIZE ->
    csr_invariant h_val h_cols h_rowDelimiters numRows
      (Z.of_nat (length h_vec)) ->
    (forall n, numRows <= Z.of_nat (length (device_out B n))) ->
    ellPack_setup toColMajor h_val h_cols h_rowDelimiters numRows false
      (paddedSize PAD_FACTOR numRows) <> None ->
    well_formed w ->
    image2d_max_width B (S (now w)) <> 0 ->
    RunTest_pre PAD_FACTOR VECTOR_SIZE B toColMajor convertToPadded h_val
      h_cols h_rowDelimiters nItems numRows h_vec w ->
    exists w',
      run (RunTest PAD_FACTOR BLOCK_SIZE VECTOR_SIZE B toColMajor
             convertToPadded flags h_val h_cols h_rowDelimiters nItems
             numRows h_vec) w = Some w' /\
      (forall r, In r (RunTest_kept_arrays PAD_FACTOR nItems numRows) ->
                 exists id, In (id, r) (live w')) /\
      exists id_val id_valPad l,
        log w' = EvFree id_valPad :: EvFree id_val :: l /\
        In (EvAlloc id_val (HostArray "h_val" nItems)) l /\
        In (EvAlloc id_valPad
              (HostArray "h_valPad"
                 (snd (convertToPadded h_val h_cols numRows
                         h_rowDelimiters)))) l /\
        (forall r, ~ In (id_val, r) (live w')) /\
        (forall r, ~ In (id_valPad, r) (live w')).
Proof.
  intros PAD_FACTOR BLOCK_SIZE VECTOR_SIZE B toColMajor convertToPadded flags
    h_val h_cols h_rowDelimiters nItems numRows h_vec w Hvector Hcsr Hdevice
    Hsetup Hwf Hwidth Hpre.
  destruct (@wp_run
              (RunTest PAD_FACTOR BLOCK_SIZE VECTOR_SIZE B toColMajor
                 convertToPadded flags h_val h_cols h_rowDelimiters nItems
                 numRows h_vec)
              (RunTest_post PAD_FACTOR B convertToPadded flags h_val h_cols
                 h_rowDelimiters nItems numRows w) w)
    as (w' & Hrun & Hkept & Hfreed & _).
  { eapply wp_mono;
      [apply RunTest_run; assumption | auto | intros w' []]. }
  exists w'. auto.
Qed.

Lemma RunTest_host_arrays_witness :
  exists w',
    run (RunTest 32 128 32 (example_backend [F32.of_Z 2] 64) convertToColMajor
           example_convertToPadded EmptyString [F32.of_Z 1] [0] [0; 1] 1 1
           [F32.of_Z 1]) world0 = Some w'.
Proof.
  destruct (@RunTest_host_arrays 32 128 32 (example_backend [F32.of_Z 2] 64)
              convertToColMajor example_convertToPadded EmptyString
              [F32.of_Z 1] [0] [0; 1] 1 1 [F32.of_Z 1] world0)
    as (w' & Hrun & _).
  - lia.
  - exact unit_matrix_csr.
  - intros n. simpl. lia.
  - vm_compute. discriminate.
  - exact world0_well_formed.
  - simpl. lia.
  - example_pre.
  - exists w'. exact Hrun.
Defined.


